(** * Ciceron / proxy Légifrance v2: the token manager, the POST transport
      and the code-article resolver

    A shallow embedding of
      - app/utils/normalize.py, app/utils/dates.py
      - app/services/legifrance.py
      - app/services/resolver.py
    Python values that travel as JSON are terms of [json]; an [async def] is
    a function of the process state [World] that returns a value or raises
    ([result]); what the outside answers (token endpoint, API, clock) is read
    from an environment [Env], call after call.

    Conventions of the embedding.
      - [str] is [string]; whitespace and digit classes are the ASCII ones.
      - [time.time()] and the sleeps are exact rationals ([Q]), in seconds.
      - [None] travelling where JSON travels is [JNull]. *)

From Stdlib Require Import ZArith QArith Qround List String Ascii Bool Arith Lia Lqa.
From Stdlib Require Import DecimalString.
Import ListNotations.

Close Scope Q_scope.
Local Open Scope nat_scope.
Local Open Scope list_scope.
Local Open Scope string_scope.

(* ================================================================== *)
(** ** Python strings *)
(* ================================================================== *)

Module PyStr.

(** [str.isspace] on ASCII: TAB LF VT FF CR, FS GS RS US, SPACE.  It is
    also the class [\s] of [re] on these characters. *)
Definition is_space (c : ascii) : bool :=
  let n := nat_of_ascii c in
  (Nat.leb 9 n && Nat.leb n 13) || (Nat.leb 28 n && Nat.leb n 32).

(** The class [\d] of [re], on ASCII. *)
Definition is_digit (c : ascii) : bool :=
  let n := nat_of_ascii c in Nat.leb 48 n && Nat.leb n 57.

(** The class [[A-Za-z]]. *)
Definition is_alpha (c : ascii) : bool :=
  let n := nat_of_ascii c in
  (Nat.leb 65 n && Nat.leb n 90) || (Nat.leb 97 n && Nat.leb n 122).

Fixpoint lstrip_by (p : ascii -> bool) (l : list ascii) : list ascii :=
  match l with
  | c :: r => if p c then lstrip_by p r else l
  | [] => []
  end.

Definition rstrip_by (p : ascii -> bool) (l : list ascii) : list ascii :=
  rev (lstrip_by p (rev l)).

Definition chars (s : string) : list ascii := list_ascii_of_string s.
Definition str (l : list ascii) : string := string_of_list_ascii l.

(** [s.strip()] *)
Definition strip (s : string) : string :=
  str (rstrip_by is_space (lstrip_by is_space (chars s))).

(** [s.lstrip(c)], [s.rstrip(c)] for a one-character argument. *)
Definition lstrip_char (c : ascii) (s : string) : string :=
  str (lstrip_by (Ascii.eqb c) (chars s)).
Definition rstrip_char (c : ascii) (s : string) : string :=
  str (rstrip_by (Ascii.eqb c) (chars s)).

(** [s.startswith(p)] *)
Definition startswith (s p : string) : bool := String.prefix p s.

(** [s.endswith(p)] *)
Definition endswith (s p : string) : bool :=
  String.prefix (str (rev (chars p))) (str (rev (chars s))).

(** [s.replace(a, b)] for one-character [a] and [b]. *)
Definition replace_char (a b : ascii) (s : string) : string :=
  str (map (fun c => if Ascii.eqb c a then b else c) (chars s)).

(** Truth value of a [str]: non-empty. *)
Definition truthy (s : string) : bool :=
  match s with EmptyString => false | _ => true end.

(** Truth value of an [Optional[str]]. *)
Definition truthy_opt (o : option string) : bool :=
  match o with Some s => truthy s | None => false end.

(** [str(n)] for an [int]. *)
Definition of_Z (n : Z) : string := NilZero.string_of_int (Z.to_int n).

(** [str(x)] / [f"{x}"] for an [Optional[str]]. *)
Definition of_opt (o : option string) : string :=
  match o with Some s => s | None => "None" end.

(** *** [re.sub] with a matcher that consumes at least one character.

    [m l] answers, when the pattern matches at the head of [l], the
    replacement text and what is left after the match.  The scan is the one
    of [re.sub]: leftmost match, replaced, and the scan goes on after it; a
    position with no match keeps its character. *)
Fixpoint sub_scan (fuel : nat)
    (m : list ascii -> option (list ascii * list ascii))
    (l : list ascii) : list ascii :=
  match fuel with
  | O => l
  | S f =>
      match l with
      | [] => []
      | c :: r =>
          match m l with
          | Some (repl, rest) => repl ++ sub_scan f m rest
          | None => c :: sub_scan f m r
          end
      end
  end.

Definition re_sub (m : list ascii -> option (list ascii * list ascii))
    (s : string) : string :=
  str (sub_scan (S (String.length s)) m (chars s)).

(** [\s*-\s*] at the head of [l], to be replaced by ["-"]. *)
Definition m_ws_hyphen_ws (l : list ascii) : option (list ascii * list ascii) :=
  match lstrip_by is_space l with
  | "-"%char :: r => Some (["-"%char], lstrip_by is_space r)
  | _ => None
  end.

(** [\s+] at the head of [l], to be replaced by [" "]. *)
Definition m_ws_plus (l : list ascii) : option (list ascii * list ascii) :=
  match l with
  | c :: r => if is_space c then Some ([" "%char], lstrip_by is_space r) else None
  | [] => None
  end.

(** [re.sub(r"^([A-Za-z])\s+(\d)", r"\1\2", s)]: the pattern is anchored at
    the start, so at most one replacement, at position 0. *)
Definition sub_letter_ws_digit (s : string) : string :=
  match chars s with
  | a :: (w :: _) as r =>
      if is_alpha a && is_space w then
        match lstrip_by is_space r with
        | d :: r' => if is_digit d then str (a :: d :: r') else s
        | [] => s
        end
      else s
  | _ => s
  end.

End PyStr.

(* ================================================================== *)
(** ** JSON values, as [json.loads] / [resp.json()] produce them *)
(* ================================================================== *)

(** A [dict] is an association list read by its first binding of a key. *)
#[warnings="-register-all"]
Inductive json : Type :=
| JNull
| JBool (b : bool)
| JInt (n : Z)
| JFloat (q : Q)
| JStr (s : string)
| JList (l : list json)
| JDict (d : list (string * json)).

Module Json.

(** Truth value of a Python object ([not x], [x or y], [if x]). *)
Definition truthy (v : json) : bool :=
  match v with
  | JNull => false
  | JBool b => b
  | JInt n => negb (Z.eqb n 0)
  | JFloat q => negb (Qeq_bool q 0)
  | JStr s => PyStr.truthy s
  | JList l => match l with [] => false | _ => true end
  | JDict d => match d with [] => false | _ => true end
  end.

Fixpoint lookup (d : list (string * json)) (k : string) : option json :=
  match d with
  | [] => None
  | (k', v) :: r => if String.eqb k' k then Some v else lookup r k
  end.

(** [d.get(k, default)] *)
Definition get_default (d : list (string * json)) (k : string) (dflt : json) : json :=
  match lookup d k with Some v => v | None => dflt end.

(** [d.get(k)] *)
Definition get (d : list (string * json)) (k : string) : json :=
  get_default d k JNull.

(** [x or y] *)
Definition or_else (x y : json) : json := if truthy x then x else y.

End Json.

(* ================================================================== *)
(** ** Exceptions and results *)
(* ================================================================== *)

(** The exception classes of the two services, the ones [httpx] raises out
    of [client.post], and Python's built-in ones.  All derive from
    [Exception]. *)
Inductive exn : Type :=
| LegifranceAuthError (msg : string)
| LegifranceApiError (msg : string)
| TooBroadError (msg : string)
| NotFoundError (msg : string)
| AmbiguousError (msg : string) (candidates : list json)
| TimeoutException (msg : string)      (* httpx.TimeoutException *)
| NetworkError (msg : string)          (* httpx.NetworkError *)
| OtherHTTPError (msg : string)        (* any other failure of client.post *)
| ValueError (msg : string)
| TypeError (msg : string)
| AttributeError (msg : string).

(** [str(e)] *)
Definition exn_str (e : exn) : string :=
  match e with
  | LegifranceAuthError m | LegifranceApiError m | TooBroadError m
  | NotFoundError m | AmbiguousError m _ | TimeoutException m
  | NetworkError m | OtherHTTPError m | ValueError m | TypeError m
  | AttributeError m => m
  end.

(** [f"{last_exc}"] for an [Optional[Exception]] *)
Definition opt_exn_str (o : option exn) : string :=
  match o with Some e => exn_str e | None => "None" end.

Inductive result (A : Type) : Type :=
| Ok (a : A)
| Raise (e : exn).
Arguments Ok {A} a.
Arguments Raise {A} e.

(** [AmbiguousError.__init__]: [self.candidates = candidates or []] *)
Definition mk_AmbiguousError (message : string) (candidates : option (list json)) : exn :=
  AmbiguousError message
    (match candidates with
     | Some (c :: r) => c :: r
     | _ => []
     end).

(* ================================================================== *)
(** ** app/utils/normalize.py *)
(* ================================================================== *)

Definition normalize_article_num (raw : option string) : option string :=
  if negb (PyStr.truthy_opt raw) then None
  else
    let s := PyStr.strip (PyStr.of_opt raw) in
    (* compactage des espaces inutiles autour des tirets *)
    let s := PyStr.re_sub PyStr.m_ws_hyphen_ws s in
    (* lettre + espaces + chiffre -> colle la lettre *)
    let s := PyStr.sub_letter_ws_digit s in
    (* reduit espaces multiples *)
    let s := PyStr.re_sub PyStr.m_ws_plus s in
    Some s.

Definition normalize_code_title (raw : option string) : option string :=
  if negb (PyStr.truthy_opt raw) then None
  else
    let s := PyStr.strip (PyStr.of_opt raw) in
    let s := PyStr.re_sub PyStr.m_ws_plus s in
    Some s.

(* ================================================================== *)
(** ** app/utils/dates.py *)
(* ================================================================== *)

Module Dates.

Definition dv (c : ascii) : Z := Z.of_nat (nat_of_ascii c - 48).

Definition in_range (lo hi : ascii) (c : ascii) : bool :=
  Nat.leb (nat_of_ascii lo) (nat_of_ascii c) && Nat.leb (nat_of_ascii c) (nat_of_ascii hi).

(** [%Y] is the group [\d\d\d\d]. *)
Definition parse_Y (l : list ascii) : option (Z * list ascii) :=
  match l with
  | a :: b :: c :: d :: r =>
      if PyStr.is_digit a && PyStr.is_digit b && PyStr.is_digit c && PyStr.is_digit d
      then Some (1000 * dv a + 100 * dv b + 10 * dv c + dv d, r)%Z
      else None
  | _ => None
  end.

(** [%m] is [1[0-2]|0[1-9]|[1-9]]: the ways it matches at the head of [l],
    in the order the regex engine tries them. *)
Definition cand_m (l : list ascii) : list (Z * list ascii) :=
  (match l with
   | "1"%char :: c :: r => if in_range "0" "2" c then [(10 + dv c, r)%Z] else []
   | _ => [] end) ++
  (match l with
   | "0"%char :: c :: r => if in_range "1" "9" c then [(dv c, r)] else []
   | _ => [] end) ++
  (match l with
   | c :: r => if in_range "1" "9" c then [(dv c, r)] else []
   | _ => [] end).

(** [%d] is [3[0-1]|[1-2]\d|0[1-9]|[1-9]| [1-9]]. *)
Definition cand_d (l : list ascii) : list (Z * list ascii) :=
  (match l with
   | "3"%char :: c :: r => if in_range "0" "1" c then [(30 + dv c, r)%Z] else []
   | _ => [] end) ++
  (match l with
   | a :: c :: r => if in_range "1" "2" a && PyStr.is_digit c then [(10 * dv a + dv c, r)%Z] else []
   | _ => [] end) ++
  (match l with
   | "0"%char :: c :: r => if in_range "1" "9" c then [(dv c, r)] else []
   | _ => [] end) ++
  (match l with
   | c :: r => if in_range "1" "9" c then [(dv c, r)] else []
   | _ => [] end) ++
  (match l with
   | " "%char :: c :: r => if in_range "1" "9" c then [(dv c, r)] else []
   | _ => [] end).

Fixpoint first_some {A B : Type} (f : A -> option B) (l : list A) : option B :=
  match l with
  | [] => None
  | a :: r => match f a with Some b => Some b | None => first_some f r end
  end.

(** The match of the regex compiled from ["%Y-%m-%d"] at the start of the
    text: year, month, day and the text left unconverted. *)
Definition match_ymd (l : list ascii) : option (Z * Z * Z * list ascii) :=
  match parse_Y l with
  | Some (y, "-"%char :: r1) =>
      first_some
        (fun mr : Z * list ascii =>
           match snd mr with
           | "-"%char :: r3 =>
               match cand_d r3 with
               | (d, r4) :: _ => Some (y, fst mr, d, r4)
               | [] => None
               end
           | _ => None
           end)
        (cand_m r1)
  | _ => None
  end.

Definition is_leap (y : Z) : bool :=
  (Z.eqb (y mod 4) 0 && (negb (Z.eqb (y mod 100) 0) || Z.eqb (y mod 400) 0))%Z.

Definition days_in_month (y m : Z) : Z :=
  (if Z.eqb m 2 then (if is_leap y then 29 else 28)
   else if Z.eqb m 4 || Z.eqb m 6 || Z.eqb m 9 || Z.eqb m 11 then 30 else 31)%Z.

Definition days_before_year (y : Z) : Z :=
  (let y1 := y - 1 in y1 * 365 + y1 / 4 - y1 / 100 + y1 / 400)%Z.

Definition days_before_month (y m : Z) : Z :=
  (nth (Z.to_nat m) [0; 0; 31; 59; 90; 120; 151; 181; 212; 243; 273; 304; 334] 0
   + (if Z.ltb 2 m && is_leap y then 1 else 0))%Z.

(** [date.toordinal()] *)
Definition ymd2ord (y m d : Z) : Z :=
  (days_before_year y + days_before_month y m + d)%Z.

(** [datetime.strptime(s, "%Y-%m-%d")]: the date, or [ValueError]. *)
Definition strptime_ymd (s : string) : result (Z * Z * Z) :=
  match match_ymd (PyStr.chars s) with
  | None => Raise (ValueError "time data does not match format '%Y-%m-%d'")
  | Some (y, m, d, rest) =>
      match rest with
      | _ :: _ => Raise (ValueError "unconverted data remains")
      | [] =>
          if (Z.leb 1 y && Z.leb d (days_in_month y m))%Z
          then Ok (y, m, d)
          else Raise (ValueError "date out of range")
      end
  end.

(** [int(dt.replace(tzinfo=timezone.utc).timestamp() * 1000)]: midnight UTC
    of the day, in milliseconds since 1970-01-01 (ordinal 719163).  The
    float product is exact on this range. *)
Definition utc_millis (ymd : Z * Z * Z) : Z :=
  (let '(y, m, d) := ymd in (ymd2ord y m d - 719163) * 86400 * 1000)%Z.

End Dates.

Definition iso_date_to_millis (date_str : option string) : result (option Z) :=
  if negb (PyStr.truthy_opt date_str) then Ok None
  else
    (* On accepte aussi 'YYYY/MM/DD' par tolerance legere *)
    let s := PyStr.replace_char "/" "-" (PyStr.strip (PyStr.of_opt date_str)) in
    match Dates.strptime_ymd s with
    | Raise e => Raise e
    | Ok dt => Ok (Some (Dates.utc_millis dt))
    end.

(* ================================================================== *)
(** ** The process state and its environment *)
(* ================================================================== *)

(** An [httpx.Response]: [resp.json()] raises when the body is not JSON. *)
Record Response : Type := mkResponse {
  status_code : Z;
  text : string;
  body_json : option json }.

(** What one [client.post] does: it returns a response or raises. *)
Inductive http_result : Type :=
| Responded (r : Response)
| Failed (e : exn).

(** What the process does to the outside, in order.  [EvCall] marks the
    entry of [_post_legifrance] (one per [lf_search] / [lf_get_article]). *)
Inductive event : Type :=
| EvCall (endpoint : string) (payload : json)
| EvTokenPost (url : string) (client_id client_secret : string)
| EvPost (url : string) (token : json) (payload : json)
| EvInvalidate
| EvSleep (seconds : Q).

(** app/config.py and the outside world: the [n]-th reading of the clock,
    the [n]-th answer of the token endpoint, the [n]-th answer of the API. *)
Record Env : Type := mkEnv {
  PISTE_CLIENT_ID : option string;
  PISTE_CLIENT_SECRET : option string;
  PISTE_TOKEN_URL : string;
  LEGIFRANCE_API_BASE : string;
  time_time : nat -> Q;
  token_endpoint : nat -> http_result;
  api_endpoint : nat -> http_result }.

(** The module globals of legifrance.py, the counters of the environment
    and the trace. *)
Record World : Type := mkWorld {
  _access_token : json;
  _token_expires_at : option Q;
  _client : bool;
  clock_reads : nat;
  token_posts : nat;
  api_posts : nat;
  trace : list event }.

(** The state at import time. *)
Definition initial_world : World :=
  mkWorld JNull None false 0 0 0 [].

Definition M (A : Type) : Type := World -> result A * World.

Definition ret {A} (a : A) : M A := fun w => (Ok a, w).
Definition raise {A} (e : exn) : M A := fun w => (Raise e, w).
Definition bind {A B} (c : M A) (k : A -> M B) : M B :=
  fun w => match c w with
           | (Ok a, w') => k a w'
           | (Raise e, w') => (Raise e, w')
           end.
Definition lift {A} (r : result A) : M A := fun w => (r, w).
Definition get_world : M World := fun w => (Ok w, w).

Notation "x <- c ;; k" := (bind c (fun x => k))
  (at level 61, c at next level, right associativity).
Notation "c ;;; k" := (bind c (fun _ => k))
  (at level 61, right associativity).

Definition emit (ev : event) : M unit :=
  fun w => (Ok tt,
            mkWorld (_access_token w) (_token_expires_at w) (_client w)
                    (clock_reads w) (token_posts w) (api_posts w)
                    (trace w ++ [ev])).

(** [asyncio.sleep(seconds)] *)
Definition sleep (seconds : Q) : M unit := emit (EvSleep seconds).

Definition Qltb (a b : Q) : bool := negb (Qle_bool b a).

(** [int(x)] *)
Module PyInt.

(** Decimal digits with single underscores between digits. *)
Fixpoint digits (acc : Z) (after_digit : bool) (l : list ascii) : option Z :=
  match l with
  | [] => if after_digit then Some acc else None
  | c :: r =>
      if PyStr.is_digit c then digits (10 * acc + Dates.dv c)%Z true r
      else if Ascii.eqb c "_" then (if after_digit then digits acc false r else None)
      else None
  end.

Definition of_str (s : string) : option Z :=
  match PyStr.chars (PyStr.strip s) with
  | "-"%char :: r => option_map Z.opp (digits 0 false r)
  | "+"%char :: r => digits 0 false r
  | l => digits 0 false l
  end.

(** Truncation towards zero. *)
Definition trunc (q : Q) : Z :=
  if Qle_bool 0 q then Qfloor q else Qceiling q.

Definition int (v : json) : result Z :=
  match v with
  | JInt n => Ok n
  | JBool b => Ok (if b then 1 else 0)%Z
  | JFloat q => Ok (trunc q)
  | JStr s =>
      match of_str s with
      | Some n => Ok n
      | None => Raise (ValueError "invalid literal for int() with base 10")
      end
  | JNull | JList _ | JDict _ =>
      Raise (TypeError "int() argument must be a string, a bytes-like object or a real number")
  end.

End PyInt.

(* ================================================================== *)
(** ** app/services/legifrance.py *)
(* ================================================================== *)

Section Services.

Variable E : Env.

(** [time.time()] *)
Definition now_ : M Q :=
  fun w => (Ok (time_time E (clock_reads w)),
            mkWorld (_access_token w) (_token_expires_at w) (_client w)
                    (S (clock_reads w)) (token_posts w) (api_posts w) (trace w)).

Definition _get_client : M unit :=
  fun w => (Ok tt,
            mkWorld (_access_token w) (_token_expires_at w) true
                    (clock_reads w) (token_posts w) (api_posts w) (trace w)).

(** [client.post(PISTE_TOKEN_URL, data=data)] *)
Definition post_token (url : string) (client_id client_secret : string) : M Response :=
  fun w =>
    let w' := mkWorld (_access_token w) (_token_expires_at w) (_client w)
                      (clock_reads w) (S (token_posts w)) (api_posts w)
                      (trace w ++ [EvTokenPost url client_id client_secret]) in
    match token_endpoint E (token_posts w) with
    | Responded r => (Ok r, w')
    | Failed e => (Raise e, w')
    end.

(** [client.post(url, headers=headers, json=json_payload)], the header
    [Authorization] being [f"Bearer {token}"]. *)
Definition post_api (url : string) (token : json) (json_payload : json) : M Response :=
  fun w =>
    let w' := mkWorld (_access_token w) (_token_expires_at w) (_client w)
                      (clock_reads w) (token_posts w) (S (api_posts w))
                      (trace w ++ [EvPost url token json_payload]) in
    match api_endpoint E (api_posts w) with
    | Responded r => (Ok r, w')
    | Failed e => (Raise e, w')
    end.

(** [resp.json()] *)
Definition resp_json (r : Response) : result json :=
  match body_json r with
  | Some v => Ok v
  | None => Raise (ValueError "JSONDecodeError")
  end.

(** [_access_token = token; _token_expires_at = expires_at] *)
Definition store_token (token : json) (expires_at : Q) : M unit :=
  fun w => (Ok tt,
            mkWorld token (Some expires_at) (_client w)
                    (clock_reads w) (token_posts w) (api_posts w) (trace w)).

Definition _fetch_new_token : M json :=
  if negb (PyStr.truthy_opt (PISTE_CLIENT_ID E))
     || negb (PyStr.truthy_opt (PISTE_CLIENT_SECRET E))
  then raise (LegifranceAuthError "PISTE_CLIENT_ID / PISTE_CLIENT_SECRET manquants.")
  else
    _get_client ;;;
    resp <- post_token (PISTE_TOKEN_URL E)
              (PyStr.of_opt (PISTE_CLIENT_ID E)) (PyStr.of_opt (PISTE_CLIENT_SECRET E)) ;;
    if negb (Z.eqb (status_code resp) 200) then
      raise (LegifranceAuthError
               ("Échec token PISTE (status=" ++ PyStr.of_Z (status_code resp)
                ++ ", body=" ++ text resp ++ ")"))
    else
      payload <- lift (resp_json resp) ;;
      match payload with
      | JDict d =>
          let token := Json.get d "access_token" in
          if negb (Json.truthy token) then
            raise (LegifranceAuthError "Réponse PISTE sans access_token.")
          else
            (* cast int pour eviter bugs si expires_in arrive en string *)
            expires_in <- lift (PyInt.int (Json.get_default d "expires_in" (JInt 3600))) ;;
            (* marge de securite 60s *)
            now <- now_ ;;
            store_token token (now + inject_Z expires_in - 60)%Q ;;;
            ret token
      | _ => raise (AttributeError "object has no attribute 'get'")
      end.

(** [_access_token and _token_expires_at and now < _token_expires_at] *)
Definition cache_valid (now : Q) (w : World) : bool :=
  Json.truthy (_access_token w)
  && match _token_expires_at w with
     | Some e => negb (Qeq_bool e 0) && Qltb now e
     | None => false
     end.

(** One caller at a time runs here, so [_token_lock] is free when
    [async with _token_lock] is reached and is released on the way out. *)
Definition get_token : M json :=
  now <- now_ ;;
  w <- get_world ;;
  if cache_valid now w then ret (_access_token w)
  else
    now2 <- now_ ;;
    w2 <- get_world ;;
    if cache_valid now2 w2 then ret (_access_token w2)
    else _fetch_new_token.

Definition _invalidate_token_cache : M unit :=
  fun w => (Ok tt,
            mkWorld JNull None (_client w)
                    (clock_reads w) (token_posts w) (api_posts w)
                    (trace w ++ [EvInvalidate])).

Definition _ensure_consult_base (base : option string) : result string :=
  let b := PyStr.rstrip_char "/" (match base with Some s => s | None => "" end) in
  if negb (PyStr.truthy b) then Raise (LegifranceApiError "LEGIFRANCE_API_BASE est vide.")
  else if negb (PyStr.endswith b "/consult") then Ok (b ++ "/consult")
  else Ok b.

(** The inner [_do_post] of [_post_legifrance]. *)
Definition _do_post (url : string) (json_payload : json) : M Response :=
  token <- get_token ;;
  post_api url token json_payload.

(** [resp.status_code in (429, 500, 502, 503, 504)] *)
Definition is_transient (status : Z) : bool :=
  existsb (Z.eqb status) [429; 500; 502; 503; 504]%Z.

(** [except (httpx.TimeoutException, httpx.NetworkError)] *)
Definition is_network_exc (e : exn) : bool :=
  match e with
  | TimeoutException _ | NetworkError _ => true
  | _ => false
  end.

(** [0.2 * (2 ** attempt)], in seconds *)
Definition backoff (attempt : nat) : Q :=
  ((2 # 10) * inject_Z (2 ^ Z.of_nat attempt))%Q.

(** The local variables of [_post_legifrance] that the loop assigns. *)
Record Locals : Type := mkLocals {
  last_exc : option exn;
  resp : option Response;
  refreshed_after_401 : bool }.

(** How one pass through the body of the [for] ends. *)
Inductive flow : Type := Break | Continue.

(** From [if resp.status_code in (...)] to [break]. *)
Definition after_401 (attempt : nat) (r : Response) (v : Locals) (w : World)
  : result flow * Locals * World :=
  if is_transient (status_code r) then
    (Ok Continue, v, snd (sleep (backoff attempt) w))
  else (Ok Break, v, w).

(** The body of the [try]; what it has assigned stays assigned when it
    raises. *)
Definition try_body (url : string) (json_payload : json) (attempt : nat)
    (v : Locals) (w : World) : result flow * Locals * World :=
  match _do_post url json_payload w with
  | (Raise e, w1) => (Raise e, v, w1)
  | (Ok r, w1) =>
      let v1 := mkLocals (last_exc v) (Some r) (refreshed_after_401 v) in
      (* Si 401, on force un refresh token une seule fois *)
      if Z.eqb (status_code r) 401 && negb (refreshed_after_401 v1) then
        let w2 := snd (_invalidate_token_cache w1) in
        let v2 := mkLocals (last_exc v1) (resp v1) true in
        match _do_post url json_payload w2 with
        | (Raise e, w3) => (Raise e, v2, w3)
        | (Ok r2, w3) =>
            after_401 attempt r2 (mkLocals (last_exc v2) (Some r2) true) w3
        end
      else after_401 attempt r v1 w1
  end.

(** The [try] with its [except] clause. *)
Definition attempt_once (url : string) (json_payload : json) (attempt : nat)
    (v : Locals) (w : World) : result flow * Locals * World :=
  match try_body url json_payload attempt v w with
  | (Raise e, v', w') =>
      if is_network_exc e then
        (Ok Continue,
         mkLocals (Some e) (resp v') (refreshed_after_401 v'),
         snd (sleep (backoff attempt) w'))
      else (Raise e, v', w')
  | other => other
  end.

(** [for attempt in attempts: ... else: raise LegifranceApiError(...)] *)
Fixpoint for_attempts (url : string) (json_payload : json) (attempts : list nat)
    (v : Locals) (w : World) : result Locals * World :=
  match attempts with
  | [] =>
      (Raise (LegifranceApiError
                ("Échec réseau Légifrance après retries: " ++ opt_exn_str (last_exc v))), w)
  | attempt :: rest =>
      match attempt_once url json_payload attempt v w with
      | (Raise e, _, w') => (Raise e, w')
      | (Ok Break, v', w') => (Ok v', w')
      | (Ok Continue, v', w') => for_attempts url json_payload rest v' w'
      end
  end.

Definition _post_legifrance (endpoint : string) (json_payload : json) : M json :=
  emit (EvCall endpoint json_payload) ;;;
  base <- lift (_ensure_consult_base (Some (LEGIFRANCE_API_BASE E))) ;;
  let url := base ++ "/" ++ PyStr.lstrip_char "/" endpoint in
  _get_client ;;;
  v <- for_attempts url json_payload (seq 0 3) (mkLocals None None false) ;;
  match resp v with
  | None => raise (LegifranceApiError "Aucune réponse reçue de Légifrance.")
  | Some r =>
      if Z.leb 400 (status_code r) then
        raise (LegifranceApiError
                 ("Appel Légifrance " ++ endpoint ++ " en erreur (status="
                  ++ PyStr.of_Z (status_code r) ++ ", body=" ++ text r ++ ")"))
      else lift (resp_json r)
  end.

Definition lf_search (payload : json) : M json :=
  _post_legifrance "search" payload.

Definition lf_get_article (legiarti_id : string) : M json :=
  _post_legifrance "getArticle" (JDict [("id", JStr legiarti_id)]).

End Services.

(* ================================================================== *)
(** ** app/services/resolver.py *)
(* ================================================================== *)

Record ResolvedArticle : Type := mkResolvedArticle {
  source : string;
  legiarti_id : string;
  title : json;
  article_num : option string;
  date_version : option string;
  raw : json }.

(** One entry of ["champs"]. *)
Definition champ (typeChamp valeur : string) : json :=
  JDict [("typeChamp", JStr typeChamp);
         ("criteres", JList [JDict [("typeRecherche", JStr "EXACTE");
                                    ("valeur", JStr valeur);
                                    ("operateur", JStr "ET")]]);
         ("operateur", JStr "ET")].

Definition filtre_date_version (millis : Z) : json :=
  JDict [("facette", JStr "DATE_VERSION"); ("singleDate", JInt millis)].

Definition filtre_vigueur : json :=
  JDict [("facette", JStr "TEXT_LEGAL_STATUS"); ("valeur", JStr "VIGUEUR")].

(** The filters of the primary search: [if millis: filtres.append(...)],
    then the legal-status filter. *)
Definition filtres_of (millis : option Z) : list json :=
  (match millis with
   | Some m => if negb (Z.eqb m 0) then [filtre_date_version m] else []
   | None => []
   end) ++ [filtre_vigueur].

Definition search_body (champs filtres : list json) (pageSize : Z) : json :=
  JDict [("fond", JStr "CODE_ETAT");
         ("recherche",
          JDict [("champs", JList champs);
                 ("filtres", JList filtres);
                 ("pageNumber", JInt 1);
                 ("pageSize", JInt pageSize);
                 ("operateur", JStr "ET");
                 ("sort", JStr "PERTINENCE");
                 ("typePagination", JStr "DEFAUT")])].

Definition _search_payload_code_article
    (code_title article_num : string) (date_version : option string) : result json :=
  match (if PyStr.truthy_opt date_version then iso_date_to_millis date_version
         else Ok None) with
  | Raise e => Raise e
  | Ok millis =>
      Ok (search_body
            [champ "TEXT_NOM_CODE" code_title; champ "NUM_ARTICLE" article_num]
            (filtres_of millis) 10)
  end.

Definition _fallback_payload_code_only (code_title : string) : json :=
  search_body [champ "TEXT_NOM_CODE" code_title] [filtre_vigueur] 5.

(** [isinstance(_id, str) and _id.startswith("LEGIARTI")] *)
Definition is_legiarti (v : json) : option string :=
  match v with
  | JStr s => if PyStr.startswith s "LEGIARTI" then Some s else None
  | _ => None
  end.

(** [for a in arts: ...], appending to [ids]. *)
Fixpoint scan_articles (arts : list json) (ids : list string) : list string :=
  match arts with
  | [] => ids
  | a :: rest =>
      match a with
      | JDict d =>
          match is_legiarti (Json.get d "id") with
          | Some _id => scan_articles rest (ids ++ [_id])
          | None => scan_articles rest ids
          end
      | _ => scan_articles rest ids
      end
  end.

(** [for r in results: ...], appending to [ids]. *)
Fixpoint scan_results (results : list json) (ids : list string) : list string :=
  match results with
  | [] => ids
  | r :: rest =>
      match r with
      | JDict d =>
          let ids1 :=
            match Json.or_else (Json.get d "articles") (JList []) with
            | JList arts => scan_articles arts ids
            | _ => ids
            end in
          let ids2 :=
            match is_legiarti (Json.get d "id") with
            | Some _id2 => (ids1 ++ [_id2])%list
            | None => ids1
            end in
          scan_results rest ids2
      | _ => scan_results rest ids
      end
  end.

(** [x in seen] for a set of strings. *)
Definition mem (x : string) (seen : list string) : bool :=
  existsb (String.eqb x) seen.

(** [for x in ids: if x not in seen: seen.add(x); uniq.append(x)] *)
Fixpoint dedup_loop (ids seen uniq : list string) : list string :=
  match ids with
  | [] => uniq
  | x :: rest =>
      if negb (mem x seen) then dedup_loop rest (x :: seen) (uniq ++ [x])
      else dedup_loop rest seen uniq
  end.

Definition _extract_legiarti_id_from_search (search_resp : json) : result (list string) :=
  match search_resp with
  | JDict d =>
      match Json.or_else (Json.get d "results") (JList []) with
      | JList results => Ok (dedup_loop (scan_results results []) [] [])
      | _ => Ok []
      end
  | _ => Raise (AttributeError "object has no attribute 'get'")
  end.

Definition _extract_title_from_article_resp (article_resp : json) : json :=
  match article_resp with
  | JDict d =>
      let art := match Json.get d "article" with
                 | JDict a => a
                 | _ => d
                 end in
      let titles :=
        Json.or_else (Json.get art "textTitles")
          (Json.or_else (Json.get art "titles") (JList [])) in
      match titles with
      | JList (JDict first :: _) =>
          Json.or_else (Json.get first "title") (Json.get first "titreLong")
      | _ => JNull
      end
  | _ => JNull
  end.

Section Resolver.

Variable E : Env.

Definition msg_not_found (code_title article_num : string) (date_hint : option string) : string :=
  "Aucun article trouvé pour '" ++ code_title ++ "' article '" ++ article_num
  ++ "' (date=" ++ PyStr.of_opt date_hint ++ ").".

Definition msg_ambiguous (n : nat) : string :=
  "Plusieurs articles possibles (" ++ PyStr.of_Z (Z.of_nat n)
  ++ "). Précise le code exact ou l'intitulé.".

(** [try: lf_search(payload)  except Exception: lf_search(fallback)] *)
Definition search_with_fallback (payload : json) (code_title : string) : M json :=
  fun w =>
    match lf_search E payload w with
    | (Ok search_resp, w1) => (Ok search_resp, w1)
    | (Raise _, w1) =>
        (* Fallback : elargit la recherche *)
        lf_search E (_fallback_payload_code_only code_title) w1
    end.

(** From [ids = ...] to the end of [resolve_code_article]. *)
Definition resolve_from_search (code_title article_num : string)
    (date_hint : option string) (search_resp : json) : M ResolvedArticle :=
  ids <- lift (_extract_legiarti_id_from_search search_resp) ;;
  match ids with
  | [] => raise (NotFoundError (msg_not_found code_title article_num date_hint))
  | first :: _ =>
      (* Si plusieurs IDs, on garde le 1er mais on signale ambiguite si trop *)
      if Nat.ltb 3 (List.length ids) then
        raise (mk_AmbiguousError (msg_ambiguous (List.length ids))
                 (Some (map (fun _id => JDict [("id", JStr _id)]) (firstn 10 ids))))
      else
        article_resp <- lf_get_article E first ;;
        let title := _extract_title_from_article_resp article_resp in
        ret (mkResolvedArticle "CODE" first title (Some article_num) date_hint article_resp)
  end.

Definition resolve_code_article (code_hint article_hint : string)
    (date_hint : option string) : M ResolvedArticle :=
  let code_title := normalize_code_title (Some code_hint) in
  let article_num := normalize_article_num (Some article_hint) in
  if negb (PyStr.truthy_opt code_title) || negb (PyStr.truthy_opt article_num) then
    raise (TooBroadError "code_hint ou article_hint manquant")
  else
    (* both are strings from here on *)
    let code_title := PyStr.of_opt code_title in
    let article_num := PyStr.of_opt article_num in
    payload <- lift (_search_payload_code_article code_title article_num date_hint) ;;
    search_resp <- search_with_fallback payload code_title ;;
    resolve_from_search code_title article_num date_hint search_resp.

End Resolver.

(* ================================================================== *)
(** ** Definitions used by the statements *)
(* ================================================================== *)

(** *** Extraction, as the specification words it *)

(** The identifier one entry of an ["articles"] sub-list carries. *)
Definition ids_of_article (a : json) : list string :=
  match a with
  | JDict d => match is_legiarti (Json.get d "id") with Some s => [s] | None => [] end
  | _ => []
  end.

(** The identifiers one result carries: those of its ["articles"]
    sub-list, then the one of its direct ["id"] field. *)
Definition ids_of_result (r : json) : list string :=
  match r with
  | JDict d =>
      (match Json.or_else (Json.get d "articles") (JList []) with
       | JList arts => flat_map ids_of_article arts
       | _ => []
       end)
      ++ (match is_legiarti (Json.get d "id") with Some s => [s] | None => [] end)
  | _ => []
  end%list.

Definition collected (results : list json) : list string :=
  flat_map ids_of_result results.

(** Each element once, at the place of its first occurrence. *)
Fixpoint first_occurrences (l : list string) : list string :=
  match l with
  | [] => []
  | x :: r => x :: filter (fun y => negb (String.eqb x y)) (first_occurrences r)
  end.

(** The result list of a search response; a missing or non-list field
    counts as empty. *)
Definition results_of (d : list (string * json)) : list json :=
  match Json.or_else (Json.get d "results") (JList []) with
  | JList results => results
  | _ => []
  end.

(** *** Traces *)

(** [w'] is [w] after the events [evs]. *)
Definition extends (w w' : World) (evs : list event) : Prop :=
  trace w' = (trace w ++ evs)%list.

Definition is_call (ev : event) : bool :=
  match ev with EvCall _ _ => true | _ => false end.
Definition is_token_post (ev : event) : bool :=
  match ev with EvTokenPost _ _ _ => true | _ => false end.
Definition is_post (ev : event) : bool :=
  match ev with EvPost _ _ _ => true | _ => false end.
Definition is_invalidate (ev : event) : bool :=
  match ev with EvInvalidate => true | _ => false end.

Definition count (p : event -> bool) (evs : list event) : nat :=
  List.length (filter p evs).

(** The delays slept, in order. *)
Definition sleeps (evs : list event) : list Q :=
  flat_map (fun ev => match ev with EvSleep q => [q] | _ => [] end) evs.

(** The searches started, in order, with their payloads. *)
Definition searches (evs : list event) : list json :=
  flat_map (fun ev => match ev with
                      | EvCall endpoint payload =>
                          if String.eqb endpoint "search" then [payload] else []
                      | _ => []
                      end) evs.

Definition b2n (b : bool) : nat := if b then 1 else 0.

(** *** The token and its margin *)



(** [w] after [n] readings of the clock. *)
Definition tick (n : nat) (w : World) : World :=
  mkWorld (_access_token w) (_token_expires_at w) (_client w)
          (n + clock_reads w) (token_posts w) (api_posts w) (trace w).

(** [w] after [client.post] to the token endpoint (the shared client
    exists from then on); the cache is untouched. *)
Definition after_token_post (E : Env) (w : World) : World :=
  mkWorld (_access_token w) (_token_expires_at w) true
          (clock_reads w) (S (token_posts w)) (api_posts w)
          (trace w ++ [EvTokenPost (PISTE_TOKEN_URL E)
                         (PyStr.of_opt (PISTE_CLIENT_ID E))
                         (PyStr.of_opt (PISTE_CLIENT_SECRET E))]).

(** *** Sample environments *)

Module Sample.

Definition token_response (token : string) (expires_in : json) : http_result :=
  Responded (mkResponse 200 "{...}"
               (Some (JDict [("access_token", JStr token); ("expires_in", expires_in)]))).

Definition status (s : Z) (body : string) : http_result :=
  Responded (mkResponse s body None).

Definition ok (v : json) : http_result :=
  Responded (mkResponse 200 "{...}" (Some v)).

(** The clock advances by one second per reading; the [n]-th answer of an
    endpoint is the [n]-th entry of its script, and the last answer of the
    script is repeated for ever. *)
Definition env (client_id : option string)
    (token_script : list http_result) (api_script : list http_result) : Env :=
  mkEnv client_id (Some "secret")
        "https://oauth.piste.gouv.fr/api/oauth/token"
        "https://api.piste.gouv.fr/dila/legifrance/lf-engine-app"
        (fun n => inject_Z (1000 + Z.of_nat n))
        (fun n => nth n token_script (last token_script (Failed (NetworkError "no route"))))
        (fun n => nth n api_script (last api_script (Failed (NetworkError "no route")))).

Definition search_one : json :=
  JDict [("results",
          JList [JDict [("articles", JList [JDict [("id", JStr "LEGIARTI000006900783")]]);
                        ("id", JStr "LEGITEXT000006072050")]])].

Definition search_dup : list (string * json) :=
  [("results",
    JList [JDict [("articles", JList [JDict [("id", JStr "LEGIARTI2")];
                                      JDict [("id", JStr "LEGIARTI1")];
                                      JDict [("id", JStr "KALIARTI9")]]);
                  ("id", JStr "LEGIARTI2")];
           JStr "noise";
           JDict [("id", JStr "LEGIARTI1")];
           JDict [("articles", JStr "LEGIARTI7"); ("id", JStr "LEGIARTI3")]])].

Definition search_many (n : nat) : json :=
  JDict [("results",
          JList (map (fun k => JDict [("id", JStr ("LEGIARTI" ++ PyStr.of_Z (Z.of_nat k)))])
                     (seq 0 n)))].

Definition article : json :=
  JDict [("article",
          JDict [("textTitles", JList [JDict [("titreLong", JStr "Code du travail")]])])].

End Sample.

(** Events of the token endpoint and of the API only. *)
Definition requests_only (evs : list event) : Prop :=
  Forall (fun ev => is_token_post ev = true \/ is_post ev = true) evs.

(** What one pass of the loop does to the trace and to the flag. *)
Definition pass_spec (attempt : nat) (v : Locals) (w : World)
    (out : result flow * Locals * World) : Prop :=
  let '(r, v', w') := out in
  exists evs,
    extends w w' evs
    /\ count is_call evs = 0
    /\ searches evs = []
    /\ b2n (refreshed_after_401 v) + count is_invalidate evs = b2n (refreshed_after_401 v')
    /\ sleeps evs = match r with Ok Continue => [backoff attempt] | _ => [] end
    /\ count is_post evs + b2n (refreshed_after_401 v) <= 1 + b2n (refreshed_after_401 v').

(** [w] at the entry of [_post_legifrance]: the call is on the trace. *)
Definition called (endpoint : string) (payload : json) (w : World) : World :=
  mkWorld (_access_token w) (_token_expires_at w) (_client w)
          (clock_reads w) (token_posts w) (api_posts w)
          (trace w ++ [EvCall endpoint payload]).

(** [w] when [_post_legifrance] enters its loop: the call is on the trace
    and the shared client exists. *)
Definition entered (endpoint : string) (payload : json) (w : World) : World :=
  mkWorld (_access_token w) (_token_expires_at w) true
          (clock_reads w) (token_posts w) (api_posts w)
          (trace w ++ [EvCall endpoint payload]).

(** *** Attempts of the transport *)

(** An attempt whose request ends on a retried status or on a network
    exception. *)
Definition transient_outcome (o : result Response * World) : bool :=
  match fst o with
  | Ok r => is_transient (status_code r)
  | Raise e => is_network_exc e
  end.

(** [last_exc] after an attempt that ended as [o]. *)
Definition exc_after (o : result Response * World) (prev : option exn) : option exn :=
  match fst o with
  | Raise e => Some e
  | Ok _ => prev
  end.

(** [resp] after an attempt that ended as [o]. *)
Definition resp_after (o : result Response * World) (prev : option Response)
  : option Response :=
  match fst o with
  | Ok r => Some r
  | Raise _ => prev
  end.

(** *** Matchers of [re.sub] *)

(** A match is never empty: what is left after it is shorter. *)
Definition consuming (m : list ascii -> option (list ascii * list ascii)) : Prop :=
  forall l repl rest, m l = Some (repl, rest) -> List.length rest < List.length l.

(** *** Requests of one transport call *)

(** Every request to the API among [evs] goes to [url] with [payload] and
    carries a token that is not empty. *)
Definition posts_are (url : string) (payload : json) (evs : list event) : Prop :=
  Forall (fun ev => match ev with
                    | EvPost u token p => u = url /\ p = payload /\ Json.truthy token = true
                    | _ => True
                    end) evs.

(** The URL [_post_legifrance] builds for [endpoint] from a base. *)
Definition url_of (base endpoint : string) : string :=
  base ++ "/" ++ PyStr.lstrip_char "/" endpoint.

(** *** Hints *)

(** A hint with no character other than whitespace (the empty hint is one). *)
Definition blank (s : string) : bool := forallb PyStr.is_space (PyStr.chars s).

(** *** What [client.post] raises *)

(** The exceptions of [httpx]. *)
Definition is_httpx_exc (e : exn) : bool :=
  match e with
  | TimeoutException _ | NetworkError _ | OtherHTTPError _ => true
  | _ => false
  end.

(** The exceptions [resolve_code_article] raises by itself. *)
Definition is_resolution_exc (e : exn) : bool :=
  match e with
  | TooBroadError _ | NotFoundError _ | AmbiguousError _ _ => true
  | _ => false
  end.

(** In this environment a [client.post] that raises, raises an exception
    of [httpx]. *)
Definition httpx_only (E : Env) : Prop :=
  forall n e,
    token_endpoint E n = Failed e \/ api_endpoint E n = Failed e ->
    is_httpx_exc e = true.

(* ================================================================== *)
(** ** app/routes/resolve.py *)
(* ================================================================== *)

(** An [Optional[str]] in a JSON body. *)
Definition json_of_opt (o : option string) : json :=
  match o with Some s => JStr s | None => JNull end.

Section Routes.

Variable E : Env.

(** The body of an error response. *)
Definition error_content (error message : string) (more : list (string * json)) : json :=
  JDict ([("ok", JBool false); ("error", JStr error); ("message", JStr message)] ++ more).

(** [GET /resolve/code-article]: the status and the JSON body of the
    response; a [dict] that the handler returns is sent with status 200, an
    exception that the handler does not catch leaves it. *)
Definition code_article (code article : string) (date : option string) : M (Z * json) :=
  fun w =>
    match resolve_code_article E code article date w with
    | (Ok resolved, w') =>
        (Ok (200%Z,
             JDict [("ok", JBool true);
                    ("legiarti_id", JStr (legiarti_id resolved));
                    ("title", title resolved);
                    ("article", json_of_opt (article_num resolved));
                    ("date_version", json_of_opt (date_version resolved));
                    ("raw", raw resolved)]), w')
    | (Raise (TooBroadError m), w') =>
        (Ok (400%Z, error_content "TOO_BROAD" m []), w')
    | (Raise (NotFoundError m), w') =>
        (Ok (404%Z, error_content "NOT_FOUND" m []), w')
    | (Raise (AmbiguousError m candidates), w') =>
        (Ok (409%Z, error_content "AMBIGUOUS" m [("candidates", JList candidates)]), w')
    | (Raise e, w') => (Raise e, w')
    end.

End Routes.

(* ================================================================== *)
(** ** app/services/resolver.py: the dispatcher *)
(* ================================================================== *)

Module Dispatch.

(** The payload of the dispatcher after JSON parsing, field by field as
    [payload.get] reads it ([None] for a missing key).  The three hints are
    [null] or strings, the types [resolve_code_article] declares for them. *)
Record MakePayload : Type := mkMakePayload {
  intent : json;
  route_target : json;
  code_hint : option string;
  article_hint : option string;
  date_hint : option string;
  missing_info : json }.

(** [v == s] for a string literal [s]. *)
Definition is_str (v : json) (s : string) : bool :=
  match v with
  | JStr t => String.eqb t s
  | _ => false
  end.

Section Dispatcher.

Variable E : Env.

Definition dispatch_from_make_json (payload : MakePayload) : M json :=
  if is_str (intent payload) "NOT_LEGAL" then
    ret (JDict [("ok", JBool false); ("error", JStr "NOT_LEGAL");
                ("message", JStr "Question non juridique.")])
  else if is_str (intent payload) "TOO_VAGUE" then
    ret (JDict [("ok", JBool false); ("error", JStr "TOO_VAGUE");
                ("message", JStr "Question trop vague. Précise les éléments manquants.");
                ("missing_info", Json.or_else (missing_info payload) (JList []))])
  else if negb (is_str (route_target payload) "RESOLVE") then
    ret (JDict [("ok", JBool false); ("error", JStr "WRONG_ROUTE");
                ("message",
                 JStr "Ce dispatcher RESOLVE a reçu une requête non RESOLVE.")])
  else if PyStr.truthy_opt (code_hint payload)
          && PyStr.truthy_opt (article_hint payload) then
    resolved <- resolve_code_article E (PyStr.of_opt (code_hint payload))
                  (PyStr.of_opt (article_hint payload)) (date_hint payload) ;;
    ret (JDict [("ok", JBool true);
                ("kind", JStr "article");
                ("source", JStr (source resolved));
                ("legiarti_id", JStr (legiarti_id resolved));
                ("title", title resolved);
                ("article", json_of_opt (article_num resolved));
                ("date_version", json_of_opt (date_version resolved));
                ("raw", raw resolved)])
  else
    (* on ajoutera ici les autres scenarios *)
    ret (JDict [("ok", JBool false); ("error", JStr "NOT_IMPLEMENTED");
                ("message",
                 JStr "RESOLVE non implémenté pour ce type de demande (besoin code+article ou autre scénario).")]).

End Dispatcher.

End Dispatch.

(* ================================================================== *)
(** ** app/config.py *)
(* ================================================================== *)

(** [", ".join(names)] *)
Fixpoint join_comma (names : list string) : string :=
  match names with
  | [] => ""
  | [n] => n
  | n :: rest => n ++ ", " ++ join_comma rest
  end.

(** The variables [check_config] finds missing, in the order it looks. *)
Definition missing_config (E : Env) : list string :=
  ((if negb (PyStr.truthy_opt (PISTE_CLIENT_ID E)) then ["PISTE_CLIENT_ID"] else [])
   ++ (if negb (PyStr.truthy_opt (PISTE_CLIENT_SECRET E)) then ["PISTE_CLIENT_SECRET"]
       else []))%list.

(** [check_config()]: [inl tt] when it returns, [inr message] when it
    raises [RuntimeError(message)]. *)
Definition check_config (E : Env) : unit + string :=
  match missing_config E with
  | [] => inl tt
  | missing => inr ("Configuration manquante dans .env : " ++ join_comma missing)
  end.

(** *** Matchers of [re.sub], continued *)

(** What a match is replaced by is never empty. *)
Definition replacing (m : list ascii -> option (list ascii * list ascii)) : Prop :=
  forall l repl rest, m l = Some (repl, rest) -> repl <> [].

(** *** Exceptions by origin *)

(** The exceptions the services and the resolver raise by themselves, other
    than those of the resolution: the two classes of [legifrance.py] and
    the built-in ones of a conversion or an attribute access that fails. *)
Definition is_internal_exc (e : exn) : bool :=
  match e with
  | LegifranceAuthError _ | LegifranceApiError _
  | ValueError _ | TypeError _ | AttributeError _ => true
  | _ => false
  end.

(** [e] is what some [client.post] of the environment raises. *)
Definition raised_by_post (E : Env) (e : exn) : Prop :=
  exists n, token_endpoint E n = Failed e \/ api_endpoint E n = Failed e.

(** An exception is internal or comes out of [client.post]. *)
Definition origin (E : Env) (e : exn) : Prop :=
  is_internal_exc e = true \/ raised_by_post E e.

(** *** Candidates of an ambiguous resolution *)

(** [[{"id": _id} for _id in ids]] *)
Definition candidates_of (ids : list string) : list json :=
  map (fun _id => JDict [("id", JStr _id)]) ids.

(** A list of candidates as [AmbiguousError] carries it: 4 to 10 entries
    [{"id": ...}] whose identifiers are distinct and start with
    [LEGIARTI]. *)
Definition well_formed_candidates (candidates : list json) : Prop :=
  exists ids,
    candidates = candidates_of ids
    /\ 4 <= List.length ids <= 10
    /\ NoDup ids
    /\ Forall (fun x => PyStr.startswith x "LEGIARTI" = true) ids.

(** The postcondition of [resolve_code_article] from [w] to [w']. *)
Definition resolve_post (E : Env) (code_hint article_hint : string)
    (date_hint : option string) (w : World) (r : result ResolvedArticle) (w' : World)
  : Prop :=
  match r with
  | Ok resolved =>
      blank code_hint = false /\ blank article_hint = false
      /\ source resolved = "CODE"
      /\ PyStr.startswith (legiarti_id resolved) "LEGIARTI" = true
      /\ article_num resolved = normalize_article_num (Some article_hint)
      /\ date_version resolved = date_hint
      /\ title resolved = _extract_title_from_article_resp (raw resolved)
      /\ 2 + api_posts w <= api_posts w'
      /\ exists answer,
           api_endpoint E (pred (api_posts w')) = Responded answer
           /\ body_json answer = Some (raw resolved)
  | Raise (TooBroadError m) =>
      w' = w /\ blank code_hint || blank article_hint = true
  | Raise (NotFoundError m) =>
      blank code_hint = false /\ blank article_hint = false
      /\ 1 + api_posts w <= api_posts w'
  | Raise (AmbiguousError m candidates) =>
      blank code_hint = false /\ blank article_hint = false
      /\ well_formed_candidates candidates
      /\ 1 + api_posts w <= api_posts w'
  | Raise e =>
      blank code_hint = false /\ blank article_hint = false
      /\ is_network_exc e = false
  end.

(** *** Scripts of the sample environment *)

(** A script whose failures are exceptions of [httpx]. *)
Definition httpx_script (script : list http_result) : bool :=
  forallb (fun a => match a with
                    | Failed e => is_httpx_exc e
                    | Responded _ => true
                    end) script.

(** *** The dispatcher, case by case *)

(** The payload reaches [resolve_code_article]. *)
Definition delegates (payload : Dispatch.MakePayload) : bool :=
  negb (Dispatch.is_str (Dispatch.intent payload) "NOT_LEGAL")
  && negb (Dispatch.is_str (Dispatch.intent payload) "TOO_VAGUE")
  && Dispatch.is_str (Dispatch.route_target payload) "RESOLVE"
  && PyStr.truthy_opt (Dispatch.code_hint payload)
  && PyStr.truthy_opt (Dispatch.article_hint payload).

(** The error codes of the dispatcher. *)
Definition refusals : list string :=
  ["NOT_LEGAL"; "TOO_VAGUE"; "WRONG_ROUTE"; "NOT_IMPLEMENTED"].

(** *** Missing credentials *)

(** What [_fetch_new_token] raises when a credential is missing. *)
Definition missing_credentials : exn :=
  LegifranceAuthError "PISTE_CLIENT_ID / PISTE_CLIENT_SECRET manquants.".

(** *** The base URL *)

(** A base made of slashes only (the empty base is one). *)
Definition only_slashes (base : string) : bool :=
  forallb (Ascii.eqb "/") (PyStr.chars base).

(** *** Calendar dates *)

(** A date of the calendar [datetime] works on. *)
Definition valid_date (y m d : Z) : Prop :=
  (1 <= y <= 9999 /\ 1 <= m <= 12 /\ 1 <= d <= Dates.days_in_month y m)%Z.

(** The order of the calendar. *)
Definition earlier (a b : Z * Z * Z) : Prop :=
  let '(y, m, d) := a in
  let '(y', m', d') := b in
  (y < y' \/ (y = y' /\ (m < m' \/ (m = m' /\ d < d'))))%Z.

(* ================================================================== *)
(** ** Identifier extraction *)
(* ================================================================== *)

Section Extraction.

Lemma scan_articles_spec (arts : list json) :
  forall ids, scan_articles arts ids = (ids ++ flat_map ids_of_article arts)%list.
Proof.
  induction arts as [|a arts IH]; intros ids; simpl.
  - now rewrite app_nil_r.
  - destruct a; cbn [ids_of_article]; try apply IH.
    destruct (is_legiarti (Json.get d "id")); rewrite IH; auto.
    now rewrite <- app_assoc.
Qed.

Lemma scan_results_spec (results : list json) :
  forall ids, scan_results results ids = (ids ++ collected results)%list.
Proof.
  induction results as [|r results IH]; intros ids; simpl.
  - now rewrite app_nil_r.
  - unfold collected in *.
    destruct r; cbn [scan_results flat_map ids_of_result]; try apply IH.
    rewrite IH.
    destruct (Json.or_else (Json.get d "articles") (JList [])) as [| | | | |arts|];
      destruct (is_legiarti (Json.get d "id"));
      rewrite ?scan_articles_spec, ?app_nil_r, <- ?app_assoc; reflexivity.
Qed.

Lemma mem_In (x : string) (l : list string) : mem x l = true <-> In x l.
Proof.
  unfold mem. rewrite existsb_exists. split.
  - intros (y & Hy & E). apply String.eqb_eq in E. now subst.
  - intros H. exists x. split; auto. apply String.eqb_refl.
Qed.

Lemma filter_filter_comm {A} (p q : A -> bool) (l : list A) :
  filter p (filter q l) = filter q (filter p l).
Proof.
  induction l as [|a l IH]; simpl; auto.
  destruct (q a) eqn:Q, (p a) eqn:P; simpl; rewrite ?Q, ?P, IH; auto.
Qed.

Lemma filter_absorb (p : string -> bool) (a : string) (l : list string) :
  p a = false ->
  filter p (filter (fun y => negb (String.eqb a y)) l) = filter p l.
Proof.
  intros Pa. induction l as [|b l IH]; simpl; auto.
  destruct (String.eqb a b) eqn:Eab; simpl.
  - apply String.eqb_eq in Eab. subst b. now rewrite Pa.
  - destruct (p b); now rewrite IH.
Qed.

Lemma first_occurrences_filter (p : string -> bool) (l : list string) :
  first_occurrences (filter p l) = filter p (first_occurrences l).
Proof.
  induction l as [|a l IH]; simpl; auto.
  destruct (p a) eqn:Pa; simpl.
  - rewrite IH. f_equal. apply filter_filter_comm.
  - rewrite IH. symmetry. now apply filter_absorb.
Qed.

Lemma dedup_loop_spec (ids : list string) :
  forall seen uniq,
    dedup_loop ids seen uniq
    = (uniq ++ first_occurrences (filter (fun x => negb (mem x seen)) ids))%list.
Proof.
  induction ids as [|x ids IH]; intros seen uniq; simpl.
  - now rewrite app_nil_r.
  - destruct (mem x seen) eqn:Hm; simpl.
    + apply IH.
    + rewrite IH, <- app_assoc. simpl. do 2 f_equal.
      rewrite <- first_occurrences_filter, filter_filter_comm. f_equal.
      clear. induction ids as [|y ids IH]; simpl; auto.
      rewrite String.eqb_sym.
      destruct (String.eqb x y); simpl; destruct (mem y seen); simpl; now rewrite ?IH.
Qed.

Lemma filter_all {A} (l : list A) : filter (fun _ => true) l = l.
Proof. induction l; simpl; congruence. Qed.

Lemma dedup_loop_first_occurrences (ids : list string) :
  dedup_loop ids [] [] = first_occurrences ids.
Proof.
  rewrite dedup_loop_spec. simpl. now rewrite filter_all.
Qed.

Lemma first_occurrences_In (l : list string) (x : string) :
  In x (first_occurrences l) <-> In x l.
Proof.
  induction l as [|a l IH]; simpl; [tauto|].
  rewrite filter_In, IH. split.
  - intros [H | [H _]]; auto.
  - intros [H | H]; auto.
    destruct (String.eqb a x) eqn:Eax.
    + apply String.eqb_eq in Eax. auto.
    + right. auto.
Qed.

Lemma first_occurrences_NoDup (l : list string) : NoDup (first_occurrences l).
Proof.
  induction l as [|a l IH]; simpl; constructor.
  - rewrite filter_In. intros [_ H]. now rewrite String.eqb_refl in H.
  - now apply NoDup_filter.
Qed.

(** What comes first in the input comes first in the output: the
    occurrences kept from a prefix are a prefix of the result. *)
Lemma first_occurrences_app (p s : list string) :
  first_occurrences (p ++ s)
  = (first_occurrences p
     ++ filter (fun y => negb (mem y p)) (first_occurrences s))%list.
Proof.
  induction p as [|a p IH]; simpl.
  - now rewrite filter_all.
  - f_equal. rewrite IH, filter_app. f_equal.
    rewrite filter_filter_comm.
    clear. induction (first_occurrences s) as [|y l IHl]; simpl; auto.
    rewrite (String.eqb_sym y a).
    destruct (String.eqb a y); simpl; destruct (mem y p); simpl; now rewrite ?IHl.
Qed.

Lemma first_occurrences_fixed (l : list string) :
  NoDup l -> first_occurrences l = l.
Proof.
  induction 1 as [|a l Hn Hd IH]; simpl; auto.
  rewrite IH. f_equal.
  clear IH Hd. induction l as [|b l IHl]; simpl; auto.
  destruct (String.eqb a b) eqn:Eab.
  - apply String.eqb_eq in Eab. subst. exfalso. apply Hn. now left.
  - simpl. f_equal. apply IHl. intros H. apply Hn. now right.
Qed.

Lemma collected_legiarti (results : list json) (x : string) :
  In x (collected results) -> PyStr.startswith x "LEGIARTI" = true.
Proof.
  assert (L : forall v s, is_legiarti v = Some s -> PyStr.startswith s "LEGIARTI" = true).
  { intros v s. destruct v; simpl; try discriminate.
    destruct (PyStr.startswith s0 "LEGIARTI") eqn:P; intros [= <-]; auto. }
  unfold collected. rewrite in_flat_map. intros (r & _ & Hx).
  destruct r; simpl in Hx; try contradiction.
  apply in_app_or in Hx. destruct Hx as [Hx | Hx].
  - destruct (Json.or_else (Json.get d "articles") (JList [])); try contradiction.
    apply in_flat_map in Hx. destruct Hx as (a & _ & Hx).
    destruct a; simpl in Hx; try contradiction.
    destruct (is_legiarti (Json.get d0 "id")) eqn:I; simpl in Hx; [|contradiction].
    destruct Hx as [<- | []]. eauto.
  - destruct (is_legiarti (Json.get d "id")) eqn:I; simpl in Hx; [|contradiction].
    destruct Hx as [<- | []]. eauto.
Qed.

Lemma extract_dict (d : list (string * json)) :
  _extract_legiarti_id_from_search (JDict d)
  = Ok (first_occurrences (collected (results_of d))).
Proof.
  unfold _extract_legiarti_id_from_search, results_of.
  destruct (Json.or_else (Json.get d "results") (JList [])); try reflexivity.
  now rewrite scan_results_spec, dedup_loop_first_occurrences.
Qed.

(** C9. Identifier extraction.  For a search response [JDict d]:
    the result list is the ["results"] field, empty when the field is
    missing or is not a list; each result gives the identifiers of its
    ["articles"] sub-list and then the one of its ["id"] field, strings
    with the prefix LEGIARTI only; the extracted list holds exactly these
    identifiers, each once, in the order of first appearance; extracting
    again gives the same list, and the list is a fixed point of the
    deduplication. *)
Theorem C9_extraction (d : list (string * json)) :
  let ids := first_occurrences (collected (results_of d)) in
  _extract_legiarti_id_from_search (JDict d) = Ok ids
  /\ (Json.lookup d "results" = None -> ids = [])
  /\ ((forall l, Json.or_else (Json.get d "results") (JList []) <> JList l) -> ids = [])
  /\ NoDup ids
  /\ (forall x, In x ids <-> In x (collected (results_of d)))
  /\ (forall x, In x ids -> PyStr.startswith x "LEGIARTI" = true)
  /\ (forall p s, collected (results_of d) = (p ++ s)%list ->
        exists t, ids = (first_occurrences p ++ t)%list
                  /\ forall y, In y t -> ~ In y p)
  /\ (forall r1 r2,
        _extract_legiarti_id_from_search (JDict d) = r1 ->
        _extract_legiarti_id_from_search (JDict d) = r2 -> r1 = r2)
  /\ dedup_loop ids [] [] = ids.
Proof.
  intros ids. subst ids.
  split; [apply extract_dict|].
  split.
  { intros H. unfold results_of, Json.get, Json.get_default. now rewrite H. }
  split.
  { intros H. unfold results_of.
    destruct (Json.or_else (Json.get d "results") (JList [])) eqn:R; auto.
    now destruct (H l). }
  split; [apply first_occurrences_NoDup|].
  split; [intros x; apply first_occurrences_In|].
  split.
  { intros x Hx. apply (proj1 (first_occurrences_In _ _)) in Hx.
    exact (collected_legiarti _ _ Hx). }
  split.
  { intros p s ->. rewrite first_occurrences_app. eexists. split; [reflexivity|].
    intros y Hy. apply filter_In in Hy. destruct Hy as [_ Hy].
    intros Hin. apply mem_In in Hin. now rewrite Hin in Hy. }
  split; [congruence|].
  rewrite dedup_loop_first_occurrences.
  apply first_occurrences_fixed, first_occurrences_NoDup.
Qed.

End Extraction.

(** Duplicates across ["articles"] sub-lists and ["id"] fields, a result
    that is not an object, an ["articles"] field that is not a list, and
    identifiers with another prefix. *)
Lemma C9_extraction_witness :
  _extract_legiarti_id_from_search (JDict Sample.search_dup)
  = Ok ["LEGIARTI2"; "LEGIARTI1"; "LEGIARTI3"].
Proof.
  rewrite (proj1 (C9_extraction Sample.search_dup)). reflexivity.
Defined.

(* ================================================================== *)
(** ** The primary search query and its date filter *)
(* ================================================================== *)

Section SearchPayload.

Lemma search_payload_filters (code_title article_num : string)
    (date_version : option string) (millis : option Z) :
  (if PyStr.truthy_opt date_version then iso_date_to_millis date_version else Ok None)
  = Ok millis ->
  _search_payload_code_article code_title article_num date_version
  = Ok (search_body
          [champ "TEXT_NOM_CODE" code_title; champ "NUM_ARTICLE" article_num]
          (filtres_of millis) 10).
Proof.
  intros H. unfold _search_payload_code_article. now rewrite H.
Qed.

Lemma iso_date_present (d : option string) (m : Z) :
  iso_date_to_millis d = Ok (Some m) -> PyStr.truthy_opt d = true.
Proof.
  unfold iso_date_to_millis. destruct (PyStr.truthy_opt d); auto. discriminate.
Qed.



End SearchPayload.

(* ================================================================== *)
(** ** The precondition of [resolve_code_article] *)
(* ================================================================== *)

Section TooBroad.

Variable E : Env.

(** C6. When the normalized code title or the normalized article number is
    empty ([None] or the empty string), [resolve_code_article] raises
    [TooBroadError] and the state is the one it started from: no event on
    the trace, no request to the token endpoint, none to the API, the token
    cache as it was.  An empty code hint is such a case, whatever the
    article hint. *)
Theorem C6_too_broad_no_network
    (code_hint article_hint : string) (date_hint : option string) (w : World) :
  (PyStr.truthy_opt (normalize_code_title (Some code_hint)) = false
   \/ PyStr.truthy_opt (normalize_article_num (Some article_hint)) = false ->
   resolve_code_article E code_hint article_hint date_hint w
   = (Raise (TooBroadError "code_hint ou article_hint manquant"), w))
  /\ resolve_code_article E "" article_hint date_hint w
     = (Raise (TooBroadError "code_hint ou article_hint manquant"), w).
Proof.
  assert (H : forall c,
             PyStr.truthy_opt (normalize_code_title (Some c)) = false
             \/ PyStr.truthy_opt (normalize_article_num (Some article_hint)) = false ->
             resolve_code_article E c article_hint date_hint w
             = (Raise (TooBroadError "code_hint ou article_hint manquant"), w)).
  { intros c H. unfold resolve_code_article.
    destruct H as [-> | ->]; cbn [negb orb]; rewrite ?orb_true_r; reflexivity. }
  split; [apply H|]. apply H. left. reflexivity.
Qed.

End TooBroad.

(** A code hint made of blanks only: its normalized title is empty. *)
Lemma C6_too_broad_no_network_witness :
  resolve_code_article
    (Sample.env (Some "id") [Sample.token_response "T1" (JInt 3600)]
       [Sample.ok Sample.search_one])
    "   " "L 1221-1" None initial_world
  = (Raise (TooBroadError "code_hint ou article_hint manquant"), initial_world).
Proof.
  apply (proj1 (C6_too_broad_no_network _ "   " "L 1221-1" None initial_world)).
  left. reflexivity.
Defined.

(* ================================================================== *)
(** ** The token manager *)
(* ================================================================== *)

Section TokenManager.

Variable E : Env.

Hypothesis has_id : PyStr.truthy_opt (PISTE_CLIENT_ID E) = true.
Hypothesis has_secret : PyStr.truthy_opt (PISTE_CLIENT_SECRET E) = true.

Lemma fetch_unfold (w : World) :
  _fetch_new_token E w
  = match token_endpoint E (token_posts w) with
    | Failed e => (Raise e, after_token_post E w)
    | Responded resp =>
        if negb (Z.eqb (status_code resp) 200) then
          (Raise (LegifranceAuthError
                    ("Échec token PISTE (status=" ++ PyStr.of_Z (status_code resp)
                     ++ ", body=" ++ text resp ++ ")")),
           after_token_post E w)
        else
          match body_json resp with
          | None => (Raise (ValueError "JSONDecodeError"), after_token_post E w)
          | Some (JDict d) =>
              let token := Json.get d "access_token" in
              if negb (Json.truthy token) then
                (Raise (LegifranceAuthError "Réponse PISTE sans access_token."),
                 after_token_post E w)
              else
                match PyInt.int (Json.get_default d "expires_in" (JInt 3600)) with
                | Raise e => (Raise e, after_token_post E w)
                | Ok expires_in =>
                    (Ok token,
                     mkWorld token
                       (Some (time_time E (clock_reads w) + inject_Z expires_in - 60)%Q)
                       true (S (clock_reads w)) (S (token_posts w)) (api_posts w)
                       (trace (after_token_post E w)))
                end
          | Some _ =>
              (Raise (AttributeError "object has no attribute 'get'"), after_token_post E w)
          end
    end.
Proof.
  unfold _fetch_new_token. rewrite has_id, has_secret. simpl.
  unfold bind, _get_client, post_token, lift, resp_json, raise. simpl.
  destruct (token_endpoint E (token_posts w)) as [r|e]; [|reflexivity].
  destruct (Z.eqb (status_code r) 200); simpl; [|reflexivity].
  destruct (body_json r) as [[]|]; try reflexivity.
  simpl. destruct (Json.truthy (Json.get d "access_token")); simpl; [|reflexivity].
  destruct (PyInt.int (Json.get_default d "expires_in" (JInt 3600))); reflexivity.
Qed.

End TokenManager.

Section TokenCache.

Variable E : Env.

Lemma get_token_unfold (w : World) :
  get_token E w
  = if cache_valid (time_time E (clock_reads w)) w then (Ok (_access_token w), tick 1 w)
    else if cache_valid (time_time E (S (clock_reads w))) w
         then (Ok (_access_token w), tick 2 w)
         else _fetch_new_token E (tick 2 w).
Proof.
  destruct w as [tok exp cl cr tp ap tr].
  unfold tick, cache_valid. cbn [_access_token _token_expires_at clock_reads].
  destruct (Json.truthy tok) eqn:T;
    [destruct exp as [e|];
     [destruct (negb (Qeq_bool e 0)) eqn:Z;
      [destruct (Qltb (time_time E cr) e) eqn:L1;
       [|destruct (Qltb (time_time E (S cr)) e) eqn:L2]|]|]|];
    unfold get_token, bind, now_, get_world, ret, cache_valid;
    repeat (cbn; rewrite ?T, ?Z, ?L1, ?L2); reflexivity.
Qed.


Lemma fetch_posts_token (w : World) (r : result json) (w' : World) :
  _fetch_new_token E w = (r, w') ->
  token_posts w' = token_posts w \/ token_posts w' = S (token_posts w).
Proof.
  destruct (PyStr.truthy_opt (PISTE_CLIENT_ID E)) eqn:C1;
    [destruct (PyStr.truthy_opt (PISTE_CLIENT_SECRET E)) eqn:C2|].
  - rewrite (fetch_unfold E C1 C2).
    destruct (token_endpoint E (token_posts w)) as [rt|e].
    2:{ intros [= <- <-]. now right. }
    destruct (negb (Z.eqb (status_code rt) 200)).
    { intros [= <- <-]. now right. }
    destruct (body_json rt) as [[]|]; try (intros [= <- <-]; now right).
    simpl. destruct (negb (Json.truthy (Json.get d "access_token"))).
    { intros [= <- <-]. now right. }
    destruct (PyInt.int _); intros [= <- <-]; now right.
  - unfold _fetch_new_token. rewrite C1, C2. intros [= <- <-]. now left.
  - unfold _fetch_new_token. rewrite C1. intros [= <- <-]. now left.
Qed.

End TokenCache.

Section TokenRefresh.

Variable E : Env.


End TokenRefresh.



(* ================================================================== *)
(** ** The POST transport *)
(* ================================================================== *)

Section TraceFacts.

Lemma extends_refl (w : World) : extends w w [].
Proof. unfold extends. now rewrite app_nil_r. Qed.

Lemma extends_same (w w' : World) : trace w' = trace w -> extends w w' [].
Proof. unfold extends. intros ->. now rewrite app_nil_r. Qed.

Lemma extends_trans (w1 w2 w3 : World) (a b : list event) :
  extends w1 w2 a -> extends w2 w3 b -> extends w1 w3 (a ++ b).
Proof. unfold extends. intros H1 H2. now rewrite H2, H1, app_assoc. Qed.

Lemma count_app (p : event -> bool) (a b : list event) :
  count p (a ++ b) = count p a + count p b.
Proof. unfold count. now rewrite filter_app, length_app. Qed.

Lemma sleeps_app (a b : list event) : sleeps (a ++ b) = (sleeps a ++ sleeps b)%list.
Proof. unfold sleeps. now rewrite flat_map_app. Qed.

Lemma searches_app (a b : list event) :
  searches (a ++ b) = (searches a ++ searches b)%list.
Proof. unfold searches. now rewrite flat_map_app. Qed.

Lemma requests_only_app (a b : list event) :
  requests_only a -> requests_only b -> requests_only (a ++ b).
Proof. unfold requests_only. intros. apply Forall_app. now split. Qed.

Lemma requests_only_facts (evs : list event) :
  requests_only evs ->
  count is_call evs = 0 /\ count is_invalidate evs = 0
  /\ sleeps evs = [] /\ searches evs = [].
Proof.
  induction 1 as [|ev evs H _ IH]; [now repeat split|].
  destruct IH as (I1 & I2 & I3 & I4).
  unfold count in *.
  destruct ev; simpl in *; destruct H as [H | H]; try discriminate; now repeat split.
Qed.

End TraceFacts.

Section Transport.

Variable E : Env.

Lemma fetch_extends (w : World) :
  exists evs,
    extends w (snd (_fetch_new_token E w)) evs
    /\ requests_only evs /\ count is_post evs = 0
    /\ api_posts (snd (_fetch_new_token E w)) = api_posts w.
Proof.
  destruct (PyStr.truthy_opt (PISTE_CLIENT_ID E)) eqn:C1;
    [destruct (PyStr.truthy_opt (PISTE_CLIENT_SECRET E)) eqn:C2|].
  - exists [EvTokenPost (PISTE_TOKEN_URL E)
              (PyStr.of_opt (PISTE_CLIENT_ID E)) (PyStr.of_opt (PISTE_CLIENT_SECRET E))].
    rewrite (fetch_unfold E C1 C2).
    assert (requests_only
              [EvTokenPost (PISTE_TOKEN_URL E)
                 (PyStr.of_opt (PISTE_CLIENT_ID E)) (PyStr.of_opt (PISTE_CLIENT_SECRET E))])
      as R by (constructor; [now left | constructor]).
    destruct (token_endpoint E (token_posts w)) as [rt|e]; [|now repeat split].
    destruct (negb (Z.eqb (status_code rt) 200)); [now repeat split|].
    destruct (body_json rt) as [[]|]; try now repeat split.
    simpl. destruct (negb (Json.truthy (Json.get d "access_token"))); [now repeat split|].
    destruct (PyInt.int _); now repeat split.
  - exists []. unfold _fetch_new_token. rewrite C1, C2. simpl.
    repeat split; [apply extends_refl | constructor].
  - exists []. unfold _fetch_new_token. rewrite C1. simpl.
    repeat split; [apply extends_refl | constructor].
Qed.

Lemma get_token_extends (w : World) :
  exists evs,
    extends w (snd (get_token E w)) evs
    /\ requests_only evs /\ count is_post evs = 0
    /\ api_posts (snd (get_token E w)) = api_posts w.
Proof.
  rewrite get_token_unfold.
  destruct (cache_valid (time_time E (clock_reads w)) w).
  { exists []. repeat split; [now apply extends_same | constructor]. }
  destruct (cache_valid (time_time E (S (clock_reads w))) w).
  { exists []. repeat split; [now apply extends_same | constructor]. }
  destruct (fetch_extends (tick 2 w)) as (evs & H1 & H2 & H3 & H4).
  exists evs. repeat split; auto.
Qed.

Lemma do_post_unfold (url : string) (payload : json) (w : World) :
  _do_post E url payload w
  = match get_token E w with
    | (Ok token, w1) => post_api E url token payload w1
    | (Raise e, w1) => (Raise e, w1)
    end.
Proof. reflexivity. Qed.

Lemma do_post_extends (url : string) (payload : json) (w : World) :
  exists evs,
    extends w (snd (_do_post E url payload w)) evs
    /\ requests_only evs /\ count is_post evs <= 1.
Proof.
  rewrite do_post_unfold.
  destruct (get_token_extends w) as (evs & H1 & H2 & H3 & _).
  destruct (get_token E w) as [[tok|e] w1]; simpl in *.
  - exists (evs ++ [EvPost url tok payload])%list. split; [|split].
    + unfold post_api.
      destruct (api_endpoint E (api_posts w1)); simpl;
        unfold extends in *; simpl; now rewrite H1, app_assoc.
    + apply requests_only_app; auto. constructor; [now right | constructor].
    + rewrite count_app, H3. unfold count. simpl. lia.
  - exists evs. repeat split; auto. lia.
Qed.

Lemma after_401_spec (attempt : nat) (r : Response) (v : Locals) (w : World) :
  let '(res, v', w') := after_401 attempt r v w in
  v' = v
  /\ ((res = Ok Continue /\ is_transient (status_code r) = true
       /\ extends w w' [EvSleep (backoff attempt)])
      \/ (res = Ok Break /\ is_transient (status_code r) = false /\ w' = w)).
Proof.
  unfold after_401.
  destruct (is_transient (status_code r)); simpl; (split; [reflexivity|]);
    [left | right]; repeat split.
Qed.

Lemma try_body_spec (url : string) (payload : json) (attempt : nat)
    (v : Locals) (w : World) :
  pass_spec attempt v w (try_body E url payload attempt v w).
Proof.
  unfold try_body, pass_spec.
  destruct (do_post_extends url payload w) as (e1 & X1 & R1 & P1).
  destruct (requests_only_facts _ R1) as (C1 & I1 & S1 & Q1).
  destruct (_do_post E url payload w) as [[r|e] w1]; cbn [snd] in X1.
  2:{ exists e1. repeat split; auto; lia. }
  cbv beta iota zeta. cbn [refreshed_after_401 last_exc resp].
  destruct (Z.eqb (status_code r) 401 && negb (refreshed_after_401 v)) eqn:C.
  - apply andb_true_iff in C. destruct C as [_ C]. apply negb_true_iff in C.
    set (w2 := snd (_invalidate_token_cache w1)).
    assert (extends w1 w2 [EvInvalidate]) as X2 by reflexivity.
    destruct (do_post_extends url payload w2) as (e3 & X3 & R3 & P3).
    destruct (requests_only_facts _ R3) as (C3 & I3 & S3 & Q3).
    destruct (_do_post E url payload w2) as [[r2|e] w3]; cbn [snd] in X3.
    + pose proof (after_401_spec attempt r2
                    (mkLocals (last_exc v) (Some r2) true) w3) as A.
      destruct (after_401 attempt r2 _ w3) as [[res v'] w'].
      cbv beta iota in A. destruct A as [-> [(-> & _ & X4) | (-> & _ & ->)]].
      * exists (e1 ++ [EvInvalidate] ++ e3 ++ [EvSleep (backoff attempt)])%list.
        split; [eauto using extends_trans|].
        rewrite !count_app, !sleeps_app, !searches_app, C1, C3, I1, I3, S1, S3, Q1, Q3, C.
        unfold count, sleeps, searches in *. simpl. repeat split; lia.
      * exists (e1 ++ [EvInvalidate] ++ e3)%list.
        split; [eauto using extends_trans|].
        rewrite !count_app, !sleeps_app, !searches_app, C1, C3, I1, I3, S1, S3, Q1, Q3, C.
        unfold count, sleeps, searches in *. simpl. repeat split; lia.
    + exists (e1 ++ [EvInvalidate] ++ e3)%list.
      split; [eauto using extends_trans|].
      rewrite !count_app, !sleeps_app, !searches_app, C1, C3, I1, I3, S1, S3, Q1, Q3, C.
      unfold count, sleeps, searches in *. simpl. repeat split; lia.
  - pose proof (after_401_spec attempt r
                  (mkLocals (last_exc v) (Some r) (refreshed_after_401 v)) w1) as A.
    destruct (after_401 attempt r _ w1) as [[res v'] w'].
    cbv beta iota in A. destruct A as [-> [(-> & _ & X4) | (-> & _ & ->)]]; simpl.
    + exists (e1 ++ [EvSleep (backoff attempt)])%list.
      split; [eauto using extends_trans|].
      rewrite !count_app, !sleeps_app, !searches_app, C1, I1, S1, Q1.
      unfold count, sleeps, searches in *. simpl. repeat split; lia.
    + exists e1. repeat split; auto; lia.
Qed.

Lemma attempt_once_spec (url : string) (payload : json) (attempt : nat)
    (v : Locals) (w : World) :
  pass_spec attempt v w (attempt_once E url payload attempt v w).
Proof.
  unfold attempt_once.
  pose proof (try_body_spec url payload attempt v w) as T.
  destruct (try_body E url payload attempt v w) as [[[f|e] v'] w']; auto.
  destruct (is_network_exc e); auto.
  unfold pass_spec in *. destruct T as (evs & X & C & Q & I & S & P).
  exists (evs ++ [EvSleep (backoff attempt)])%list.
  split; [eapply extends_trans; eauto; reflexivity|].
  rewrite !count_app, !sleeps_app, !searches_app, C, Q, S.
  unfold count, sleeps, searches in *. simpl. repeat split; lia.
Qed.

Lemma for_attempts_spec (url : string) (payload : json) (attempts : list nat) :
  forall (v : Locals) (w : World),
  exists evs,
    extends w (snd (for_attempts E url payload attempts v w)) evs
    /\ count is_call evs = 0
    /\ searches evs = []
    /\ b2n (refreshed_after_401 v) + count is_invalidate evs <= 1
    /\ (exists k, sleeps evs = map backoff (firstn k attempts))
    /\ count is_post evs + b2n (refreshed_after_401 v) <= List.length attempts + 1.
Proof.
  assert (B : forall b, b2n b <= 1) by (intros []; simpl; lia).
  induction attempts as [|attempt rest IH]; intros v w; simpl.
  - exists []. split; [apply extends_refl|].
    pose proof (B (refreshed_after_401 v)).
    unfold count. simpl. repeat split; try lia. now exists 0.
  - pose proof (attempt_once_spec url payload attempt v w) as A.
    pose proof (B (refreshed_after_401 v)).
    destruct (attempt_once E url payload attempt v w) as [[[f|e] v'] w'];
      destruct A as (evs & X & C & Q & I & S & P);
      pose proof (B (refreshed_after_401 v')).
    + destruct f; simpl.
      * exists evs. split; auto. repeat split; auto; try lia.
        exists 0. now rewrite S.
      * destruct (IH v' w') as (evs' & X' & C' & Q' & I' & (k & S') & P').
        exists (evs ++ evs')%list. split; [eauto using extends_trans|].
        rewrite !count_app, sleeps_app, searches_app, C, C', Q, Q', S, S'.
        repeat split; try lia.
        exists (Datatypes.S k). reflexivity.
    + simpl. exists evs. split; auto. repeat split; auto; try lia.
      exists 0. now rewrite S.
Qed.

Lemma post_legifrance_unfold (endpoint : string) (payload : json) (w : World) :
  _post_legifrance E endpoint payload w
  = match _ensure_consult_base (Some (LEGIFRANCE_API_BASE E)) with
    | Raise e => (Raise e, called endpoint payload w)
    | Ok base =>
        match for_attempts E (base ++ "/" ++ PyStr.lstrip_char "/" endpoint) payload
                (seq 0 3) (mkLocals None None false) (entered endpoint payload w) with
        | (Raise e, w') => (Raise e, w')
        | (Ok v, w') =>
            match resp v with
            | None => (Raise (LegifranceApiError "Aucune réponse reçue de Légifrance."), w')
            | Some r =>
                if Z.leb 400 (status_code r) then
                  (Raise (LegifranceApiError
                            ("Appel Légifrance " ++ endpoint ++ " en erreur (status="
                             ++ PyStr.of_Z (status_code r) ++ ", body=" ++ text r ++ ")")),
                   w')
                else (resp_json r, w')
            end
        end
    end.
Proof.
  unfold _post_legifrance, bind, lift, emit, _get_client, raise, called, entered.
  cbv beta iota.
  destruct (_ensure_consult_base (Some (LEGIFRANCE_API_BASE E))) as [base|e];
    [|reflexivity].
  cbv beta iota. cbn [_access_token _token_expires_at _client clock_reads
                      token_posts api_posts trace].
  destruct (for_attempts E _ payload (seq 0 3) _ _) as [[v|e] w']; [|reflexivity].
  destruct (resp v) as [r|]; [|reflexivity].
  destruct (Z.leb 400 (status_code r)); reflexivity.
Qed.

(** Every call of the transport: one [EvCall], then at most one
    invalidation, at most four requests to the API, and sleeps that are the
    first delays of the schedule [backoff 0], [backoff 1], [backoff 2]. *)
Lemma post_legifrance_trace (endpoint : string) (payload : json) (w : World) :
  exists evs,
    extends w (snd (_post_legifrance E endpoint payload w)) (EvCall endpoint payload :: evs)
    /\ count is_call evs = 0
    /\ searches evs = []
    /\ count is_invalidate evs <= 1
    /\ (exists k, sleeps evs = map backoff (firstn k [0; 1; 2]))
    /\ count is_post evs <= 4.
Proof.
  rewrite post_legifrance_unfold.
  destruct (_ensure_consult_base (Some (LEGIFRANCE_API_BASE E))) as [base|e].
  2:{ exists []. unfold count. simpl. repeat split; auto; try lia. now exists 0. }
  match goal with
  | |- context [for_attempts E ?u payload ?a ?v ?w0] =>
      destruct (for_attempts_spec u payload a v w0) as (evs & X & C & Q & I & S & P);
      destruct (for_attempts E u payload a v w0) as [[v'|e] w']
  end; cbn [snd] in X; cbn [b2n refreshed_after_401 List.length seq] in *.
  - exists evs.
    assert (extends w w' (EvCall endpoint payload :: evs)) as T.
    { unfold extends in *. cbn [entered trace] in X. rewrite X, <- app_assoc. reflexivity. }
    split.
    + destruct (resp v') as [r|]; auto.
      destruct (Z.leb 400 (status_code r)); auto.
    + repeat split; auto; lia.
  - exists evs. split.
    + unfold extends in *. cbn [entered trace snd] in *.
      rewrite X, <- app_assoc. reflexivity.
    + repeat split; auto; lia.
Qed.

End Transport.

Section Unauthorized.

Variable E : Env.

Lemma get_token_after_invalidate (w1 : World) :
  get_token E (snd (_invalidate_token_cache w1))
  = _fetch_new_token E (tick 2 (snd (_invalidate_token_cache w1))).
Proof. rewrite get_token_unfold. reflexivity. Qed.

(** When the request that follows the invalidation gets an answer, the
    token endpoint has just granted the token it carries. *)
Lemma do_post_after_invalidate (url : string) (payload : json) (w1 : World)
    (r2 : Response) (w3 : World) :
  _do_post E url payload (snd (_invalidate_token_cache w1)) = (Ok r2, w3) ->
  exists rt d,
    token_endpoint E (token_posts w1) = Responded rt
    /\ body_json rt = Some (JDict d)
    /\ api_endpoint E (api_posts w1) = Responded r2
    /\ _access_token w3 = Json.get d "access_token"
    /\ extends (snd (_invalidate_token_cache w1)) w3
         [EvTokenPost (PISTE_TOKEN_URL E)
            (PyStr.of_opt (PISTE_CLIENT_ID E)) (PyStr.of_opt (PISTE_CLIENT_SECRET E));
          EvPost url (Json.get d "access_token") payload].
Proof.
  rewrite do_post_unfold, get_token_after_invalidate.
  destruct (PyStr.truthy_opt (PISTE_CLIENT_ID E)) eqn:C1;
    [destruct (PyStr.truthy_opt (PISTE_CLIENT_SECRET E)) eqn:C2|].
  2:{ unfold _fetch_new_token. rewrite C1, C2. discriminate. }
  2:{ unfold _fetch_new_token. rewrite C1. discriminate. }
  rewrite (fetch_unfold E C1 C2).
  cbn [tick token_posts clock_reads _invalidate_token_cache snd].
  destruct (token_endpoint E (token_posts w1)) as [rt|e] eqn:Ht; [|discriminate].
  destruct (negb (Z.eqb (status_code rt) 200)); [discriminate|].
  destruct (body_json rt) as [[]|] eqn:Hd; try discriminate.
  cbv zeta. destruct (negb (Json.truthy (Json.get d "access_token"))); [discriminate|].
  destruct (PyInt.int _) as [n|]; [|discriminate].
  unfold post_api, after_token_post, tick.
  cbn [api_posts trace _access_token _token_expires_at _client clock_reads token_posts].
  destruct (api_endpoint E (api_posts w1)) as [r|e]; [|discriminate].
  intros [= -> <-]. exists rt, d. repeat split; auto.
  unfold extends. cbn [trace]. now rewrite <- !app_assoc.
Qed.

(** The body of the loop when its first answer is 401 and no refresh has
    been forced yet. *)
Lemma try_body_401 (url : string) (payload : json) (attempt : nat)
    (v : Locals) (w0 : World) (r1 : Response) (w1 : World) :
  refreshed_after_401 v = false ->
  _do_post E url payload w0 = (Ok r1, w1) ->
  status_code r1 = 401%Z ->
  try_body E url payload attempt v w0
  = match _do_post E url payload (snd (_invalidate_token_cache w1)) with
    | (Raise e, w3) => (Raise e, mkLocals (last_exc v) (Some r1) true, w3)
    | (Ok r2, w3) => after_401 attempt r2 (mkLocals (last_exc v) (Some r2) true) w3
    end.
Proof.
  intros Hv H1 Hs. unfold try_body. rewrite H1.
  cbv zeta. cbn [refreshed_after_401 last_exc resp]. now rewrite Hs, Hv.
Qed.

(** The body of the loop when the answer is 401 and the refresh has been
    used: no second refresh. *)
Lemma try_body_401_again (url : string) (payload : json) (attempt : nat)
    (v : Locals) (w0 : World) (r1 : Response) (w1 : World) :
  refreshed_after_401 v = true ->
  _do_post E url payload w0 = (Ok r1, w1) ->
  status_code r1 = 401%Z ->
  try_body E url payload attempt v w0
  = (Ok Break, mkLocals (last_exc v) (Some r1) true, w1).
Proof.
  intros Hv H1 Hs. unfold try_body. rewrite H1.
  cbv zeta. cbn [refreshed_after_401 last_exc resp]. rewrite Hs, Hv.
  unfold after_401. now rewrite Hs.
Qed.

Lemma for_attempts_break (url : string) (payload : json) (attempt : nat)
    (rest : list nat) (v : Locals) (w : World) (v' : Locals) (w' : World) :
  try_body E url payload attempt v w = (Ok Break, v', w') ->
  for_attempts E url payload (attempt :: rest) v w = (Ok v', w').
Proof.
  intros H. cbn [for_attempts]. unfold attempt_once. now rewrite H.
Qed.

Lemma for_attempts_raise (url : string) (payload : json) (attempt : nat)
    (rest : list nat) (v : Locals) (w : World) (e : exn) (v' : Locals) (w' : World) :
  try_body E url payload attempt v w = (Raise e, v', w') ->
  is_network_exc e = false ->
  for_attempts E url payload (attempt :: rest) v w = (Raise e, w').
Proof.
  intros H N. cbn [for_attempts]. unfold attempt_once. now rewrite H, N.
Qed.

Lemma post_legifrance_break (endpoint : string) (payload : json) (w : World)
    (base : string) (v' : Locals) (r : Response) (w' : World) :
  _ensure_consult_base (Some (LEGIFRANCE_API_BASE E)) = Ok base ->
  for_attempts E (base ++ "/" ++ PyStr.lstrip_char "/" endpoint) payload (seq 0 3)
    (mkLocals None None false) (entered endpoint payload w) = (Ok v', w') ->
  resp v' = Some r ->
  _post_legifrance E endpoint payload w
  = if Z.leb 400 (status_code r) then
      (Raise (LegifranceApiError
                ("Appel Légifrance " ++ endpoint ++ " en erreur (status="
                 ++ PyStr.of_Z (status_code r) ++ ", body=" ++ text r ++ ")")),
       w')
    else (resp_json r, w').
Proof.
  intros Hb Hf Hr. rewrite post_legifrance_unfold, Hb, Hf, Hr. reflexivity.
Qed.

(** C3. A call of the transport invalidates the token cache at most once.
    When the first answer is 401: the cache is emptied, and the very next
    thing the call does is the same request again, whose token comes from
    a request to the token endpoint; if that retry is answered, the trace
    between the two answers is exactly the invalidation, one token request
    and one POST of the same URL and payload with the token just granted.
    A 401 answer to the retry ends the call with [LegifranceApiError]
    carrying the status 401 and the body, with no other event; any other
    final answer of the retry is treated as the answer of the call.  Inside
    the loop, whatever the attempt, the first 401 is followed by the
    invalidation and the retry, and a 401 met after the refresh has been
    used breaks the loop at once. *)
Theorem C3_unauthorized_refresh_once (endpoint : string) (payload : json) (w : World) :
  (exists evs,
      extends w (snd (_post_legifrance E endpoint payload w)) evs
      /\ count is_invalidate evs <= 1)
  /\ (forall base r1 w1,
        _ensure_consult_base (Some (LEGIFRANCE_API_BASE E)) = Ok base ->
        let url := base ++ "/" ++ PyStr.lstrip_char "/" endpoint in
        _do_post E url payload (entered endpoint payload w) = (Ok r1, w1) ->
        status_code r1 = 401%Z ->
        let w2 := snd (_invalidate_token_cache w1) in
        _access_token w2 = JNull /\ _token_expires_at w2 = None
        /\ extends w1 w2 [EvInvalidate]
        /\ get_token E w2 = _fetch_new_token E (tick 2 w2)
        /\ (forall r2 w3,
              _do_post E url payload w2 = (Ok r2, w3) ->
              (exists rt d,
                  token_endpoint E (token_posts w1) = Responded rt
                  /\ body_json rt = Some (JDict d)
                  /\ _access_token w3 = Json.get d "access_token"
                  /\ extends w1 w3
                       [EvInvalidate;
                        EvTokenPost (PISTE_TOKEN_URL E)
                          (PyStr.of_opt (PISTE_CLIENT_ID E))
                          (PyStr.of_opt (PISTE_CLIENT_SECRET E));
                        EvPost url (Json.get d "access_token") payload])
              /\ (status_code r2 = 401%Z ->
                  _post_legifrance E endpoint payload w
                  = (Raise (LegifranceApiError
                              ("Appel Légifrance " ++ endpoint
                               ++ " en erreur (status=401, body=" ++ text r2 ++ ")")),
                     w3))
              /\ (is_transient (status_code r2) = false ->
                  (400 <= status_code r2)%Z ->
                  _post_legifrance E endpoint payload w
                  = (Raise (LegifranceApiError
                              ("Appel Légifrance " ++ endpoint ++ " en erreur (status="
                               ++ PyStr.of_Z (status_code r2)
                               ++ ", body=" ++ text r2 ++ ")")),
                     w3))
              /\ (is_transient (status_code r2) = false ->
                  (status_code r2 < 400)%Z ->
                  _post_legifrance E endpoint payload w = (resp_json r2, w3))))
  /\ (forall url attempt v w0 r1 w1,
        refreshed_after_401 v = false ->
        _do_post E url payload w0 = (Ok r1, w1) ->
        status_code r1 = 401%Z ->
        try_body E url payload attempt v w0
        = match _do_post E url payload (snd (_invalidate_token_cache w1)) with
          | (Raise e, w3) => (Raise e, mkLocals (last_exc v) (Some r1) true, w3)
          | (Ok r2, w3) =>
              after_401 attempt r2 (mkLocals (last_exc v) (Some r2) true) w3
          end)
  /\ (forall url attempt rest v w0 r1 w1,
        refreshed_after_401 v = true ->
        _do_post E url payload w0 = (Ok r1, w1) ->
        status_code r1 = 401%Z ->
        for_attempts E url payload (attempt :: rest) v w0
        = (Ok (mkLocals (last_exc v) (Some r1) true), w1))
  /\ (forall url attempt rest v w0 r1 w1 r2 w3,
        refreshed_after_401 v = false ->
        _do_post E url payload w0 = (Ok r1, w1) ->
        status_code r1 = 401%Z ->
        _do_post E url payload (snd (_invalidate_token_cache w1)) = (Ok r2, w3) ->
        status_code r2 = 401%Z ->
        for_attempts E url payload (attempt :: rest) v w0
        = (Ok (mkLocals (last_exc v) (Some r2) true), w3)).
Proof.
  split; [|split; [|split; [|split]]].
  - destruct (post_legifrance_trace E endpoint payload w) as (evs & X & _ & _ & I & _).
    exists (EvCall endpoint payload :: evs). split; [exact X | exact I].
  - intros base r1 w1 Hb url H1 Hs w2.
    split; [reflexivity|]. split; [reflexivity|]. split; [reflexivity|].
    split; [apply get_token_after_invalidate|].
    intros r2 w3 H2.
    destruct (do_post_after_invalidate _ _ _ _ _ H2) as (rt & d & Ht & Hd & _ & Ha & X).
    assert (P : exists rt d,
               token_endpoint E (token_posts w1) = Responded rt
               /\ body_json rt = Some (JDict d)
               /\ _access_token w3 = Json.get d "access_token"
               /\ extends w1 w3
                    [EvInvalidate;
                     EvTokenPost (PISTE_TOKEN_URL E)
                       (PyStr.of_opt (PISTE_CLIENT_ID E))
                       (PyStr.of_opt (PISTE_CLIENT_SECRET E));
                     EvPost url (Json.get d "access_token") payload]).
    { exists rt, d. repeat split; auto.
      unfold extends in *. rewrite X. subst w2. cbn [_invalidate_token_cache snd trace].
      now rewrite <- app_assoc. }
    assert (T : forall f,
               after_401 0 r2 (mkLocals None (Some r2) true) w3
               = (Ok Break, mkLocals None (Some r2) true, w3) ->
               f = Z.leb 400 (status_code r2) ->
               _post_legifrance E endpoint payload w
               = if f then
                   (Raise (LegifranceApiError
                             ("Appel Légifrance " ++ endpoint ++ " en erreur (status="
                              ++ PyStr.of_Z (status_code r2) ++ ", body=" ++ text r2 ++ ")")),
                    w3)
                 else (resp_json r2, w3)).
    { intros f Ha401 ->.
      apply (post_legifrance_break endpoint payload w base
               (mkLocals None (Some r2) true) r2 w3 Hb); [|reflexivity].
      apply for_attempts_break. fold url.
      rewrite (try_body_401 url payload 0 (mkLocals None None false) _ r1 w1
                 eq_refl H1 Hs).
      fold w2. rewrite H2. exact Ha401. }
    split; [exact P|].
    split; [|split].
    + intros Hs2. rewrite (T true).
      * now rewrite Hs2.
      * unfold after_401. now rewrite Hs2.
      * now rewrite Hs2.
    + intros Hnt Hge. rewrite (T true); auto.
      * unfold after_401. now rewrite Hnt.
      * symmetry. apply Z.leb_le. lia.
    + intros Hnt Hlt. rewrite (T false); auto.
      * unfold after_401. now rewrite Hnt.
      * symmetry. apply Z.leb_gt. lia.
  - intros url attempt v w0 r1 w1 Hv H1 Hs. now apply try_body_401.
  - intros url attempt rest v w0 r1 w1 Hv H1 Hs.
    apply for_attempts_break. now apply try_body_401_again.
  - intros url attempt rest v w0 r1 w1 r2 w3 Hv H1 Hs H2 Hs2.
    apply for_attempts_break.
    rewrite (try_body_401 url payload attempt v w0 r1 w1 Hv H1 Hs), H2.
    unfold after_401. now rewrite Hs2.
Qed.

End Unauthorized.

(** The answers 401, 401: one invalidation, one new token, one retry, and
    the second 401 is the outcome. *)
Lemma C3_unauthorized_refresh_once_witness :
  let E := Sample.env (Some "id")
             [Sample.token_response "T1" (JInt 3600); Sample.token_response "T2" (JInt 3600)]
             [Sample.status 401 "expired"; Sample.status 401 "denied"] in
  fst (_post_legifrance E "search" JNull initial_world)
  = Raise (LegifranceApiError
             "Appel Légifrance search en erreur (status=401, body=denied)")
  /\ count is_invalidate (trace (snd (_post_legifrance E "search" JNull initial_world)))
     = 1
  /\ count is_post (trace (snd (_post_legifrance E "search" JNull initial_world))) = 2.
Proof.
  intros E.
  destruct (C3_unauthorized_refresh_once E "search" JNull initial_world) as (_ & H & _).
  edestruct H as (_ & _ & _ & _ & H2);
    [reflexivity | vm_compute; reflexivity | reflexivity |].
  edestruct H2 as (_ & H401 & _ & _); [vm_compute; reflexivity|].
  rewrite H401; [|reflexivity]. repeat split; vm_compute; reflexivity.
Defined.

Section Retry.

Variable E : Env.

Lemma attempt_once_transient (url : string) (payload : json) (attempt : nat)
    (v : Locals) (w : World) :
  transient_outcome (_do_post E url payload w) = true ->
  attempt_once E url payload attempt v w
  = (Ok Continue,
     mkLocals (exc_after (_do_post E url payload w) (last_exc v))
              (resp_after (_do_post E url payload w) (resp v))
              (refreshed_after_401 v),
     snd (sleep (backoff attempt) (snd (_do_post E url payload w)))).
Proof.
  unfold transient_outcome, exc_after, resp_after, attempt_once, try_body.
  destruct (_do_post E url payload w) as [[r|e] w1]; cbn [fst snd]; intros T.
  - cbv zeta. cbn [refreshed_after_401 last_exc resp].
    assert (Z.eqb (status_code r) 401 = false) as ->.
    { apply Z.eqb_neq. intros H. rewrite H in T. discriminate. }
    cbn [andb]. unfold after_401. now rewrite T.
  - now rewrite T.
Qed.

Lemma attempt_once_final (url : string) (payload : json) (attempt : nat)
    (v : Locals) (w : World) (r : Response) (w1 : World) :
  _do_post E url payload w = (Ok r, w1) ->
  is_transient (status_code r) = false ->
  status_code r <> 401%Z ->
  attempt_once E url payload attempt v w
  = (Ok Break, mkLocals (last_exc v) (Some r) (refreshed_after_401 v), w1).
Proof.
  intros H T N. unfold attempt_once, try_body. rewrite H.
  cbv zeta. cbn [refreshed_after_401 last_exc resp].
  apply Z.eqb_neq in N. rewrite N. cbn [andb]. unfold after_401. now rewrite T.
Qed.

Lemma backoff_ms (attempt : nat) :
  (backoff attempt * 1000 == inject_Z (200 * 2 ^ Z.of_nat attempt))%Q.
Proof.
  unfold backoff. rewrite inject_Z_mult. field.
Qed.

(** The retry schedule of the transport.  Two attempts that end on a
    retried status (429, 500, 502, 503, 504) or on a network exception are
    each followed by the sleep [backoff 0] = 200 ms, then [backoff 1] =
    400 ms, and by one more attempt.  When the third request gets a final
    answer below 400, its JSON body is the result and the call has slept
    200 ms and 400 ms.  When the third attempt ends the same way as the
    first two, the call sleeps [backoff 2] = 800 ms and raises
    [LegifranceApiError], whose message ends with [last_exc]: the text of
    the last network exception caught, or ["None"] when none was. *)
Theorem transient_retry_schedule (endpoint : string) (payload : json) (w : World)
    (base : string) :
  _ensure_consult_base (Some (LEGIFRANCE_API_BASE E)) = Ok base ->
  let url := base ++ "/" ++ PyStr.lstrip_char "/" endpoint in
  let o0 := _do_post E url payload (entered endpoint payload w) in
  let o1 := _do_post E url payload (snd (sleep (backoff 0) (snd o0))) in
  let o2 := _do_post E url payload (snd (sleep (backoff 1) (snd o1))) in
  transient_outcome o0 = true ->
  transient_outcome o1 = true ->
  (forall r,
      fst o2 = Ok r -> (status_code r < 400)%Z -> status_code r <> 401%Z ->
      is_transient (status_code r) = false ->
      _post_legifrance E endpoint payload w = (resp_json r, snd o2)
      /\ exists evs, extends w (snd o2) evs /\ sleeps evs = [backoff 0; backoff 1])
  /\ (transient_outcome o2 = true ->
      _post_legifrance E endpoint payload w
      = (Raise (LegifranceApiError
                  ("Échec réseau Légifrance après retries: "
                   ++ opt_exn_str (exc_after o2 (exc_after o1 (exc_after o0 None))))),
         snd (sleep (backoff 2) (snd o2))))
  /\ (backoff 0 * 1000 == 200)%Q /\ (backoff 1 * 1000 == 400)%Q
  /\ (backoff 2 * 1000 == 800)%Q.
Proof.
  intros Hb url o0 o1 o2 T0 T1.
  pose proof (attempt_once_transient url payload 0 (mkLocals None None false) _ T0) as A0.
  fold o0 in A0. cbn [last_exc resp refreshed_after_401] in A0.
  pose proof (attempt_once_transient url payload 1
                (mkLocals (exc_after o0 None) (resp_after o0 None) false) _ T1) as A1.
  fold o1 in A1. cbn [last_exc resp refreshed_after_401] in A1.
  split; [|split; [|repeat split; reflexivity]].
  - intros r Hr Hlt Hn Ht.
    assert (Ho2 : o2 = (Ok r, snd o2)).
    { destruct o2 as [r2 w2]. cbn [fst snd] in *. now subst. }
    pose proof (attempt_once_final url payload 2
                  (mkLocals (exc_after o1 (exc_after o0 None))
                            (resp_after o1 (resp_after o0 None)) false)
                  _ r (snd o2) Ho2 Ht Hn) as A2.
    cbn [last_exc resp refreshed_after_401] in A2.
    split.
    + rewrite post_legifrance_unfold, Hb. fold url.
      cbn [seq for_attempts]. rewrite A0, A1, A2. cbn [resp].
      assert (Z.leb 400 (status_code r) = false) as -> by (apply Z.leb_gt; lia).
      reflexivity.
    + destruct (do_post_extends E url payload (entered endpoint payload w))
        as (e0 & X0 & R0 & _). fold o0 in X0.
      destruct (do_post_extends E url payload (snd (sleep (backoff 0) (snd o0))))
        as (e1 & X1 & R1 & _). fold o1 in X1.
      destruct (do_post_extends E url payload (snd (sleep (backoff 1) (snd o1))))
        as (e2 & X2 & R2 & _). fold o2 in X2.
      destruct (requests_only_facts _ R0) as (_ & _ & S0 & _).
      destruct (requests_only_facts _ R1) as (_ & _ & S1 & _).
      destruct (requests_only_facts _ R2) as (_ & _ & S2 & _).
      exists ([EvCall endpoint payload] ++ e0 ++ [EvSleep (backoff 0)] ++ e1
              ++ [EvSleep (backoff 1)] ++ e2)%list.
      split.
      * unfold extends in *. rewrite X2. cbn [sleep emit snd trace].
        rewrite X1. cbn [sleep emit snd trace]. rewrite X0. cbn [entered trace].
        now rewrite <- !app_assoc.
      * rewrite !sleeps_app, S0, S1, S2. reflexivity.
  - intros T2.
    pose proof (attempt_once_transient url payload 2
                  (mkLocals (exc_after o1 (exc_after o0 None))
                            (resp_after o1 (resp_after o0 None)) false) _ T2) as A2.
    fold o2 in A2. cbn [last_exc resp refreshed_after_401] in A2.
    rewrite post_legifrance_unfold, Hb. fold url.
    cbn [seq for_attempts]. rewrite A0, A1, A2. reflexivity.
Qed.

End Retry.

(** The answers 503, 503, 200: the third attempt succeeds, after sleeps of
    200 ms and 400 ms. *)
Lemma transient_retry_schedule_witness :
  let E := Sample.env (Some "id") [Sample.token_response "T1" (JInt 3600)]
             [Sample.status 503 "busy"; Sample.status 503 "busy";
              Sample.ok Sample.search_one] in
  fst (_post_legifrance E "search" JNull initial_world) = Ok Sample.search_one
  /\ sleeps (trace (snd (_post_legifrance E "search" JNull initial_world)))
     = [backoff 0; backoff 1].
Proof.
  intros E.
  edestruct (transient_retry_schedule E "search" JNull initial_world) as (H & _);
    [reflexivity | vm_compute; reflexivity | vm_compute; reflexivity |].
  edestruct H as (H1 & _);
    [vm_compute; reflexivity | vm_compute; reflexivity | vm_compute; discriminate
    | vm_compute; reflexivity |].
  rewrite H1. split; vm_compute; reflexivity.
Defined.

(** C2, at the answers 503, 503, 503: three requests, sleeps of 200, 400
    and 800 ms, then [LegifranceApiError] whose message embeds ["None"]:
    nothing of the 503 answers is in it. *)
Lemma C2_status_exhaustion_embeds_none :
  let E := Sample.env (Some "id") [Sample.token_response "T1" (JInt 3600)]
             [Sample.status 503 "busy"] in
  let out := _post_legifrance E "search" JNull initial_world in
  fst out = Raise (LegifranceApiError "Échec réseau Légifrance après retries: None")
  /\ count is_post (trace (snd out)) = 3
  /\ sleeps (trace (snd out)) = [backoff 0; backoff 1; backoff 2].
Proof.
  vm_compute. repeat split.
Qed.

(* ================================================================== *)
(** ** The resolution engine *)
(* ================================================================== *)

Section Resolution.

Variable E : Env.

Lemma resolve_unfold (code_hint article_hint : string) (date_hint : option string)
    (code_title article_num : string) (w : World) :
  normalize_code_title (Some code_hint) = Some code_title ->
  PyStr.truthy code_title = true ->
  normalize_article_num (Some article_hint) = Some article_num ->
  PyStr.truthy article_num = true ->
  resolve_code_article E code_hint article_hint date_hint w
  = match _search_payload_code_article code_title article_num date_hint with
    | Raise e => (Raise e, w)
    | Ok payload =>
        match lf_search E payload w with
        | (Ok search_resp, w1) =>
            resolve_from_search E code_title article_num date_hint search_resp w1
        | (Raise _, w1) =>
            match lf_search E (_fallback_payload_code_only code_title) w1 with
            | (Ok search_resp, w2) =>
                resolve_from_search E code_title article_num date_hint search_resp w2
            | (Raise e2, w2) => (Raise e2, w2)
            end
        end
    end.
Proof.
  intros Hc Tc Ha Ta. unfold resolve_code_article.
  rewrite Hc, Ha. cbn [PyStr.truthy_opt PyStr.of_opt]. rewrite Tc, Ta.
  cbn [negb orb]. unfold bind, lift, search_with_fallback.
  destruct (_search_payload_code_article code_title article_num date_hint) as [payload|e];
    [|reflexivity].
  destruct (lf_search E payload w) as [[sr|e] w1]; [reflexivity|].
  destruct (lf_search E (_fallback_payload_code_only code_title) w1) as [[sr|e2] w2];
    reflexivity.
Qed.

Lemma resolve_from_search_unfold (code_title article_num : string)
    (date_hint : option string) (search_resp : json) (w : World) :
  resolve_from_search E code_title article_num date_hint search_resp w
  = match _extract_legiarti_id_from_search search_resp with
    | Raise e => (Raise e, w)
    | Ok [] => (Raise (NotFoundError (msg_not_found code_title article_num date_hint)), w)
    | Ok (first :: rest) =>
        if Nat.ltb 3 (List.length (first :: rest)) then
          (Raise (AmbiguousError (msg_ambiguous (List.length (first :: rest)))
                    (map (fun _id => JDict [("id", JStr _id)])
                         (firstn 10 (first :: rest)))), w)
        else
          match lf_get_article E first w with
          | (Ok article_resp, w') =>
              (Ok (mkResolvedArticle "CODE" first
                     (_extract_title_from_article_resp article_resp)
                     (Some article_num) date_hint article_resp), w')
          | (Raise e, w') => (Raise e, w')
          end
    end.
Proof.
  unfold resolve_from_search, bind, lift, raise, ret.
  destruct (_extract_legiarti_id_from_search search_resp) as [[|first rest]|e];
    try reflexivity.
  destruct (Nat.ltb 3 (List.length (first :: rest))); [reflexivity|].
  destruct (lf_get_article E first w) as [[a|e] w']; reflexivity.
Qed.

Lemma lf_search_trace (payload : json) (w : World) :
  exists evs, extends w (snd (lf_search E payload w)) evs /\ searches evs = [payload].
Proof.
  unfold lf_search.
  destruct (post_legifrance_trace E "search" payload w) as (evs & X & _ & Q & _).
  exists (EvCall "search" payload :: evs). split; auto.
  change (EvCall "search" payload :: evs) with ([EvCall "search" payload] ++ evs)%list.
  now rewrite searches_app, Q.
Qed.

Lemma lf_get_article_trace (legiarti_id : string) (w : World) :
  exists evs, extends w (snd (lf_get_article E legiarti_id w)) evs /\ searches evs = [].
Proof.
  unfold lf_get_article.
  destruct (post_legifrance_trace E "getArticle" (JDict [("id", JStr legiarti_id)]) w)
    as (evs & X & _ & Q & _).
  eexists. split; [exact X|].
  change (EvCall "getArticle" ?p :: evs) with ([EvCall "getArticle" p] ++ evs)%list.
  now rewrite searches_app, Q.
Qed.

Lemma resolve_from_search_trace (code_title article_num : string)
    (date_hint : option string) (search_resp : json) (w : World) :
  exists evs,
    extends w (snd (resolve_from_search E code_title article_num date_hint search_resp w)) evs
    /\ searches evs = [].
Proof.
  rewrite resolve_from_search_unfold.
  destruct (_extract_legiarti_id_from_search search_resp) as [[|first rest]|e];
    try (exists []; split; [apply extends_refl | reflexivity]).
  destruct (Nat.ltb 3 (List.length (first :: rest)));
    try (exists []; split; [apply extends_refl | reflexivity]).
  destruct (lf_get_article_trace first w) as (evs & X & Q).
  exists evs. split; auto.
  destruct (lf_get_article E first w) as [[a|e] w']; exact X.
Qed.

End Resolution.

Section Disambiguation.

Variable E : Env.

(** C1. Once the search phase of [resolve_code_article] has an answer and
    the identifiers have been extracted from it:
    - no identifier: the call raises [NotFoundError], whose message names
      the code title, the article number and the date hint, and nothing
      more happens on the network;
    - more than 3 identifiers: the call raises [AmbiguousError] with the
      first 10 identifiers at most, in the order of extraction, and nothing
      more happens on the network;
    - 1 to 3 identifiers: the first one is fetched, and the outcome of the
      call is the outcome of that fetch. *)
Theorem C1_disambiguation_policy
    (code_hint article_hint : string) (date_hint : option string) (w : World)
    (code_title article_num : string) (payload search_resp : json) (w1 : World)
    (ids : list string) :
  normalize_code_title (Some code_hint) = Some code_title ->
  PyStr.truthy code_title = true ->
  normalize_article_num (Some article_hint) = Some article_num ->
  PyStr.truthy article_num = true ->
  _search_payload_code_article code_title article_num date_hint = Ok payload ->
  search_with_fallback E payload code_title w = (Ok search_resp, w1) ->
  _extract_legiarti_id_from_search search_resp = Ok ids ->
  (ids = [] ->
   resolve_code_article E code_hint article_hint date_hint w
   = (Raise (NotFoundError
               ("Aucun article trouvé pour '" ++ code_title ++ "' article '"
                ++ article_num ++ "' (date=" ++ PyStr.of_opt date_hint ++ ").")),
      w1))
  /\ (3 < List.length ids ->
      let candidates := map (fun _id => JDict [("id", JStr _id)]) (firstn 10 ids) in
      resolve_code_article E code_hint article_hint date_hint w
      = (Raise (AmbiguousError (msg_ambiguous (List.length ids)) candidates), w1)
      /\ List.length candidates <= 10)
  /\ (1 <= List.length ids <= 3 ->
      exists first,
        hd_error ids = Some first
        /\ resolve_code_article E code_hint article_hint date_hint w
           = match lf_get_article E first w1 with
             | (Ok article_resp, w') =>
                 (Ok (mkResolvedArticle "CODE" first
                        (_extract_title_from_article_resp article_resp)
                        (Some article_num) date_hint article_resp), w')
             | (Raise e, w') => (Raise e, w')
             end).
Proof.
  intros Hc Tc Ha Ta Hp Hs Hx.
  assert (R : resolve_code_article E code_hint article_hint date_hint w
              = resolve_from_search E code_title article_num date_hint search_resp w1).
  { rewrite (resolve_unfold E _ _ _ _ _ _ Hc Tc Ha Ta), Hp.
    unfold search_with_fallback in Hs.
    destruct (lf_search E payload w) as [[sr|e] w0].
    - now injection Hs as -> ->.
    - now rewrite Hs. }
  rewrite R, resolve_from_search_unfold, Hx.
  split; [|split].
  - intros ->. reflexivity.
  - intros Hlen. destruct ids as [|first rest]; [simpl in Hlen; lia|].
    apply Nat.ltb_lt in Hlen. rewrite Hlen. split; [reflexivity|].
    rewrite length_map. apply firstn_le_length.
  - intros [Hlo Hhi]. destruct ids as [|first rest]; [simpl in Hlo; lia|].
    exists first. split; [reflexivity|].
    assert (Nat.ltb 3 (List.length (first :: rest)) = false) as ->
        by (apply Nat.ltb_ge; lia).
    reflexivity.
Qed.

End Disambiguation.

(** Five identifiers come back: the outcome is [AmbiguousError] with the
    five candidates. *)
Lemma C1_disambiguation_policy_witness :
  let E := Sample.env (Some "id") [Sample.token_response "T1" (JInt 3600)]
             [Sample.ok (Sample.search_many 5)] in
  fst (resolve_code_article E "Code du travail" "L 1221-1" (Some "2020-01-01")
         initial_world)
  = Raise (AmbiguousError (msg_ambiguous 5)
             (map (fun _id => JDict [("id", JStr _id)])
                  ["LEGIARTI0"; "LEGIARTI1"; "LEGIARTI2"; "LEGIARTI3"; "LEGIARTI4"])).
Proof.
  intros E.
  edestruct (C1_disambiguation_policy E "Code du travail" "L 1221-1" (Some "2020-01-01")
               initial_world "Code du travail" "L1221-1")
    as (_ & H & _);
    [reflexivity | reflexivity | reflexivity | reflexivity
    | reflexivity | vm_compute; reflexivity | vm_compute; reflexivity | ].
  destruct H as [H _]; [vm_compute; lia|].
  rewrite H. reflexivity.
Defined.

Section Fallback.

Variable E : Env.

(** After a failed primary search: what the call becomes, and the searches
    it makes. *)
Lemma fallback_after_failure
    (code_hint article_hint : string) (date_hint : option string) (w : World)
    (code_title article_num : string) (payload : json) (e : exn) (w1 : World) :
  normalize_code_title (Some code_hint) = Some code_title ->
  PyStr.truthy code_title = true ->
  normalize_article_num (Some article_hint) = Some article_num ->
  PyStr.truthy article_num = true ->
  _search_payload_code_article code_title article_num date_hint = Ok payload ->
  lf_search E payload w = (Raise e, w1) ->
  resolve_code_article E code_hint article_hint date_hint w
  = match lf_search E (_fallback_payload_code_only code_title) w1 with
    | (Ok search_resp, w2) =>
        resolve_from_search E code_title article_num date_hint search_resp w2
    | (Raise e2, w2) => (Raise e2, w2)
    end
  /\ (exists evs,
        extends w (snd (resolve_code_article E code_hint article_hint date_hint w)) evs
        /\ searches evs = [payload; _fallback_payload_code_only code_title]).
Proof.
  intros Hc Tc Ha Ta Hp H1.
  pose proof (resolve_unfold E _ _ date_hint _ _ w Hc Tc Ha Ta) as R.
  rewrite Hp, H1 in R. split; [exact R|].
  destruct (lf_search_trace E payload w) as (ev1 & X1 & Q1).
  destruct (lf_search_trace E (_fallback_payload_code_only code_title) w1)
    as (ev2 & X2 & Q2).
  rewrite H1 in X1. cbn [snd] in X1. rewrite R.
  destruct (lf_search E (_fallback_payload_code_only code_title) w1)
    as [[sr|e2] w2]; cbn [snd] in X2.
  - destruct (resolve_from_search_trace E code_title article_num date_hint sr w2)
      as (ev3 & X3 & Q3).
    exists (ev1 ++ ev2 ++ ev3)%list. split; [eauto using extends_trans|].
    now rewrite !searches_app, Q1, Q2, Q3.
  - exists (ev1 ++ ev2)%list. split; [eauto using extends_trans|].
    now rewrite !searches_app, Q1, Q2.
Qed.

(** C7. When the primary search of [resolve_code_article] raises, whatever
    the exception, one more search is made: its query is the fallback one,
    with the code-title criterion alone, page size 5 and the legal-status
    filter alone.  When that search raises too, its exception is the outcome
    of the call; when it answers, the resolution goes on from its answer.
    The call makes these two searches and no other. *)
Theorem C7_fallback_search
    (code_hint article_hint : string) (date_hint : option string) (w : World)
    (code_title article_num : string) (payload : json) (e : exn) (w1 : World) :
  normalize_code_title (Some code_hint) = Some code_title ->
  PyStr.truthy code_title = true ->
  normalize_article_num (Some article_hint) = Some article_num ->
  PyStr.truthy article_num = true ->
  _search_payload_code_article code_title article_num date_hint = Ok payload ->
  lf_search E payload w = (Raise e, w1) ->
  let fallback := _fallback_payload_code_only code_title in
  fallback
  = JDict [("fond", JStr "CODE_ETAT");
           ("recherche",
            JDict [("champs",
                    JList [JDict [("typeChamp", JStr "TEXT_NOM_CODE");
                                  ("criteres",
                                   JList [JDict [("typeRecherche", JStr "EXACTE");
                                                 ("valeur", JStr code_title);
                                                 ("operateur", JStr "ET")]]);
                                  ("operateur", JStr "ET")]]);
                   ("filtres",
                    JList [JDict [("facette", JStr "TEXT_LEGAL_STATUS");
                                  ("valeur", JStr "VIGUEUR")]]);
                   ("pageNumber", JInt 1);
                   ("pageSize", JInt 5);
                   ("operateur", JStr "ET");
                   ("sort", JStr "PERTINENCE");
                   ("typePagination", JStr "DEFAUT")])]
  /\ (forall e2 w2,
        lf_search E fallback w1 = (Raise e2, w2) ->
        resolve_code_article E code_hint article_hint date_hint w = (Raise e2, w2))
  /\ (forall search_resp w2,
        lf_search E fallback w1 = (Ok search_resp, w2) ->
        resolve_code_article E code_hint article_hint date_hint w
        = resolve_from_search E code_title article_num date_hint search_resp w2)
  /\ (exists evs,
        extends w1 (snd (lf_search E fallback w1)) evs /\ searches evs = [fallback])
  /\ (exists evs,
        extends w (snd (resolve_code_article E code_hint article_hint date_hint w)) evs
        /\ searches evs = [payload; fallback]).
Proof.
  intros Hc Tc Ha Ta Hp H1 fallback.
  destruct (fallback_after_failure _ _ date_hint w _ _ _ _ _ Hc Tc Ha Ta Hp H1)
    as (R & T).
  fold fallback in R, T.
  split; [reflexivity|]. split; [|split; [|split]].
  - intros e2 w2 H2. now rewrite R, H2.
  - intros sr w2 H2. now rewrite R, H2.
  - apply lf_search_trace.
  - exact T.
Qed.

End Fallback.

(** The API answers 400 to every request: the primary search fails, the
    fallback search fails the same way, and its error is the outcome. *)
Lemma C7_fallback_search_witness :
  let E := Sample.env (Some "id") [Sample.token_response "T1" (JInt 3600)]
             [Sample.status 400 "bad request"] in
  fst (resolve_code_article E "Code du travail" "L 1221-1" None initial_world)
  = Raise (LegifranceApiError
             "Appel Légifrance search en erreur (status=400, body=bad request)").
Proof.
  intros E.
  edestruct (C7_fallback_search E "Code du travail" "L 1221-1" None initial_world
               "Code du travail" "L1221-1")
    as (_ & H & _);
    [reflexivity | reflexivity | reflexivity | reflexivity
    | reflexivity | vm_compute; reflexivity | ].
  erewrite H; [reflexivity | vm_compute; reflexivity].
Defined.

Section AuthenticationErrors.

Variable E : Env.

Lemma get_token_posts (w : World) :
  token_posts (snd (get_token E w)) <= S (token_posts w).
Proof.
  rewrite get_token_unfold.
  destruct (cache_valid (time_time E (clock_reads w)) w); [simpl; lia|].
  destruct (cache_valid (time_time E (S (clock_reads w))) w); [simpl; lia|].
  destruct (_fetch_new_token E (tick 2 w)) as [r w'] eqn:F.
  cbn [snd].
  destruct (fetch_posts_token E _ _ _ F) as [-> | ->]; simpl; lia.
Qed.

(** C8.  An authentication error is not retried by the token
    manager (one token request at most per acquisition) nor by the
    transport: raised by a request of the loop, first request or retry
    after a 401, it leaves the loop and [_post_legifrance] at once, in the
    state it was raised in.  The resolution engine treats it as any other
    failure of the primary search: it makes the fallback search, once; an
    authentication error raised by the fallback search, or by the fetch, is
    the outcome of the call. *)
Theorem C8_auth_error_propagation :
  (forall w, token_posts (snd (get_token E w)) <= S (token_posts w))
  /\ (forall url payload attempt rest v w m w1,
        _do_post E url payload w = (Raise (LegifranceAuthError m), w1) ->
        for_attempts E url payload (attempt :: rest) v w
        = (Raise (LegifranceAuthError m), w1))
  /\ (forall url payload attempt rest v w r1 w1 m w3,
        refreshed_after_401 v = false ->
        _do_post E url payload w = (Ok r1, w1) ->
        status_code r1 = 401%Z ->
        _do_post E url payload (snd (_invalidate_token_cache w1))
        = (Raise (LegifranceAuthError m), w3) ->
        for_attempts E url payload (attempt :: rest) v w
        = (Raise (LegifranceAuthError m), w3))
  /\ (forall endpoint payload w base m w1,
        _ensure_consult_base (Some (LEGIFRANCE_API_BASE E)) = Ok base ->
        _do_post E (base ++ "/" ++ PyStr.lstrip_char "/" endpoint) payload
          (entered endpoint payload w) = (Raise (LegifranceAuthError m), w1) ->
        _post_legifrance E endpoint payload w = (Raise (LegifranceAuthError m), w1))
  /\ (forall code_hint article_hint date_hint w code_title article_num payload m w1,
        normalize_code_title (Some code_hint) = Some code_title ->
        PyStr.truthy code_title = true ->
        normalize_article_num (Some article_hint) = Some article_num ->
        PyStr.truthy article_num = true ->
        _search_payload_code_article code_title article_num date_hint = Ok payload ->
        lf_search E payload w = (Raise (LegifranceAuthError m), w1) ->
        let fallback := _fallback_payload_code_only code_title in
        resolve_code_article E code_hint article_hint date_hint w
        = match lf_search E fallback w1 with
          | (Ok search_resp, w2) =>
              resolve_from_search E code_title article_num date_hint search_resp w2
          | (Raise e2, w2) => (Raise e2, w2)
          end
        /\ (exists evs,
              extends w (snd (resolve_code_article E code_hint article_hint date_hint w))
                evs
              /\ searches evs = [payload; fallback])
        /\ (forall m2 w2,
              lf_search E fallback w1 = (Raise (LegifranceAuthError m2), w2) ->
              resolve_code_article E code_hint article_hint date_hint w
              = (Raise (LegifranceAuthError m2), w2)))
  /\ (forall code_title article_num date_hint search_resp w ids first m w',
        _extract_legiarti_id_from_search search_resp = Ok ids ->
        hd_error ids = Some first ->
        List.length ids <= 3 ->
        lf_get_article E first w = (Raise (LegifranceAuthError m), w') ->
        resolve_from_search E code_title article_num date_hint search_resp w
        = (Raise (LegifranceAuthError m), w')).
Proof.
  split; [exact get_token_posts|].
  split.
  { intros url payload attempt rest v w m w1 H.
    apply (for_attempts_raise E url payload attempt rest v w _ v w1); [|reflexivity].
    unfold try_body. now rewrite H. }
  split.
  { intros url payload attempt rest v w r1 w1 m w3 Hv H1 Hs H2.
    apply (for_attempts_raise E url payload attempt rest v w _
             (mkLocals (last_exc v) (Some r1) true) w3); [|reflexivity].
    now rewrite (try_body_401 E url payload attempt v w r1 w1 Hv H1 Hs), H2. }
  split.
  { intros endpoint payload w base m w1 Hb H.
    rewrite post_legifrance_unfold, Hb.
    rewrite (for_attempts_raise E _ payload 0 [1; 2] _ _ (LegifranceAuthError m)
               (mkLocals None None false) w1); [reflexivity| |reflexivity].
    unfold try_body. now rewrite H. }
  split.
  { intros code_hint article_hint date_hint w code_title article_num payload m w1
           Hc Tc Ha Ta Hp H1 fallback.
    destruct (fallback_after_failure E code_hint article_hint date_hint w
                code_title article_num payload _ w1 Hc Tc Ha Ta Hp H1)
      as (R & T).
    fold fallback in R. split; [exact R|]. split; [exact T|].
    intros m2 w2 H2. now rewrite R, H2. }
  intros code_title article_num date_hint search_resp w ids first m w' Hx Hh Hl Hg.
  rewrite resolve_from_search_unfold, Hx.
  destruct ids as [|f rest]; [discriminate|]. injection Hh as ->.
  assert (Nat.ltb 3 (List.length (first :: rest)) = false) as ->
      by (apply Nat.ltb_ge; lia).
  now rewrite Hg.
Qed.

End AuthenticationErrors.

(** C8, a search after an authentication error: the token endpoint
    answers 500 to the first request and grants a token to the second: the primary search raises the authentication error, the
    engine searches again with the fallback query, and the call ends
    resolved. *)
Lemma C8_search_after_auth_error_counterexample :
  let E := Sample.env (Some "id")
             [Sample.status 500 "down"; Sample.token_response "T1" (JInt 3600)]
             [Sample.ok Sample.search_one; Sample.ok Sample.article] in
  let primary :=
    search_body [champ "TEXT_NOM_CODE" "Code du travail"; champ "NUM_ARTICLE" "L1221-1"]
      [filtre_vigueur] 10 in
  fst (lf_search E primary initial_world)
  = Raise (LegifranceAuthError "Échec token PISTE (status=500, body=down)")
  /\ exists article w',
      resolve_code_article E "Code du travail" "L 1221-1" None initial_world
      = (Ok article, w')
      /\ legiarti_id article = "LEGIARTI000006900783"
      /\ searches (trace w') = [primary; _fallback_payload_code_only "Code du travail"]
      /\ count is_token_post (trace w') = 2.
Proof.
  split; [vm_compute; reflexivity|].
  eexists. eexists. split; [vm_compute; reflexivity|].
  vm_compute. repeat split.
Qed.

(** Both credentials present, the token endpoint down: the authentication
    error of the fallback search is the outcome. *)
Lemma C8_auth_error_propagation_witness :
  let E := Sample.env (Some "id") [Sample.status 500 "down"] [] in
  fst (resolve_code_article E "Code du travail" "L 1221-1" None initial_world)
  = Raise (LegifranceAuthError "Échec token PISTE (status=500, body=down)").
Proof.
  intros E.
  destruct (C8_auth_error_propagation E) as (_ & _ & _ & _ & H & _).
  edestruct (H "Code du travail" "L 1221-1" None initial_world
               "Code du travail" "L1221-1")
    as (_ & _ & H2);
    [reflexivity | reflexivity | reflexivity | reflexivity
    | reflexivity | vm_compute; reflexivity | ].
  erewrite H2; [reflexivity | vm_compute; reflexivity].
Defined.

(* ================================================================== *)
(** ** Normalization: the scan of [re.sub] never runs out of fuel *)
(* ================================================================== *)

Section Normalization.

Lemma lstrip_by_length (p : ascii -> bool) (l : list ascii) :
  List.length (PyStr.lstrip_by p l) <= List.length l.
Proof.
  induction l as [|c l IH]; simpl; auto.
  destruct (p c); simpl; lia.
Qed.

Lemma m_ws_hyphen_ws_consuming : consuming PyStr.m_ws_hyphen_ws.
Proof.
  intros l repl rest. unfold PyStr.m_ws_hyphen_ws.
  pose proof (lstrip_by_length PyStr.is_space l) as H.
  destruct (PyStr.lstrip_by PyStr.is_space l) as [|c r]; [discriminate|].
  destruct (Ascii.eqb c "-") eqn:Ec.
  - apply Ascii.eqb_eq in Ec. subst c. intros [= <- <-].
    pose proof (lstrip_by_length PyStr.is_space r). simpl in H. lia.
  - destruct c as [[] [] [] [] [] [] [] []]; try discriminate.
Qed.

Lemma m_ws_plus_consuming : consuming PyStr.m_ws_plus.
Proof.
  intros l repl rest. unfold PyStr.m_ws_plus.
  destruct l as [|c r]; [discriminate|].
  destruct (PyStr.is_space c); [|discriminate].
  intros [= <- <-]. pose proof (lstrip_by_length PyStr.is_space r). simpl. lia.
Qed.

(** With a consuming matcher, any fuel above the length of the text gives
    the same scan: the fuel of [re_sub] is never exhausted. *)
Lemma sub_scan_fuel (m : list ascii -> option (list ascii * list ascii)) :
  consuming m ->
  forall f1 f2 l,
    List.length l < f1 -> List.length l < f2 ->
    PyStr.sub_scan f1 m l = PyStr.sub_scan f2 m l.
Proof.
  intros Hm. induction f1 as [|f1 IH]; intros f2 l H1 H2; [lia|].
  destruct f2 as [|f2]; [lia|].
  destruct l as [|c r]; [reflexivity|]. cbn [PyStr.sub_scan].
  destruct (m (c :: r)) as [[repl rest]|] eqn:M.
  - apply Hm in M. f_equal. apply IH; simpl in *; lia.
  - f_equal. apply IH; simpl in *; lia.
Qed.

End Normalization.

(* ================================================================== *)
(** ** Further properties *)
(* ================================================================== *)

Section Further.

Variable E : Env.

(** Every call of the transport puts on the trace its own entry, then at
    most one invalidation of the token cache, at most four requests to the
    API (three attempts and one retry after a 401), and sleeps that are the
    first delays of the schedule [backoff 0], [backoff 1], [backoff 2],
    that is 200 ms times 2 to the attempt. *)
Theorem transport_call_bounds (endpoint : string) (payload : json) (w : World) :
  (exists evs,
      extends w (snd (_post_legifrance E endpoint payload w))
        (EvCall endpoint payload :: evs)
      /\ count is_call evs = 0
      /\ count is_invalidate evs <= 1
      /\ count is_post evs <= 4
      /\ exists k, sleeps evs = map backoff (firstn k [0; 1; 2]))
  /\ forall attempt,
      (backoff attempt * 1000 == inject_Z (200 * 2 ^ Z.of_nat attempt))%Q.
Proof.
  split; [|apply backoff_ms].
  destruct (post_legifrance_trace E endpoint payload w) as (evs & X & C & _ & I & S & P).
  exists evs. repeat split; auto.
Qed.

(** The re-check of [get_token]: once [get_token] has returned a token, a
    second call made while the cache is still valid returns the same token
    and asks the token endpoint nothing. *)
Theorem get_token_reuses_token (w : World) (tok : json) (w' : World) :
  get_token E w = (Ok tok, w') ->
  cache_valid (time_time E (clock_reads w')) w' = true ->
  get_token E w' = (Ok tok, tick 1 w')
  /\ token_posts (tick 1 w') = token_posts w'
  /\ trace (tick 1 w') = trace w'.
Proof.
  intros H V. rewrite (get_token_unfold E w'), V.
  repeat split. f_equal. f_equal.
  rewrite get_token_unfold in H.
  destruct (cache_valid (time_time E (clock_reads w)) w); [now injection H as <- <-|].
  destruct (cache_valid (time_time E (S (clock_reads w))) w); [now injection H as <- <-|].
  destruct (PyStr.truthy_opt (PISTE_CLIENT_ID E)) eqn:C1;
    [destruct (PyStr.truthy_opt (PISTE_CLIENT_SECRET E)) eqn:C2|].
  - rewrite (fetch_unfold E C1 C2) in H.
    destruct (token_endpoint E (token_posts (tick 2 w))) as [rt|e]; [|discriminate].
    destruct (negb (Z.eqb (status_code rt) 200)); [discriminate|].
    destruct (body_json rt) as [[]|]; try discriminate.
    cbv zeta in H.
    destruct (negb (Json.truthy (Json.get d "access_token"))); [discriminate|].
    destruct (PyInt.int _); [|discriminate].
    now injection H as <- <-.
  - unfold _fetch_new_token in H. rewrite C1, C2 in H. discriminate.
  - unfold _fetch_new_token in H. rewrite C1 in H. discriminate.
Qed.

End Further.

(** A token granted for 3600 s at the clock reading 1002 is reused by the
    next call, at the clock reading 1003. *)
Lemma get_token_reuses_token_witness :
  let E := Sample.env (Some "id") [Sample.token_response "T1" (JInt 3600)] [] in
  get_token E (snd (get_token E initial_world))
  = (Ok (JStr "T1"), tick 1 (snd (get_token E initial_world))).
Proof.
  intros E.
  apply (get_token_reuses_token E initial_world (JStr "T1")
           (snd (get_token E initial_world))).
  - vm_compute. reflexivity.
  - vm_compute. reflexivity.
Defined.

(* ================================================================== *)
(** ** The token cache and the requests of a call *)
(* ================================================================== *)

Section CacheAndRequests.

Variable E : Env.

Lemma fetch_outcome (w : World) (r : result json) (w' : World) :
  _fetch_new_token E w = (r, w') ->
  match r with
  | Ok tok =>
      Json.truthy tok = true /\ _access_token w' = tok
      /\ (exists n, _token_expires_at w'
                    = Some (time_time E (clock_reads w) + inject_Z n - 60)%Q)
      /\ token_posts w' = S (token_posts w)
  | Raise _ =>
      _access_token w' = _access_token w /\ _token_expires_at w' = _token_expires_at w
  end
  /\ api_posts w' = api_posts w.
Proof.
  destruct (PyStr.truthy_opt (PISTE_CLIENT_ID E)) eqn:C1;
    [destruct (PyStr.truthy_opt (PISTE_CLIENT_SECRET E)) eqn:C2|].
  - rewrite (fetch_unfold E C1 C2).
    destruct (token_endpoint E (token_posts w)) as [rt|e];
      [|intros [= <- <-]; repeat split].
    destruct (negb (Z.eqb (status_code rt) 200)); [intros [= <- <-]; repeat split|].
    destruct (body_json rt) as [[]|]; try (intros [= <- <-]; repeat split).
    cbv zeta.
    destruct (Json.truthy (Json.get d "access_token")) eqn:T; cbn [negb];
      [|intros [= <- <-]; repeat split].
    destruct (PyInt.int _) as [n|]; intros [= <- <-]; repeat split; auto.
    now exists n.
  - unfold _fetch_new_token. rewrite C1, C2. intros [= <- <-]. repeat split.
  - unfold _fetch_new_token. rewrite C1. intros [= <- <-]. repeat split.
Qed.

Lemma cache_valid_truthy (now : Q) (w : World) :
  cache_valid now w = true ->
  Json.truthy (_access_token w) = true /\ exists e, _token_expires_at w = Some e.
Proof.
  unfold cache_valid. intros H. apply andb_true_iff in H. destruct H as [H1 H2].
  split; auto. destruct (_token_expires_at w); [eauto|discriminate].
Qed.

Lemma get_token_truthy (w : World) (tok : json) (w' : World) :
  get_token E w = (Ok tok, w') -> Json.truthy tok = true.
Proof.
  rewrite get_token_unfold.
  destruct (cache_valid (time_time E (clock_reads w)) w) eqn:V1.
  { intros [= <- _]. now destruct (cache_valid_truthy _ _ V1). }
  destruct (cache_valid (time_time E (S (clock_reads w))) w) eqn:V2.
  { intros [= <- _]. now destruct (cache_valid_truthy _ _ V2). }
  intros F. now destruct (fetch_outcome _ _ _ F) as [(T & _) _].
Qed.


Lemma get_token_api_posts (w : World) :
  api_posts (snd (get_token E w)) = api_posts w.
Proof.
  destruct (get_token_extends E w) as (_ & _ & _ & _ & H). exact H.
Qed.

(** What a request that got an answer has done. *)
Lemma do_post_ok (url : string) (payload : json) (w : World) (r : Response) (w1 : World) :
  _do_post E url payload w = (Ok r, w1) ->
  api_endpoint E (api_posts w) = Responded r
  /\ api_posts w1 = S (api_posts w)
  /\ exists tok pre,
      Json.truthy tok = true
      /\ extends w w1 (pre ++ [EvPost url tok payload])
      /\ requests_only pre /\ count is_post pre = 0.
Proof.
  rewrite do_post_unfold.
  pose proof (get_token_truthy w) as I.
  pose proof (get_token_api_posts w) as A.
  destruct (get_token_extends E w) as (pre & X & R & P & _).
  destruct (get_token E w) as [[tok|e] w0]; [|discriminate].
  cbn [snd] in *. pose proof (I _ _ eq_refl) as T.
  unfold post_api. rewrite A.
  destruct (api_endpoint E (api_posts w)) as [r'|e]; [|discriminate].
  intros [= -> <-]. cbn [api_posts]. repeat split; auto.
  exists tok, pre. repeat split; auto.
  unfold extends in *. cbn [trace]. now rewrite X, app_assoc.
Qed.

Lemma do_post_posts (url : string) (payload : json) (w : World) :
  exists evs,
    extends w (snd (_do_post E url payload w)) evs /\ posts_are url payload evs.
Proof.
  rewrite do_post_unfold.
  pose proof (get_token_truthy w) as I.
  destruct (get_token_extends E w) as (pre & X & R & P & _).
  assert (Hpre : posts_are url payload pre).
  { clear - R P. unfold posts_are. induction R as [|ev evs H _ IH]; constructor.
    - destruct ev; auto. unfold count in P. simpl in P. discriminate.
    - apply IH. unfold count in *. destruct ev; simpl in *; auto; discriminate. }
  destruct (get_token E w) as [[tok|e] w0]; cbn [snd] in *.
  - pose proof (I _ _ eq_refl) as T.
    exists (pre ++ [EvPost url tok payload])%list. split.
    + unfold post_api. destruct (api_endpoint E (api_posts w0)); cbn [snd];
        unfold extends in *; cbn [trace]; now rewrite X, app_assoc.
    + apply Forall_app. split; [exact Hpre|].
      constructor; [now repeat split | constructor].
  - exists pre. split; auto.
Qed.

Lemma posts_are_app (url : string) (payload : json) (a b : list event) :
  posts_are url payload a -> posts_are url payload b -> posts_are url payload (a ++ b).
Proof. intros. apply Forall_app. now split. Qed.

Lemma posts_are_one (url : string) (payload : json) (ev : event) :
  is_post ev = false -> posts_are url payload [ev].
Proof. intros H. constructor; [|constructor]. destruct ev; auto; discriminate. Qed.

Lemma try_body_posts (url : string) (payload : json) (attempt : nat)
    (v : Locals) (w : World) :
  exists evs,
    extends w (snd (try_body E url payload attempt v w)) evs
    /\ posts_are url payload evs.
Proof.
  unfold try_body.
  destruct (do_post_posts url payload w) as (e1 & X1 & P1).
  destruct (_do_post E url payload w) as [[r|e] w1]; cbn [snd] in X1.
  2:{ exists e1. now split. }
  cbv beta iota zeta. cbn [refreshed_after_401 last_exc resp].
  assert (A : forall r' v' w',
             exists evs, extends w' (snd (after_401 attempt r' v' w')) evs
                         /\ posts_are url payload evs).
  { intros r' v' w'. unfold after_401. destruct (is_transient (status_code r')).
    - exists [EvSleep (backoff attempt)]. split; [reflexivity|].
      now apply posts_are_one.
    - exists []. split; [apply extends_refl | constructor]. }
  destruct (Z.eqb (status_code r) 401 && negb (refreshed_after_401 v)).
  - set (w2 := snd (_invalidate_token_cache w1)).
    assert (extends w1 w2 [EvInvalidate]) as X2 by reflexivity.
    destruct (do_post_posts url payload w2) as (e3 & X3 & P3).
    destruct (_do_post E url payload w2) as [[r2|e] w3]; cbn [snd] in X3.
    + destruct (A r2 (mkLocals (last_exc v) (Some r2) true) w3) as (e4 & X4 & P4).
      exists (e1 ++ [EvInvalidate] ++ e3 ++ e4)%list. split.
      * eauto using extends_trans.
      * repeat apply posts_are_app; auto. now apply posts_are_one.
    + exists (e1 ++ [EvInvalidate] ++ e3)%list. split.
      * eauto using extends_trans.
      * repeat apply posts_are_app; auto. now apply posts_are_one.
  - destruct (A r (mkLocals (last_exc v) (Some r) (refreshed_after_401 v)) w1)
      as (e4 & X4 & P4).
    exists (e1 ++ e4)%list. split; [eauto using extends_trans|].
    now apply posts_are_app.
Qed.

Lemma for_attempts_posts (url : string) (payload : json) (attempts : list nat) :
  forall v w,
  exists evs,
    extends w (snd (for_attempts E url payload attempts v w)) evs
    /\ posts_are url payload evs.
Proof.
  induction attempts as [|attempt rest IH]; intros v w; cbn [for_attempts].
  - exists []. split; [apply extends_refl | constructor].
  - unfold attempt_once.
    destruct (try_body_posts url payload attempt v w) as (e1 & X1 & P1).
    destruct (try_body E url payload attempt v w) as [[[f|e] v'] w']; cbn [snd] in X1.
    + destruct f.
      * exists e1. now split.
      * destruct (IH v' w') as (e2 & X2 & P2).
        exists (e1 ++ e2)%list. split; [eauto using extends_trans|].
        now apply posts_are_app.
    + destruct (is_network_exc e).
      * match goal with
        | |- context [for_attempts E url payload rest ?v2 ?w2] =>
            destruct (IH v2 w2) as (e2 & X2 & P2)
        end.
        exists (e1 ++ [EvSleep (backoff attempt)] ++ e2)%list. split.
        -- eapply extends_trans; [exact X1|].
           eapply extends_trans; [|exact X2]. reflexivity.
        -- repeat apply posts_are_app; auto. now apply posts_are_one.
      * exists e1. now split.
Qed.

(** Every request a transport call sends to the API goes to the one URL
    built from the base (ending in [/consult]) and the endpoint, with the
    payload of the call and a bearer token that is not empty. *)
Theorem transport_requests (endpoint : string) (payload : json) (w : World)
    (base : string) :
  _ensure_consult_base (Some (LEGIFRANCE_API_BASE E)) = Ok base ->
  exists evs,
    extends w (snd (_post_legifrance E endpoint payload w)) evs
    /\ posts_are (url_of base endpoint) payload evs.
Proof.
  intros Hb. rewrite post_legifrance_unfold, Hb.
  destruct (for_attempts_posts (url_of base endpoint) payload (seq 0 3)
              (mkLocals None None false) (entered endpoint payload w))
    as (evs & X & P).
  fold (url_of base endpoint).
  exists ([EvCall endpoint payload] ++ evs)%list. split.
  - assert (T : extends w (snd (for_attempts E (url_of base endpoint) payload (seq 0 3)
                                  (mkLocals None None false) (entered endpoint payload w)))
                  ([EvCall endpoint payload] ++ evs)).
    { eapply extends_trans; [|exact X]. reflexivity. }
    destruct (for_attempts E (url_of base endpoint) payload (seq 0 3) _ _)
      as [[v'|e] w']; cbn [snd] in *; auto.
    destruct (resp v') as [r|]; auto.
    destruct (Z.leb 400 (status_code r)); auto.
  - apply posts_are_app; auto. now apply posts_are_one.
Qed.

End CacheAndRequests.

Section FinalAnswers.

Variable E : Env.

Lemma do_post_api_posts (url : string) (payload : json) (w : World) :
  api_posts w <= api_posts (snd (_do_post E url payload w)).
Proof.
  rewrite do_post_unfold.
  pose proof (get_token_api_posts E w) as A.
  destruct (get_token E w) as [[tok|e] w0]; cbn [snd] in *; [|lia].
  unfold post_api. destruct (api_endpoint E (api_posts w0)); cbn [snd api_posts]; lia.
Qed.

Lemma after_401_api_posts (attempt : nat) (r : Response) (v : Locals) (w : World) :
  api_posts (snd (after_401 attempt r v w)) = api_posts w.
Proof. unfold after_401. now destruct (is_transient (status_code r)). Qed.

(** A pass that breaks out of the loop has just received its answer. *)
Lemma try_body_break (url : string) (payload : json) (attempt : nat)
    (v : Locals) (w : World) (v' : Locals) (w' : World) :
  try_body E url payload attempt v w = (Ok Break, v', w') ->
  exists r,
    resp v' = Some r
    /\ is_transient (status_code r) = false
    /\ api_endpoint E (pred (api_posts w')) = Responded r
    /\ api_posts w < api_posts w'.
Proof.
  unfold try_body.
  pose proof (do_post_api_posts url payload w) as M1.
  destruct (_do_post E url payload w) as [[r|e] w1] eqn:D1; [|discriminate].
  destruct (do_post_ok E _ _ _ _ _ D1) as (A1 & N1 & _). cbn [snd] in M1.
  cbv beta iota zeta. cbn [refreshed_after_401 last_exc resp].
  destruct (Z.eqb (status_code r) 401 && negb (refreshed_after_401 v)).
  - pose proof (do_post_api_posts url payload (snd (_invalidate_token_cache w1))) as M2.
    destruct (_do_post E url payload (snd (_invalidate_token_cache w1)))
      as [[r2|e] w3] eqn:D2; [|discriminate].
    destruct (do_post_ok E _ _ _ _ _ D2) as (A2 & N2 & _).
    cbn [snd _invalidate_token_cache api_posts] in *.
    unfold after_401. destruct (is_transient (status_code r2)) eqn:T; [discriminate|].
    intros [= <- <-]. exists r2. cbn [resp]. repeat split; auto.
    + now rewrite N2.
    + lia.
  - unfold after_401. destruct (is_transient (status_code r)) eqn:T; [discriminate|].
    intros [= <- <-]. exists r. cbn [resp]. repeat split; auto.
    + now rewrite N1.
    + lia.
Qed.

Lemma try_body_api_posts (url : string) (payload : json) (attempt : nat)
    (v : Locals) (w : World) :
  api_posts w <= api_posts (snd (try_body E url payload attempt v w)).
Proof.
  unfold try_body.
  pose proof (do_post_api_posts url payload w) as M1.
  destruct (_do_post E url payload w) as [[r|e] w1]; cbn [snd] in *; auto.
  cbv beta iota zeta. cbn [refreshed_after_401 last_exc resp].
  destruct (Z.eqb (status_code r) 401 && negb (refreshed_after_401 v)).
  - pose proof (do_post_api_posts url payload (snd (_invalidate_token_cache w1))) as M2.
    destruct (_do_post E url payload (snd (_invalidate_token_cache w1)))
      as [[r2|e] w3]; cbn [snd _invalidate_token_cache api_posts] in *.
    + rewrite after_401_api_posts. lia.
    + lia.
  - rewrite after_401_api_posts. lia.
Qed.

Lemma for_attempts_ok (url : string) (payload : json) (attempts : list nat) :
  forall v w v' w',
    for_attempts E url payload attempts v w = (Ok v', w') ->
    exists r,
      resp v' = Some r
      /\ is_transient (status_code r) = false
      /\ api_endpoint E (pred (api_posts w')) = Responded r
      /\ api_posts w < api_posts w'.
Proof.
  induction attempts as [|attempt rest IH]; intros v w v' w'; cbn [for_attempts];
    [discriminate|].
  unfold attempt_once.
  pose proof (try_body_api_posts url payload attempt v w) as M.
  destruct (try_body E url payload attempt v w) as [[[f|e] v1] w1] eqn:T; cbn [snd] in M.
  - destruct f.
    + intros [= <- <-]. now apply (try_body_break _ _ _ _ _ _ _ T).
    + intros H. destruct (IH _ _ _ _ H) as (r & R1 & R2 & R3 & R4).
      exists r. repeat split; auto. lia.
  - destruct (is_network_exc e); [|discriminate].
    intros H. destruct (IH _ _ _ _ H) as (r & R1 & R2 & R3 & R4).
    exists r. repeat split; auto. cbn [sleep emit snd api_posts] in R4. lia.
Qed.

Lemma for_attempts_api_posts (url : string) (payload : json) (attempts : list nat) :
  forall v w, api_posts w <= api_posts (snd (for_attempts E url payload attempts v w)).
Proof.
  induction attempts as [|attempt rest IH]; intros v w; cbn [for_attempts]; [cbn; lia|].
  unfold attempt_once.
  pose proof (try_body_api_posts url payload attempt v w) as M.
  destruct (try_body E url payload attempt v w) as [[[f|e] v1] w1]; cbn [snd] in M.
  - destruct f; cbn [snd]; [lia|]. etransitivity; [exact M | apply IH].
  - destruct (is_network_exc e); cbn [snd]; [|lia].
    etransitivity; [|apply IH]. cbn [sleep emit snd api_posts]. lia.
Qed.

(** A transport call never lowers the count of requests, and one that
    returns has sent a request. *)
Lemma post_legifrance_api_posts (endpoint : string) (payload : json) (w : World) :
  api_posts w <= api_posts (snd (_post_legifrance E endpoint payload w))
  /\ (forall j, fst (_post_legifrance E endpoint payload w) = Ok j ->
      api_posts w < api_posts (snd (_post_legifrance E endpoint payload w))).
Proof.
  rewrite post_legifrance_unfold.
  destruct (_ensure_consult_base (Some (LEGIFRANCE_API_BASE E))) as [base|e];
    [|split; [cbn; lia | discriminate]].
  pose proof (for_attempts_api_posts (base ++ "/" ++ PyStr.lstrip_char "/" endpoint)
                payload (seq 0 3) (mkLocals None None false)
                (entered endpoint payload w)) as M.
  destruct (for_attempts E _ payload (seq 0 3) _ _) as [[v'|e] w1] eqn:F;
    cbn [snd entered api_posts] in M.
  - destruct (for_attempts_ok _ _ _ _ _ _ _ F) as (r & R1 & _ & _ & R4).
    cbn [entered api_posts] in R4. rewrite R1.
    destruct (Z.leb 400 (status_code r)); cbn [fst snd];
      (split; [lia | intros; try discriminate; lia]).
  - cbn [fst snd]. split; [lia | discriminate].
Qed.

(** What a transport call returns is the JSON body of the last answer of
    the API, and that answer has a status below 400 that is not a retried
    one: the call never returns the body of an error answer, and never
    returns without having sent a request. *)
Theorem transport_success (endpoint : string) (payload : json) (w : World)
    (j : json) (w' : World) :
  _post_legifrance E endpoint payload w = (Ok j, w') ->
  exists r,
    api_endpoint E (pred (api_posts w')) = Responded r
    /\ (status_code r < 400)%Z
    /\ is_transient (status_code r) = false
    /\ body_json r = Some j
    /\ api_posts w < api_posts w'.
Proof.
  rewrite post_legifrance_unfold.
  destruct (_ensure_consult_base (Some (LEGIFRANCE_API_BASE E))) as [base|e];
    [|discriminate].
  destruct (for_attempts E _ payload (seq 0 3) _ _) as [[v'|e] w1] eqn:F;
    [|discriminate].
  destruct (for_attempts_ok _ _ _ _ _ _ _ F) as (r & R1 & R2 & R3 & R4).
  rewrite R1. destruct (Z.leb 400 (status_code r)) eqn:L; [discriminate|].
  unfold resp_json. destruct (body_json r) as [b|] eqn:B; [|discriminate].
  intros [= <- <-]. exists r. repeat split; auto.
  apply Z.leb_gt in L. lia.
Qed.

(** An answer to the first request that is neither 401 nor a retried
    status ends the call there, with one request to the API and no sleep:
    below 400 its JSON body is returned (a body that is not JSON raises the
    decoder's [ValueError]); from 400 on the call raises
    [LegifranceApiError] with the status and the body. *)
Theorem final_answer_first_attempt (endpoint : string) (payload : json) (w : World)
    (base : string) (r : Response) (w1 : World) :
  _ensure_consult_base (Some (LEGIFRANCE_API_BASE E)) = Ok base ->
  _do_post E (url_of base endpoint) payload (entered endpoint payload w) = (Ok r, w1) ->
  is_transient (status_code r) = false ->
  status_code r <> 401%Z ->
  _post_legifrance E endpoint payload w
  = (if Z.leb 400 (status_code r) then
       Raise (LegifranceApiError
                ("Appel Légifrance " ++ endpoint ++ " en erreur (status="
                 ++ PyStr.of_Z (status_code r) ++ ", body=" ++ text r ++ ")"))
     else match body_json r with
          | Some j => Ok j
          | None => Raise (ValueError "JSONDecodeError")
          end,
     w1)
  /\ api_posts w1 = S (api_posts w)
  /\ exists evs, extends w w1 evs /\ sleeps evs = [] /\ count is_invalidate evs = 0.
Proof.
  intros Hb D T N.
  pose proof (attempt_once_final E _ payload 0 (mkLocals None None false) _ r w1 D T N)
    as A.
  split; [|split].
  - rewrite post_legifrance_unfold, Hb. fold (url_of base endpoint).
    cbn [seq for_attempts]. rewrite A. cbn [resp last_exc refreshed_after_401].
    destruct (Z.leb 400 (status_code r)); reflexivity.
  - destruct (do_post_ok E _ _ _ _ _ D) as (_ & H & _). exact H.
  - destruct (do_post_ok E _ _ _ _ _ D) as (_ & _ & tok & pre & _ & X & R & _).
    destruct (requests_only_facts _ R) as (_ & I & S & _).
    exists ([EvCall endpoint payload] ++ pre ++ [EvPost (url_of base endpoint) tok payload])%list.
    split; [|split].
    + eapply extends_trans; [|exact X]. reflexivity.
    + now rewrite !sleeps_app, S.
    + rewrite !count_app, I. reflexivity.
Qed.

End FinalAnswers.

(** A 404 answer: one request, then the error. *)
Lemma final_answer_first_attempt_witness :
  let E := Sample.env (Some "id") [Sample.token_response "T1" (JInt 3600)]
             [Sample.status 404 "not found"] in
  fst (_post_legifrance E "/getArticle" JNull initial_world)
  = Raise (LegifranceApiError
             "Appel Légifrance /getArticle en erreur (status=404, body=not found)").
Proof.
  intros E.
  edestruct (final_answer_first_attempt E "/getArticle" JNull initial_world) as (H & _);
    [reflexivity | vm_compute; reflexivity | reflexivity | discriminate |].
  rewrite H. reflexivity.
Defined.

(** A successful search after two 503 answers: what is returned is the
    body of the third answer. *)
Lemma transport_success_witness :
  let E := Sample.env (Some "id") [Sample.token_response "T1" (JInt 3600)]
             [Sample.status 503 "busy"; Sample.status 503 "busy";
              Sample.ok Sample.search_one] in
  exists r,
    api_endpoint E 2 = Responded r /\ (status_code r < 400)%Z
    /\ body_json r = Some Sample.search_one.
Proof.
  intros E.
  destruct (transport_success E "search" JNull initial_world Sample.search_one
              (snd (_post_legifrance E "search" JNull initial_world)))
    as (r & A & L & _ & B & _).
  - vm_compute. reflexivity.
  - exists r. split; [exact A|]. split; [exact L | exact B].
Defined.

(** With the sample base, which lacks the [/consult] segment and needs no
    stripping, every request goes to the [/consult] URL of the endpoint. *)
Lemma transport_requests_witness :
  let E := Sample.env (Some "id") [Sample.token_response "T1" (JInt 3600)]
             [Sample.status 503 "busy"; Sample.ok Sample.search_one] in
  exists evs,
    extends initial_world (snd (_post_legifrance E "//search" JNull initial_world)) evs
    /\ posts_are
         "https://api.piste.gouv.fr/dila/legifrance/lf-engine-app/consult/search"
         JNull evs.
Proof.
  intros E.
  apply (transport_requests E "//search" JNull initial_world
           "https://api.piste.gouv.fr/dila/legifrance/lf-engine-app/consult").
  reflexivity.
Defined.

(* ================================================================== *)
(** ** Blank hints *)
(* ================================================================== *)

Section Blank.

Lemma chars_str (l : list ascii) : PyStr.chars (PyStr.str l) = l.
Proof. apply list_ascii_of_string_of_list_ascii. Qed.

Lemma str_chars (s : string) : PyStr.str (PyStr.chars s) = s.
Proof. apply string_of_list_ascii_of_string. Qed.

Lemma truthy_str (l : list ascii) :
  PyStr.truthy (PyStr.str l) = match l with [] => false | _ => true end.
Proof. now destruct l. Qed.

Lemma truthy_chars (s : string) :
  PyStr.truthy s = match PyStr.chars s with [] => false | _ => true end.
Proof. now destruct s. Qed.

Lemma lstrip_nil_iff (p : ascii -> bool) (l : list ascii) :
  PyStr.lstrip_by p l = [] <-> forallb p l = true.
Proof.
  induction l as [|c l IH]; simpl; [tauto|].
  destruct (p c); simpl; [exact IH|]. split; discriminate.
Qed.

Lemma forallb_rev {A} (p : A -> bool) (l : list A) : forallb p (rev l) = forallb p l.
Proof.
  induction l as [|a l IH]; simpl; auto.
  rewrite forallb_app, IH. simpl. rewrite andb_true_r. apply andb_comm.
Qed.

Lemma lstrip_forallb (p : ascii -> bool) (l : list ascii) :
  forallb p (PyStr.lstrip_by p l) = forallb p l.
Proof.
  induction l as [|c l IH]; simpl; auto.
  destruct (p c) eqn:P; simpl; rewrite ?P; auto.
Qed.

Lemma strip_blank (s : string) : PyStr.truthy (PyStr.strip s) = negb (blank s).
Proof.
  unfold PyStr.strip, PyStr.rstrip_by, blank. rewrite truthy_str.
  set (l := PyStr.chars s).
  destruct (forallb PyStr.is_space l) eqn:B.
  - apply lstrip_nil_iff in B. now rewrite B.
  - destruct (rev (PyStr.lstrip_by PyStr.is_space
                     (rev (PyStr.lstrip_by PyStr.is_space l)))) as [|c r] eqn:R; auto.
    apply (f_equal (@rev ascii)) in R. rewrite rev_involutive in R. simpl in R.
    apply lstrip_nil_iff in R. now rewrite forallb_rev, lstrip_forallb, B in R.
Qed.

Lemma re_sub_truthy (m : list ascii -> option (list ascii * list ascii)) (s : string) :
  replacing m -> PyStr.truthy (PyStr.re_sub m s) = PyStr.truthy s.
Proof.
  intros Hm. unfold PyStr.re_sub. rewrite truthy_str, truthy_chars.
  destruct (PyStr.chars s) as [|c r]; cbn [PyStr.sub_scan]; auto.
  destruct (m (c :: r)) as [[repl rest]|] eqn:M; auto.
  apply Hm in M. destruct repl; [contradiction|reflexivity].
Qed.

Lemma m_ws_hyphen_ws_replacing : replacing PyStr.m_ws_hyphen_ws.
Proof.
  intros l repl rest. unfold PyStr.m_ws_hyphen_ws.
  destruct (PyStr.lstrip_by PyStr.is_space l) as [|c r]; [discriminate|].
  destruct (Ascii.eqb c "-") eqn:Ec.
  - apply Ascii.eqb_eq in Ec. subst c. intros [= <- _]. discriminate.
  - destruct c as [[] [] [] [] [] [] [] []]; try discriminate.
Qed.

Lemma m_ws_plus_replacing : replacing PyStr.m_ws_plus.
Proof.
  intros l repl rest. unfold PyStr.m_ws_plus.
  destruct l as [|c r]; [discriminate|].
  destruct (PyStr.is_space c); [|discriminate]. intros [= <- _]. discriminate.
Qed.

Lemma sub_letter_ws_digit_truthy (s : string) :
  PyStr.truthy (PyStr.sub_letter_ws_digit s) = PyStr.truthy s.
Proof.
  unfold PyStr.sub_letter_ws_digit. rewrite (truthy_chars s).
  destruct (PyStr.chars s) as [|a [|w r]] eqn:C; try now rewrite truthy_chars, C.
  destruct (PyStr.is_alpha a && PyStr.is_space w); [|now rewrite truthy_chars, C].
  destruct (PyStr.lstrip_by PyStr.is_space (w :: r)) as [|d r'];
    [now rewrite truthy_chars, C|].
  destruct (PyStr.is_digit d); [reflexivity | now rewrite truthy_chars, C].
Qed.

Lemma normalize_code_title_blank (hint : string) :
  PyStr.truthy_opt (normalize_code_title (Some hint)) = negb (blank hint).
Proof.
  unfold normalize_code_title. cbn [PyStr.truthy_opt PyStr.of_opt].
  destruct (PyStr.truthy hint) eqn:H; cbn [negb PyStr.truthy_opt].
  - now rewrite (re_sub_truthy _ _ m_ws_plus_replacing), strip_blank.
  - now destruct hint.
Qed.

Lemma normalize_article_num_blank (hint : string) :
  PyStr.truthy_opt (normalize_article_num (Some hint)) = negb (blank hint).
Proof.
  unfold normalize_article_num. cbn [PyStr.truthy_opt PyStr.of_opt].
  destruct (PyStr.truthy hint) eqn:H; cbn [negb PyStr.truthy_opt].
  - now rewrite (re_sub_truthy _ _ m_ws_plus_replacing), sub_letter_ws_digit_truthy,
      (re_sub_truthy _ _ m_ws_hyphen_ws_replacing), strip_blank.
  - now destruct hint.
Qed.

(** A hint that is not blank has a normal form, a string that is not empty. *)
Lemma normalize_code_title_some (hint : string) :
  blank hint = false ->
  exists t, normalize_code_title (Some hint) = Some t /\ PyStr.truthy t = true.
Proof.
  intros B. pose proof (normalize_code_title_blank hint) as H. rewrite B in H.
  destruct (normalize_code_title (Some hint)) as [t|]; [|discriminate]. now exists t.
Qed.

Lemma normalize_article_num_some (hint : string) :
  blank hint = false ->
  exists t, normalize_article_num (Some hint) = Some t /\ PyStr.truthy t = true.
Proof.
  intros B. pose proof (normalize_article_num_blank hint) as H. rewrite B in H.
  destruct (normalize_article_num (Some hint)) as [t|]; [|discriminate]. now exists t.
Qed.

End Blank.

(* ================================================================== *)
(** ** Where exceptions come from *)
(* ================================================================== *)

Section Exceptions.

Variable E : Env.

Lemma int_origin (v : json) (e : exn) : PyInt.int v = Raise e -> is_internal_exc e = true.
Proof.
  destruct v; cbn; try discriminate; try (now intros [= <-]).
  destruct (PyInt.of_str s); [discriminate | now intros [= <-]].
Qed.

Lemma fetch_origin (w : World) (e : exn) (w' : World) :
  _fetch_new_token E w = (Raise e, w') -> origin E e.
Proof.
  destruct (PyStr.truthy_opt (PISTE_CLIENT_ID E)) eqn:C1;
    [destruct (PyStr.truthy_opt (PISTE_CLIENT_SECRET E)) eqn:C2|].
  - rewrite (fetch_unfold E C1 C2).
    destruct (token_endpoint E (token_posts w)) as [rt|e0] eqn:T.
    + destruct (negb (Z.eqb (status_code rt) 200)); [intros [= <- _]; now left|].
      destruct (body_json rt) as [[]|]; try (intros [= <- _]; now left).
      cbv zeta. destruct (negb (Json.truthy (Json.get d "access_token")));
        [intros [= <- _]; now left|].
      destruct (PyInt.int _) as [n|e0] eqn:I; [discriminate|].
      intros [= <- _]. left. exact (int_origin _ _ I).
    + intros [= <- _]. right. exists (token_posts w). now left.
  - unfold _fetch_new_token. rewrite C1, C2. intros [= <- _]. now left.
  - unfold _fetch_new_token. rewrite C1. intros [= <- _]. now left.
Qed.

Lemma get_token_origin (w : World) (e : exn) (w' : World) :
  get_token E w = (Raise e, w') -> origin E e.
Proof.
  rewrite get_token_unfold.
  destruct (cache_valid _ w); [discriminate|].
  destruct (cache_valid _ w); [discriminate|]. apply fetch_origin.
Qed.

Lemma do_post_origin (url : string) (payload : json) (w : World) (e : exn) (w' : World) :
  _do_post E url payload w = (Raise e, w') -> origin E e.
Proof.
  rewrite do_post_unfold.
  destruct (get_token E w) as [[tok|e0] w0] eqn:G.
  - unfold post_api. destruct (api_endpoint E (api_posts w0)) as [r|e0] eqn:A;
      [discriminate|].
    intros [= <- _]. right. exists (api_posts w0). now right.
  - intros [= <- _]. exact (get_token_origin _ _ _ G).
Qed.

Lemma try_body_origin (url : string) (payload : json) (attempt : nat)
    (v : Locals) (w : World) (e : exn) (v' : Locals) (w' : World) :
  try_body E url payload attempt v w = (Raise e, v', w') -> origin E e.
Proof.
  unfold try_body.
  destruct (_do_post E url payload w) as [[r|e0] w1] eqn:D1.
  - destruct (Z.eqb (status_code r) 401 && _).
    + cbv zeta.
      destruct (_do_post E url payload (snd (_invalidate_token_cache w1)))
        as [[r2|e0] w3] eqn:D2.
      * unfold after_401. destruct (is_transient _); discriminate.
      * intros [= <- _ _]. exact (do_post_origin _ _ _ _ _ D2).
    + unfold after_401. destruct (is_transient _); discriminate.
  - intros [= <- _ _]. exact (do_post_origin _ _ _ _ _ D1).
Qed.

Lemma attempt_once_origin (url : string) (payload : json) (attempt : nat)
    (v : Locals) (w : World) (e : exn) (v' : Locals) (w' : World) :
  attempt_once E url payload attempt v w = (Raise e, v', w') ->
  origin E e /\ is_network_exc e = false.
Proof.
  unfold attempt_once.
  destruct (try_body E url payload attempt v w) as [[[f|e0] v0] w0] eqn:T;
    [discriminate|].
  destruct (is_network_exc e0) eqn:N; [discriminate|].
  intros [= <- _ _]. split; [exact (try_body_origin _ _ _ _ _ _ _ _ T) | exact N].
Qed.

Lemma for_attempts_origin (url : string) (payload : json) (attempts : list nat)
    (v : Locals) (w : World) (e : exn) (w' : World) :
  for_attempts E url payload attempts v w = (Raise e, w') ->
  origin E e /\ is_network_exc e = false.
Proof.
  revert v w. induction attempts as [|a rest IH]; intros v w; cbn [for_attempts].
  - intros [= <- _]. split; [now left | reflexivity].
  - destruct (attempt_once E url payload a v w) as [[[[]|e0] v0] w0] eqn:A.
    + discriminate.
    + apply IH.
    + intros [= <- _]. exact (attempt_once_origin _ _ _ _ _ _ _ _ A).
Qed.

Lemma post_legifrance_origin (endpoint : string) (payload : json) (w : World)
    (e : exn) (w' : World) :
  _post_legifrance E endpoint payload w = (Raise e, w') ->
  origin E e /\ is_network_exc e = false.
Proof.
  rewrite post_legifrance_unfold.
  destruct (_ensure_consult_base _) as [base|e0] eqn:B.
  - destruct (for_attempts E _ payload (seq 0 3) _ _) as [[v|e0] w0] eqn:F.
    + destruct (resp v) as [r|]; [|intros [= <- _]; split; [now left|reflexivity]].
      destruct (Z.leb 400 (status_code r));
        [intros [= <- _]; split; [now left|reflexivity]|].
      unfold resp_json. destruct (body_json r); [discriminate|].
      intros [= <- _]. split; [now left|reflexivity].
    + intros [= <- _]. exact (for_attempts_origin _ _ _ _ _ _ _ F).
  - unfold _ensure_consult_base in B.
    destruct (negb (PyStr.truthy _)); [|destruct (negb _); discriminate].
    injection B as <-. intros [= <- _]. split; [now left|reflexivity].
Qed.


End Exceptions.


(* ================================================================== *)
(** ** Outcomes of the resolution *)
(* ================================================================== *)

Section Outcomes.

Variable E : Env.
Hypothesis httpx : httpx_only E.

Lemma origin_not_resolution (e : exn) :
  origin E e -> is_resolution_exc e = false.
Proof.
  intros [I | (n & H)]; [now destruct e|].
  apply httpx in H. now destruct e.
Qed.

Lemma post_legifrance_ok (endpoint : string) (payload : json) (w : World)
    (j : json) (w' : World) :
  _post_legifrance E endpoint payload w = (Ok j, w') ->
  1 + api_posts w <= api_posts w'
  /\ exists answer,
       api_endpoint E (pred (api_posts w')) = Responded answer
       /\ body_json answer = Some j.
Proof.
  intros P. split.
  - destruct (post_legifrance_api_posts E endpoint payload w) as [_ H].
    rewrite P in H. cbn [fst snd] in H. specialize (H j eq_refl). lia.
  - revert P. rewrite post_legifrance_unfold.
    destruct (_ensure_consult_base (Some (LEGIFRANCE_API_BASE E))) as [base|e];
      [|discriminate].
    destruct (for_attempts E _ payload (seq 0 3) _ _) as [[v'|e] w1] eqn:F;
      [|discriminate].
    destruct (for_attempts_ok _ _ _ _ _ _ _ _ F) as (r & R1 & _ & R3 & _).
    rewrite R1. destruct (Z.leb 400 (status_code r)); [discriminate|].
    unfold resp_json. destruct (body_json r) as [b|] eqn:B; [|discriminate].
    intros [= <- <-]. now exists r.
Qed.

Lemma post_legifrance_raise (endpoint : string) (payload : json) (w : World)
    (e : exn) (w' : World) :
  _post_legifrance E endpoint payload w = (Raise e, w') ->
  is_resolution_exc e = false /\ is_network_exc e = false
  /\ api_posts w <= api_posts w'.
Proof.
  intros P. destruct (post_legifrance_origin _ _ _ _ _ _ P) as [O N].
  split; [now apply origin_not_resolution|]. split; [exact N|].
  destruct (post_legifrance_api_posts E endpoint payload w) as [H _].
  now rewrite P in H.
Qed.

Lemma extracted_ids (search_resp : json) (ids : list string) :
  _extract_legiarti_id_from_search search_resp = Ok ids ->
  NoDup ids /\ Forall (fun x => PyStr.startswith x "LEGIARTI" = true) ids.
Proof.
  destruct search_resp; try discriminate.
  - rewrite extract_dict. intros [= <-]. split; [apply first_occurrences_NoDup|].
    apply Forall_forall. intros x Hx. apply (proj1 (first_occurrences_In _ _)) in Hx.
    exact (collected_legiarti _ _ Hx).
Qed.

Lemma firstn_candidates (ids : list string) :
  3 < List.length ids ->
  NoDup ids -> Forall (fun x => PyStr.startswith x "LEGIARTI" = true) ids ->
  well_formed_candidates (candidates_of (firstn 10 ids)).
Proof.
  intros L N F. exists (firstn 10 ids). split; [reflexivity|]. split; [|split].
  - rewrite length_firstn. lia.
  - rewrite <- (firstn_skipn 10 ids) in N. now apply NoDup_app_remove_r in N.
  - rewrite <- (firstn_skipn 10 ids) in F. now apply Forall_app in F.
Qed.

Lemma resolve_from_search_post (code_title num : string)
    (date_hint : option string) (search_resp : json) (w : World) :
  match resolve_from_search E code_title num date_hint search_resp w with
  | (Ok resolved, w') =>
      source resolved = "CODE"
      /\ PyStr.startswith (legiarti_id resolved) "LEGIARTI" = true
      /\ article_num resolved = Some num
      /\ date_version resolved = date_hint
      /\ title resolved = _extract_title_from_article_resp (raw resolved)
      /\ 1 + api_posts w <= api_posts w'
      /\ exists answer,
           api_endpoint E (pred (api_posts w')) = Responded answer
           /\ body_json answer = Some (raw resolved)
  | (Raise (TooBroadError _), _) => False
  | (Raise (NotFoundError _), w') => w' = w
  | (Raise (AmbiguousError _ candidates), w') =>
      w' = w /\ well_formed_candidates candidates
  | (Raise e, w') => is_network_exc e = false /\ api_posts w <= api_posts w'
  end.
Proof.
  rewrite resolve_from_search_unfold.
  destruct (_extract_legiarti_id_from_search search_resp) as [[|first rest]|e] eqn:X.
  - reflexivity.
  - destruct (extracted_ids _ _ X) as [N F].
    destruct (Nat.ltb 3 (List.length (first :: rest))) eqn:L.
    + split; [reflexivity|]. apply Nat.ltb_lt in L. now apply firstn_candidates.
    + unfold lf_get_article.
      destruct (_post_legifrance E "getArticle" _ w) as [[a|e] w'] eqn:P.
      * destruct (post_legifrance_ok _ _ _ _ _ P) as (A & B).
        cbn [source legiarti_id article_num date_version title raw].
        repeat split; auto. now inversion F.
      * destruct (post_legifrance_raise _ _ _ _ _ P) as (A & B & C).
        destruct e; try discriminate; now split.
  - destruct search_resp; try (rewrite extract_dict in X; discriminate);
      cbn in X; injection X as <-; (split; [reflexivity | lia]).
Qed.

Lemma search_payload_raise (code_title article_num : string)
    (date_hint : option string) (e : exn) :
  _search_payload_code_article code_title article_num date_hint = Raise e ->
  iso_date_to_millis date_hint = Raise e /\ exists m, e = ValueError m.
Proof.
  unfold _search_payload_code_article.
  destruct (PyStr.truthy_opt date_hint) eqn:T; [|discriminate].
  destruct (iso_date_to_millis date_hint) as [m|e0] eqn:I; [discriminate|].
  intros [= <-]. split; [reflexivity|].
  unfold iso_date_to_millis in I. rewrite T in I. cbn [negb] in I.
  unfold Dates.strptime_ymd in I.
  destruct (Dates.match_ymd _) as [[[[y m] d] [|c rest]]|];
    try (injection I as <-; eauto).
  destruct (Z.leb 1 y && Z.leb d (Dates.days_in_month y m))%bool;
    [discriminate | injection I as <-; eauto].
Qed.

Lemma resolve_outcome (code_hint article_hint : string) (date_hint : option string)
    (w : World) :
  resolve_post E code_hint article_hint date_hint w
    (fst (resolve_code_article E code_hint article_hint date_hint w))
    (snd (resolve_code_article E code_hint article_hint date_hint w)).
Proof.
  destruct (blank code_hint) eqn:Bc; [|destruct (blank article_hint) eqn:Ba].
  - unfold resolve_code_article. rewrite normalize_code_title_blank, Bc.
    cbn. now rewrite Bc.
  - unfold resolve_code_article. rewrite normalize_article_num_blank, Ba.
    rewrite orb_true_r. cbn. now rewrite Ba, orb_true_r.
  - destruct (normalize_code_title_some _ Bc) as (ct & Hc & Tc).
    destruct (normalize_article_num_some _ Ba) as (an & Ha & Ta).
    rewrite (resolve_unfold E _ _ _ _ _ _ Hc Tc Ha Ta).
    destruct (_search_payload_code_article ct an date_hint) as [payload|e] eqn:Hp.
    2:{ destruct (search_payload_raise _ _ _ _ Hp) as (_ & m & ->). now cbn. }
    assert (K : forall sr w1, api_posts w < api_posts w1 ->
                resolve_post E code_hint article_hint date_hint w
                  (fst (resolve_from_search E ct an date_hint sr w1))
                  (snd (resolve_from_search E ct an date_hint sr w1))).
    { intros sr w1 L. pose proof (resolve_from_search_post ct an date_hint sr w1) as R.
      destruct (resolve_from_search E ct an date_hint sr w1) as [[art|e] w'];
        cbn [fst snd].
      - destruct R as (R1 & R2 & R3 & R4 & R5 & R6 & R7). unfold resolve_post.
        rewrite Ha. repeat split; auto. lia.
      - destruct e; cbn [resolve_post]; try contradiction;
          try subst w'; try (destruct R as [R1 R2]); try subst w';
          repeat split; auto; lia. }
    unfold lf_search.
    destruct (_post_legifrance E "search" payload w) as [[sr|e] w1] eqn:P1.
    + apply K. destruct (post_legifrance_ok _ _ _ _ _ P1). lia.
    + destruct (post_legifrance_raise _ _ _ _ _ P1) as (_ & _ & M1).
      destruct (_post_legifrance E "search" (_fallback_payload_code_only ct) w1)
        as [[sr|e2] w2] eqn:P2.
      * apply K. destruct (post_legifrance_ok _ _ _ _ _ P2). lia.
      * destruct (post_legifrance_raise _ _ _ _ _ P2) as (A & B & _).
        cbn [fst snd]. destruct e2; try discriminate; now cbn.
Qed.

End Outcomes.

(* ================================================================== *)
(** ** The resolver, the route and the dispatcher *)
(* ================================================================== *)

Lemma nth_last_script (script : list http_result) (n : nat) (e : exn) :
  httpx_script script = true ->
  nth n script (last script (Failed (NetworkError "no route"))) = Failed e ->
  is_httpx_exc e = true.
Proof.
  intros H.
  assert (L : forall d, (forall e', d = Failed e' -> is_httpx_exc e' = true) ->
                        forall e', last script d = Failed e' -> is_httpx_exc e' = true).
  { induction script as [|a l IH]; intros d Hd e'; cbn [last]; [apply Hd|].
    cbn in H. apply andb_true_iff in H. destruct H as [Ha Hl].
    destruct l as [|b l']; [intros ->; exact Ha|]. now apply IH. }
  destruct (nth_in_or_default n script (last script (Failed (NetworkError "no route"))))
    as [I | ->].
  - intros Q. rewrite Q in I. unfold httpx_script in H.
    rewrite forallb_forall in H. exact (H _ I).
  - apply L. now intros e' [= <-].
Qed.

Lemma sample_httpx_only (client_id : option string)
    (token_script api_script : list http_result) :
  httpx_script token_script = true -> httpx_script api_script = true ->
  httpx_only (Sample.env client_id token_script api_script).
Proof.
  intros Ht Ha n e [H | H]; cbn in H.
  - exact (nth_last_script _ _ _ Ht H).
  - exact (nth_last_script _ _ _ Ha H).
Qed.

Section Callers.

Variable E : Env.
Hypothesis httpx : httpx_only E.




(** The dispatcher, when [client.post] raises exceptions of [httpx] only.
    It answers with a dictionary whose ["ok"] field tells whether the
    payload was handed to [resolve_code_article]: if so the answer names the
    source ["CODE"], an identifier that starts with [LEGIARTI] and the
    normalized article number, after two requests to the API at least; if
    not the answer carries one of the four error codes and the state is
    untouched.  The dispatcher raises for payloads it hands over only, and
    then what [resolve_code_article] raises. *)
Theorem dispatch_answers (payload : Dispatch.MakePayload) (w : World) :
  match Dispatch.dispatch_from_make_json E payload w with
  | (Ok (JDict content), w') =>
      Json.get content "ok" = JBool (delegates payload)
      /\ if delegates payload then
           Json.get content "source" = JStr "CODE"
           /\ (exists id, Json.get content "legiarti_id" = JStr id
                          /\ PyStr.startswith id "LEGIARTI" = true)
           /\ Json.get content "article"
              = json_of_opt (normalize_article_num (Dispatch.article_hint payload))
           /\ Json.get content "date_version" = json_of_opt (Dispatch.date_hint payload)
           /\ 2 + api_posts w <= api_posts w'
         else
           w' = w
           /\ exists code, Json.get content "error" = JStr code /\ In code refusals
  | (Ok _, _) => False
  | (Raise e, w') =>
      delegates payload = true
      /\ fst (resolve_code_article E (PyStr.of_opt (Dispatch.code_hint payload))
                (PyStr.of_opt (Dispatch.article_hint payload))
                (Dispatch.date_hint payload) w) = Raise e
      /\ is_network_exc e = false
  end.
Proof.
  unfold Dispatch.dispatch_from_make_json, delegates, refusals.
  assert (R : forall code : string,
             In code ["NOT_LEGAL"; "TOO_VAGUE"; "WRONG_ROUTE"; "NOT_IMPLEMENTED"] ->
             exists code', JStr code = JStr code'
               /\ In code' ["NOT_LEGAL"; "TOO_VAGUE"; "WRONG_ROUTE"; "NOT_IMPLEMENTED"])
    by (intros code H; now exists code).
  destruct (Dispatch.is_str (Dispatch.intent payload) "NOT_LEGAL");
    [cbn; repeat split; apply R; cbn; tauto|].
  destruct (Dispatch.is_str (Dispatch.intent payload) "TOO_VAGUE");
    [cbn; repeat split; apply R; cbn; tauto|].
  destruct (Dispatch.is_str (Dispatch.route_target payload) "RESOLVE");
    [|cbn; repeat split; apply R; cbn; tauto].
  cbn [negb andb].
  destruct (Dispatch.code_hint payload) as [c|];
    [|cbn; repeat split; apply R; cbn; tauto].
  destruct (Dispatch.article_hint payload) as [a|];
    [|rewrite andb_false_r; cbn; repeat split; apply R; cbn; tauto].
  cbn [PyStr.truthy_opt PyStr.of_opt].
  destruct (PyStr.truthy c && PyStr.truthy a) eqn:T;
    [|cbn; repeat split; apply R; cbn; tauto].
  pose proof (resolve_outcome E httpx c a (Dispatch.date_hint payload) w) as P.
  unfold bind, ret.
  destruct (resolve_code_article E c a (Dispatch.date_hint payload) w)
    as [[resolved|e] w']; cbn [fst snd] in P |- *.
  - destruct P as (B1 & B2 & S & I & A & D & _ & N & _).
    split; [reflexivity|]. rewrite <- A, <- D, <- S.
    repeat split; auto. now exists (legiarti_id resolved).
  - split; [reflexivity|]. split; [reflexivity|].
    destruct e; cbn [resolve_post] in P; try reflexivity;
      now destruct P as (_ & _ & N).
Qed.

(** A hint that is blank without being empty goes through the checks of
    the dispatcher: the payload is handed over, [resolve_code_article]
    raises [TooBroadError], and the dispatcher lets it out where the route
    answers the same hints with status 400.  Neither sends a request. *)
Theorem blank_hint_dispatcher_and_route (payload : Dispatch.MakePayload)
    (code article : string) (w : World) :
  delegates payload = true ->
  Dispatch.code_hint payload = Some code ->
  Dispatch.article_hint payload = Some article ->
  blank code || blank article = true ->
  Dispatch.dispatch_from_make_json E payload w
  = (Raise (TooBroadError "code_hint ou article_hint manquant"), w)
  /\ code_article E code article (Dispatch.date_hint payload) w
     = (Ok (400%Z,
            JDict [("ok", JBool false); ("error", JStr "TOO_BROAD");
                   ("message", JStr "code_hint ou article_hint manquant")]), w).
Proof.
  intros D Hc Ha B.
  assert (R : forall d, resolve_code_article E code article d w
                        = (Raise (TooBroadError "code_hint ou article_hint manquant"), w)).
  { intros d. unfold resolve_code_article.
    rewrite normalize_code_title_blank, normalize_article_num_blank, <- negb_andb.
    rewrite negb_andb, !negb_involutive, B. reflexivity. }
  split.
  - unfold delegates in D. rewrite Hc, Ha in D.
    apply andb_true_iff in D. destruct D as [D Ta].
    apply andb_true_iff in D. destruct D as [D Tc].
    apply andb_true_iff in D. destruct D as [D Rt].
    apply andb_true_iff in D. destruct D as [N1 N2].
    apply negb_true_iff in N1, N2.
    unfold Dispatch.dispatch_from_make_json.
    rewrite N1, N2, Rt, Hc, Ha, Tc, Ta. cbn [negb andb PyStr.of_opt].
    unfold bind. now rewrite R.
  - unfold code_article. now rewrite R.
Qed.

End Callers.




(** A payload that is handed over and resolved. *)
Lemma dispatch_answers_witness :
  let E := Sample.env (Some "id") [Sample.token_response "T1" (JInt 3600)]
             [Sample.ok Sample.search_one; Sample.ok Sample.article] in
  let payload := Dispatch.mkMakePayload (JStr "LEGAL") (JStr "RESOLVE")
                   (Some "Code du travail") (Some "L 1221-1") None (JList []) in
  exists content,
    fst (Dispatch.dispatch_from_make_json E payload initial_world) = Ok (JDict content)
    /\ Json.get content "ok" = JBool true
    /\ Json.get content "article" = JStr "L1221-1".
Proof.
  intros E payload.
  assert (Hx : httpx_only E) by (apply sample_httpx_only; reflexivity).
  pose proof (dispatch_answers E Hx payload initial_world) as H.
  remember (Dispatch.dispatch_from_make_json E payload initial_world) as out eqn:C.
  vm_compute in C. subst out. lazy beta iota in H.
  destruct H as (K & H). change (delegates payload) with true in H.
  lazy beta iota in H. destruct H as (_ & _ & A & _).
  eexists. split; [reflexivity|]. split; [exact K | exact A].
Defined.

(** A code hint of three spaces. *)
Lemma blank_hint_dispatcher_and_route_witness :
  let E := Sample.env (Some "id") [Sample.token_response "T1" (JInt 3600)]
             [Sample.ok Sample.search_one; Sample.ok Sample.article] in
  Dispatch.dispatch_from_make_json E
    (Dispatch.mkMakePayload (JStr "LEGAL") (JStr "RESOLVE")
       (Some "   ") (Some "L 1221-1") None (JList []))
    initial_world
  = (Raise (TooBroadError "code_hint ou article_hint manquant"), initial_world).
Proof.
  intros E.
  apply (blank_hint_dispatcher_and_route E
           (Dispatch.mkMakePayload (JStr "LEGAL") (JStr "RESOLVE")
              (Some "   ") (Some "L 1221-1") None (JList []))
           "   " "L 1221-1" initial_world); reflexivity.
Defined.

(* ================================================================== *)
(** ** The configuration check and the token request *)
(* ================================================================== *)

Section Configuration.

Variable E : Env.

Lemma check_config_credentials :
  match check_config E with
  | inl _ =>
      PyStr.truthy_opt (PISTE_CLIENT_ID E) = true
      /\ PyStr.truthy_opt (PISTE_CLIENT_SECRET E) = true
  | inr _ =>
      negb (PyStr.truthy_opt (PISTE_CLIENT_ID E))
      || negb (PyStr.truthy_opt (PISTE_CLIENT_SECRET E)) = true
  end.
Proof.
  unfold check_config, missing_config.
  destruct (PyStr.truthy_opt (PISTE_CLIENT_ID E));
    destruct (PyStr.truthy_opt (PISTE_CLIENT_SECRET E)); cbn; auto.
Qed.

(** [check_config] and [_fetch_new_token] agree on what a usable
    configuration is.  When the check passes, a refresh always sends its
    request to the token endpoint.  When it raises, its message names the
    missing variables (one or two of them); a refresh then raises
    [LegifranceAuthError] without a request and without touching the state,
    and so does, with no request, no retry and no sleep, every transport
    call that finds the token cache empty. *)
Theorem check_config_and_refresh :
  match check_config E with
  | inl _ =>
      forall w, token_posts (snd (_fetch_new_token E w)) = S (token_posts w)
  | inr message =>
      (exists names,
          message = "Configuration manquante dans .env : " ++ join_comma names
          /\ (names = ["PISTE_CLIENT_ID"] \/ names = ["PISTE_CLIENT_SECRET"]
              \/ names = ["PISTE_CLIENT_ID"; "PISTE_CLIENT_SECRET"]))
      /\ (forall w, _fetch_new_token E w = (Raise missing_credentials, w))
      /\ (forall endpoint payload w base,
            Json.truthy (_access_token w) = false ->
            _ensure_consult_base (Some (LEGIFRANCE_API_BASE E)) = Ok base ->
            _post_legifrance E endpoint payload w
            = (Raise missing_credentials, tick 2 (entered endpoint payload w)))
  end.
Proof.
  pose proof check_config_credentials as C.
  destruct (check_config E) as [[]|message] eqn:K.
  - destruct C as [C1 C2]. intros w.
    rewrite (fetch_unfold E C1 C2).
    destruct (token_endpoint E (token_posts w)) as [rt|e]; [|reflexivity].
    destruct (negb (Z.eqb (status_code rt) 200)); [reflexivity|].
    destruct (body_json rt) as [[]|]; try reflexivity.
    cbv zeta. destruct (negb (Json.truthy (Json.get d "access_token"))); [reflexivity|].
    destruct (PyInt.int _); reflexivity.
  - assert (F : forall w, _fetch_new_token E w = (Raise missing_credentials, w)).
    { intros w. unfold _fetch_new_token. now rewrite C. }
    split; [|split; [exact F|]].
    + revert K. unfold check_config, missing_config.
      destruct (PyStr.truthy_opt (PISTE_CLIENT_ID E));
        destruct (PyStr.truthy_opt (PISTE_CLIENT_SECRET E)); cbn [negb app];
        try discriminate; intros [= <-].
      * exists ["PISTE_CLIENT_SECRET"]. split; [reflexivity | tauto].
      * exists ["PISTE_CLIENT_ID"]. split; [reflexivity | tauto].
      * exists ["PISTE_CLIENT_ID"; "PISTE_CLIENT_SECRET"]. split; [reflexivity | tauto].
    + intros endpoint payload w base T B.
      rewrite post_legifrance_unfold, B. cbn [seq for_attempts].
      unfold attempt_once, try_body. rewrite do_post_unfold, get_token_unfold.
      unfold cache_valid. cbn [entered _access_token]. rewrite T. cbn [andb].
      rewrite F. reflexivity.
Qed.

End Configuration.

(* ================================================================== *)
(** ** The base URL *)
(* ================================================================== *)

Section ConsultBase.

Lemma lstrip_by_idem (p : ascii -> bool) (l : list ascii) :
  PyStr.lstrip_by p (PyStr.lstrip_by p l) = PyStr.lstrip_by p l.
Proof.
  induction l as [|c l IH]; cbn; auto.
  destruct (p c) eqn:P; auto. cbn. now rewrite P.
Qed.

Lemma rstrip_by_idem (p : ascii -> bool) (l : list ascii) :
  PyStr.rstrip_by p (PyStr.rstrip_by p l) = PyStr.rstrip_by p l.
Proof. unfold PyStr.rstrip_by. now rewrite rev_involutive, lstrip_by_idem. Qed.

Lemma chars_app (a b : string) :
  PyStr.chars (a ++ b) = (PyStr.chars a ++ PyStr.chars b)%list.
Proof.
  induction a as [|c a IH]; [reflexivity|].
  cbn [append PyStr.chars list_ascii_of_string app]. f_equal. exact IH.
Qed.

Lemma str_app (a b : list ascii) :
  PyStr.str (a ++ b)%list = PyStr.str a ++ PyStr.str b.
Proof.
  induction a as [|c a IH]; [reflexivity|].
  cbn [app PyStr.str string_of_list_ascii append]. f_equal. exact IH.
Qed.

Lemma prefix_app (a b : string) : String.prefix a (a ++ b) = true.
Proof.
  induction a as [|c a IH]; cbn; [now destruct b|].
  destruct (ascii_dec c c); [exact IH | contradiction].
Qed.

Lemma endswith_app (b p : string) : PyStr.endswith (b ++ p) p = true.
Proof.
  unfold PyStr.endswith. rewrite chars_app, rev_app_distr, str_app. apply prefix_app.
Qed.

Lemma rstrip_char_idem (c : ascii) (s : string) :
  PyStr.rstrip_char c (PyStr.rstrip_char c s) = PyStr.rstrip_char c s.
Proof. unfold PyStr.rstrip_char. now rewrite chars_str, rstrip_by_idem. Qed.

Lemma rstrip_char_consult (b : string) :
  PyStr.rstrip_char "/" (b ++ "/consult") = b ++ "/consult".
Proof.
  unfold PyStr.rstrip_char, PyStr.rstrip_by.
  rewrite chars_app, rev_app_distr. cbn [PyStr.chars list_ascii_of_string rev app].
  cbn [PyStr.lstrip_by Ascii.eqb Bool.eqb]. cbn [rev app].
  rewrite rev_involutive, <- !app_assoc. cbn [app].
  now rewrite str_app, str_chars.
Qed.

Lemma rstrip_char_empty (s : string) :
  PyStr.truthy (PyStr.rstrip_char "/" s) = negb (only_slashes s).
Proof.
  unfold PyStr.rstrip_char, PyStr.rstrip_by, only_slashes. rewrite truthy_str.
  destruct (forallb (Ascii.eqb "/") (PyStr.chars s)) eqn:B.
  - rewrite <- forallb_rev in B. apply lstrip_nil_iff in B. now rewrite B.
  - destruct (rev (PyStr.lstrip_by (Ascii.eqb "/") (rev (PyStr.chars s)))) as [|c r] eqn:R;
      auto.
    apply (f_equal (@rev ascii)) in R. rewrite rev_involutive in R. cbn in R.
    apply lstrip_nil_iff in R. now rewrite forallb_rev, B in R.
Qed.

(** [_ensure_consult_base] gives a base in normal form: the result ends
    with [/consult], has no trailing slash, and is left as it is when it is
    given back to the function.  The function raises for the bases made of
    slashes only (the empty one included) and for no other, and a transport
    call then raises that error after no more than the record of the call:
    no token is asked for, no request is sent. *)
Theorem ensure_consult_base_normal_form (E : Env) (base : string) :
  match _ensure_consult_base (Some base) with
  | Ok b =>
      only_slashes base = false
      /\ PyStr.endswith b "/consult" = true
      /\ PyStr.rstrip_char "/" b = b
      /\ _ensure_consult_base (Some b) = Ok b
  | Raise e =>
      only_slashes base = true
      /\ e = LegifranceApiError "LEGIFRANCE_API_BASE est vide."
      /\ (LEGIFRANCE_API_BASE E = base ->
          forall endpoint payload w,
            _post_legifrance E endpoint payload w = (Raise e, called endpoint payload w))
  end.
Proof.
  unfold _ensure_consult_base at 1. cbv zeta.
  pose proof (rstrip_char_empty base) as T.
  destruct (PyStr.truthy (PyStr.rstrip_char "/" base)) eqn:Tb; cbn [negb].
  - apply (f_equal negb) in T. rewrite negb_involutive in T. cbn in T.
    destruct (PyStr.endswith (PyStr.rstrip_char "/" base) "/consult") eqn:W; cbn [negb].
    + split; [now rewrite <- T|]. split; [exact W|].
      split; [apply rstrip_char_idem|].
      unfold _ensure_consult_base. rewrite rstrip_char_idem, Tb, W. reflexivity.
    + split; [now rewrite <- T|]. split; [apply endswith_app|].
      split; [apply rstrip_char_consult|].
      unfold _ensure_consult_base. rewrite rstrip_char_consult, endswith_app.
      now destruct (PyStr.rstrip_char "/" base).
  - split; [now destruct (only_slashes base)|]. split; [reflexivity|].
    intros HB endpoint payload w. rewrite post_legifrance_unfold, HB.
    unfold _ensure_consult_base. now rewrite Tb.
Qed.

End ConsultBase.

(* ================================================================== *)
(** ** Dates *)
(* ================================================================== *)

Section Calendar.

Lemma in_range_dv (lo hi c : ascii) (a b : Z) :
  Dates.in_range lo hi c = true ->
  Nat.leb 48 (nat_of_ascii lo) = true ->
  Z.of_nat (nat_of_ascii lo - 48) = a -> Z.of_nat (nat_of_ascii hi - 48) = b ->
  (a <= Dates.dv c <= b)%Z.
Proof.
  unfold Dates.in_range, Dates.dv. intros H L <- <-. apply andb_true_iff in H.
  destruct H as [H1 H2]. apply Nat.leb_le in H1, H2, L. lia.
Qed.

Lemma is_digit_dv (c : ascii) : PyStr.is_digit c = true -> (0 <= Dates.dv c <= 9)%Z.
Proof.
  unfold PyStr.is_digit, Dates.dv. cbv zeta. intros H. apply andb_true_iff in H.
  destruct H as [H1 H2]. apply Nat.leb_le in H1, H2. lia.
Qed.

Ltac in_one H :=
  match type of H with
  | In _ (if ?b then _ else _) =>
      let R := fresh "R" in
      destruct b eqn:R;
        [destruct H as [H | []]; apply pair_equal_spec in H; destruct H as [<- <-]
        | contradiction]
  end.

Lemma cand_m_range (l : list ascii) (m : Z) (r : list ascii) :
  In (m, r) (Dates.cand_m l) -> (1 <= m <= 12)%Z.
Proof.
  unfold Dates.cand_m. intros H.
  apply in_app_or in H. destruct H as [H | H]; [|apply in_app_or in H; destruct H as [H | H]].
  - destruct l as [|a l']; [contradiction|].
    destruct l' as [|c r']; destruct a as [[] [] [] [] [] [] [] []]; try contradiction.
    in_one H. pose proof (in_range_dv _ _ _ 0 2 R eq_refl eq_refl eq_refl). lia.
  - destruct l as [|a l']; [contradiction|].
    destruct l' as [|c r']; destruct a as [[] [] [] [] [] [] [] []]; try contradiction.
    in_one H. pose proof (in_range_dv _ _ _ 1 9 R eq_refl eq_refl eq_refl). lia.
  - destruct l as [|c r']; [contradiction|].
    in_one H. pose proof (in_range_dv _ _ _ 1 9 R eq_refl eq_refl eq_refl). lia.
Qed.

Lemma cand_d_range (l : list ascii) (d : Z) (r : list ascii) :
  In (d, r) (Dates.cand_d l) -> (1 <= d <= 31)%Z.
Proof.
  unfold Dates.cand_d. intros H.
  repeat (apply in_app_or in H; destruct H as [H | H]).
  - destruct l as [|a l']; [contradiction|].
    destruct l' as [|c r']; destruct a as [[] [] [] [] [] [] [] []]; try contradiction.
    in_one H. pose proof (in_range_dv _ _ _ 0 1 R eq_refl eq_refl eq_refl). lia.
  - destruct l as [|a [|c r']]; try contradiction.
    in_one H. apply andb_true_iff in R. destruct R as [R1 R2].
    pose proof (in_range_dv _ _ _ 1 2 R1 eq_refl eq_refl eq_refl).
    pose proof (is_digit_dv _ R2). lia.
  - destruct l as [|a l']; [contradiction|].
    destruct l' as [|c r']; destruct a as [[] [] [] [] [] [] [] []]; try contradiction.
    in_one H. pose proof (in_range_dv _ _ _ 1 9 R eq_refl eq_refl eq_refl). lia.
  - destruct l as [|c r']; [contradiction|].
    in_one H. pose proof (in_range_dv _ _ _ 1 9 R eq_refl eq_refl eq_refl). lia.
  - destruct l as [|a l']; [contradiction|].
    destruct l' as [|c r']; destruct a as [[] [] [] [] [] [] [] []]; try contradiction.
    in_one H. pose proof (in_range_dv _ _ _ 1 9 R eq_refl eq_refl eq_refl). lia.
Qed.

Lemma first_some_In {A B : Type} (f : A -> option B) (l : list A) (b : B) :
  Dates.first_some f l = Some b -> exists a, In a l /\ f a = Some b.
Proof.
  induction l as [|a l IH]; cbn; [discriminate|].
  destruct (f a) as [b'|] eqn:F.
  - intros [= <-]. exists a. auto.
  - intros H. destruct (IH H) as (a' & I & E). exists a'. auto.
Qed.

Lemma parse_Y_range (l : list ascii) (y : Z) (r : list ascii) :
  Dates.parse_Y l = Some (y, r) -> (0 <= y <= 9999)%Z.
Proof.
  unfold Dates.parse_Y. destruct l as [|a [|b [|c [|d r']]]]; try discriminate.
  destruct (PyStr.is_digit a) eqn:Da; [|discriminate].
  destruct (PyStr.is_digit b) eqn:Db; [|discriminate].
  destruct (PyStr.is_digit c) eqn:Dc; [|discriminate].
  destruct (PyStr.is_digit d) eqn:Dd; [|discriminate].
  cbn [andb]. intros H.
  assert (E : (1000 * Dates.dv a + 100 * Dates.dv b + 10 * Dates.dv c + Dates.dv d)%Z = y)
    by congruence.
  subst y.
  apply is_digit_dv in Da, Db, Dc, Dd. lia.
Qed.

Lemma match_ymd_range (l : list ascii) (y m d : Z) (rest : list ascii) :
  Dates.match_ymd l = Some (y, m, d, rest) ->
  (0 <= y <= 9999 /\ 1 <= m <= 12 /\ 1 <= d <= 31)%Z.
Proof.
  unfold Dates.match_ymd.
  destruct (Dates.parse_Y l) as [[y0 r0]|] eqn:P; [|discriminate].
  apply parse_Y_range in P.
  destruct r0 as [|a r1]; [discriminate|].
  destruct a as [[] [] [] [] [] [] [] []]; try discriminate.
  intros H. apply first_some_In in H. destruct H as ([m0 r2] & I & H).
  apply cand_m_range in I. cbn [fst snd] in H.
  destruct r2 as [|a r3]; [discriminate|].
  destruct a as [[] [] [] [] [] [] [] []]; try discriminate.
  destruct (Dates.cand_d r3) as [|[d0 r4] t] eqn:C; [discriminate|].
  assert (D : In (d0, r4) (Dates.cand_d r3)) by (rewrite C; now left).
  apply cand_d_range in D.
  assert (E : (y0, m0, d0) = (y, m, d)) by congruence.
  apply pair_equal_spec in E. destruct E as [E <-].
  apply pair_equal_spec in E. destruct E as [<- <-]. lia.
Qed.

Lemma strptime_valid (s : string) (y m d : Z) :
  Dates.strptime_ymd s = Ok (y, m, d) -> valid_date y m d.
Proof.
  unfold Dates.strptime_ymd.
  destruct (Dates.match_ymd (PyStr.chars s)) as [[[[y0 m0] d0] rest]|] eqn:M;
    [|discriminate].
  apply match_ymd_range in M. destruct rest; [|discriminate].
  destruct (Z.leb 1 y0 && Z.leb d0 (Dates.days_in_month y0 m0))%bool eqn:V; [|discriminate].
  intros H. assert (E : (y0, m0, d0) = (y, m, d)) by congruence.
  apply pair_equal_spec in E. destruct E as [E <-].
  apply pair_equal_spec in E. destruct E as [<- <-].
  apply andb_true_iff in V. destruct V as [V1 V2].
  apply Z.leb_le in V1, V2. unfold valid_date. lia.
Qed.

Lemma dby_step (y : Z) :
  (Dates.days_before_year (y + 1)
   = Dates.days_before_year y + 365 + (if Dates.is_leap y then 1 else 0))%Z.
Proof.
  unfold Dates.days_before_year, Dates.is_leap. cbv zeta.
  replace (y + 1 - 1)%Z with y by lia.
  destruct (Z.eqb_spec (y mod 4) 0), (Z.eqb_spec (y mod 100) 0),
    (Z.eqb_spec (y mod 400) 0);
    cbn [negb andb orb]; Z.div_mod_to_equations; lia.
Qed.

Lemma dby_mono (y y' : Z) :
  (y <= y' -> Dates.days_before_year y <= Dates.days_before_year y')%Z.
Proof.
  unfold Dates.days_before_year. cbv zeta. intros. Z.div_mod_to_equations. lia.
Qed.

Lemma month_cases (m : Z) :
  (1 <= m <= 12)%Z ->
  (m = 1 \/ m = 2 \/ m = 3 \/ m = 4 \/ m = 5 \/ m = 6
   \/ m = 7 \/ m = 8 \/ m = 9 \/ m = 10 \/ m = 11 \/ m = 12)%Z.
Proof. lia. Qed.

Lemma dbm_step (y m : Z) :
  (1 <= m <= 11 ->
   Dates.days_before_month y (m + 1)
   = Dates.days_before_month y m + Dates.days_in_month y m)%Z.
Proof.
  intros H. assert (C : (1 <= m <= 12)%Z) by lia. apply month_cases in C.
  unfold Dates.days_before_month, Dates.days_in_month.
  destruct (Dates.is_leap y);
    destruct C as [->|[->|[->|[->|[->|[->|[->|[->|[->|[->|[->| ->]]]]]]]]]]];
    try lia; reflexivity.
Qed.

Lemma dim_bounds (y m : Z) : (28 <= Dates.days_in_month y m <= 31)%Z.
Proof.
  unfold Dates.days_in_month. destruct (Z.eqb m 2); [destruct (Dates.is_leap y); lia|].
  destruct (_ || _)%bool; lia.
Qed.

Lemma dbm_mono (y m m' : Z) :
  (1 <= m -> m < m' -> m' <= 12 ->
   Dates.days_before_month y m + Dates.days_in_month y m
   <= Dates.days_before_month y m')%Z.
Proof.
  intros H1 H2 H3.
  assert (G : forall k, (0 <= k)%Z -> (m + 1 + k <= 12)%Z ->
            (Dates.days_before_month y m + Dates.days_in_month y m
             <= Dates.days_before_month y (m + 1 + k))%Z).
  { intros k Hk. pattern k. apply natlike_ind; auto.
    - intros _. rewrite Z.add_0_r, dbm_step; lia.
    - intros x Hx IH Hle.
      replace (m + 1 + Z.succ x)%Z with ((m + 1 + x) + 1)%Z by lia.
      rewrite dbm_step by lia. pose proof (dim_bounds y (m + 1 + x)). lia. }
  replace m' with (m + 1 + (m' - m - 1))%Z by lia. apply G; lia.
Qed.

Lemma dbm_year (y m d : Z) :
  valid_date y m d ->
  (1 <= Dates.days_before_month y m + d <= 365 + (if Dates.is_leap y then 1 else 0))%Z.
Proof.
  intros (Hy & Hm & Hd).
  assert (C := month_cases m Hm).
  revert Hd. unfold Dates.days_before_month, Dates.days_in_month.
  destruct (Dates.is_leap y);
    destruct C as [->|[->|[->|[->|[->|[->|[->|[->|[->|[->|[->| ->]]]]]]]]]]];
    cbn [Z.ltb Z.eqb Z.compare Pos.compare Pos.compare_cont Pos.eqb andb orb];
    match goal with
    | |- context [nth ?n ?l ?z] =>
        let v := eval vm_compute in (nth n l z) in change (nth n l z) with v
    end; lia.
Qed.

Lemma ymd2ord_lt (y m d y' m' d' : Z) :
  valid_date y m d -> valid_date y' m' d' ->
  earlier (y, m, d) (y', m', d') ->
  (Dates.ymd2ord y m d < Dates.ymd2ord y' m' d')%Z.
Proof.
  intros V V' L. pose proof (dbm_year _ _ _ V) as B. pose proof (dbm_year _ _ _ V') as B'.
  unfold Dates.ymd2ord. unfold earlier in L. destruct L as [L | (-> & [L | (-> & L)])].
  - pose proof (dby_mono (y + 1) y' ltac:(lia)) as M. rewrite dby_step in M. lia.
  - destruct V as (_ & Hm & Hd). destruct V' as (_ & Hm' & Hd').
    pose proof (dbm_mono y' m m' ltac:(lia) L ltac:(lia)). lia.
  - lia.
Qed.

Lemma calendar_trichotomy (y m d y' m' d' : Z) :
  earlier (y, m, d) (y', m', d') \/ (y, m, d) = (y', m', d')
  \/ earlier (y', m', d') (y, m, d).
Proof.
  unfold earlier.
  destruct (Z.lt_trichotomy y y') as [?|[->|?]]; [lia| |lia].
  destruct (Z.lt_trichotomy m m') as [?|[->|?]]; [lia| |lia].
  destruct (Z.lt_trichotomy d d') as [?|[->|?]]; [lia| |lia]. auto.
Qed.

Lemma utc_millis_order (a b : Z * Z * Z) :
  (let '(y, m, d) := a in valid_date y m d) ->
  (let '(y, m, d) := b in valid_date y m d) ->
  (earlier a b <-> (Dates.utc_millis a < Dates.utc_millis b)%Z)
  /\ (Dates.utc_millis a = Dates.utc_millis b <-> a = b).
Proof.
  destruct a as [[y m] d], b as [[y' m'] d']. intros V V'.
  pose proof (ymd2ord_lt _ _ _ _ _ _ V V') as L1.
  pose proof (ymd2ord_lt _ _ _ _ _ _ V' V) as L2.
  unfold Dates.utc_millis.
  destruct (calendar_trichotomy y m d y' m' d') as [T | [T | T]].
  - specialize (L1 T). split; split; intros H; try lia; auto.
    injection H as -> -> ->. lia.
  - injection T as -> -> ->. split; split; intros H; try lia; auto.
    unfold earlier in H. lia.
  - specialize (L2 T). split; split; intros H; try lia.
    + pose proof (ymd2ord_lt _ _ _ _ _ _ V V' H). lia.
    + injection H as -> -> ->. lia.
Qed.

Lemma lstrip_by_map (f : ascii -> ascii) (p : ascii -> bool) (l : list ascii) :
  (forall c, p (f c) = p c) ->
  PyStr.lstrip_by p (map f l) = map f (PyStr.lstrip_by p l).
Proof.
  intros Hp. induction l as [|c l IH]; cbn; auto.
  rewrite Hp. destruct (p c); auto.
Qed.

Lemma rstrip_by_map (f : ascii -> ascii) (p : ascii -> bool) (l : list ascii) :
  (forall c, p (f c) = p c) ->
  PyStr.rstrip_by p (map f l) = map f (PyStr.rstrip_by p l).
Proof.
  intros Hp. unfold PyStr.rstrip_by.
  now rewrite <- map_rev, lstrip_by_map, map_rev.
Qed.

Lemma strip_replace_slash (s : string) :
  PyStr.strip (PyStr.replace_char "/" "-" s)
  = PyStr.replace_char "/" "-" (PyStr.strip s).
Proof.
  assert (Hp : forall c, PyStr.is_space (if Ascii.eqb c "/" then "-"%char else c)
                         = PyStr.is_space c).
  { intros c. destruct (Ascii.eqb c "/") eqn:Ec; auto.
    apply Ascii.eqb_eq in Ec. now subst c. }
  unfold PyStr.strip, PyStr.replace_char.
  now rewrite !chars_str, lstrip_by_map, rstrip_by_map.
Qed.

Lemma replace_slash_idem (s : string) :
  PyStr.replace_char "/" "-" (PyStr.replace_char "/" "-" s)
  = PyStr.replace_char "/" "-" s.
Proof.
  unfold PyStr.replace_char. rewrite chars_str, map_map. f_equal.
  apply map_ext. intros c. destruct (Ascii.eqb c "/") eqn:Ec; [reflexivity|].
  now rewrite Ec.
Qed.

Lemma replace_slash_truthy (s : string) :
  PyStr.truthy (PyStr.replace_char "/" "-" s) = PyStr.truthy s.
Proof.
  unfold PyStr.replace_char. rewrite truthy_str, (truthy_chars s).
  now destruct (PyStr.chars s).
Qed.

(** Slashes and dashes are interchangeable in a date hint, one by one:
    whatever the text, replacing its slashes by dashes changes neither the
    timestamp nor the error of [iso_date_to_millis]. *)
Theorem iso_date_slash_dash (s : string) :
  iso_date_to_millis (Some (PyStr.replace_char "/" "-" s)) = iso_date_to_millis (Some s).
Proof.
  unfold iso_date_to_millis. cbn [PyStr.truthy_opt PyStr.of_opt].
  now rewrite replace_slash_truthy, strip_replace_slash, replace_slash_idem.
Qed.

(** A date hint that converts is a date of the calendar between 0001-01-01
    and 9999-12-31, and its timestamp is midnight UTC of that day: a whole
    number of days from 1970-01-01, in milliseconds, within the range of
    these two dates.  The timestamp is 0 for 1970-01-01 and for no other
    day, so that the primary query lacks the [DATE_VERSION] filter, for a
    date that converts, on that day alone. *)
Theorem iso_date_millis_calendar (date : option string) (millis : Z) :
  iso_date_to_millis date = Ok (Some millis) ->
  exists y m d,
    Dates.strptime_ymd (PyStr.replace_char "/" "-" (PyStr.strip (PyStr.of_opt date)))
    = Ok (y, m, d)
    /\ valid_date y m d
    /\ millis = ((Dates.ymd2ord y m d - Dates.ymd2ord 1970 1 1) * 86400000)%Z
    /\ (-62135596800000 <= millis <= 253402214400000)%Z
    /\ (millis = 0%Z <-> (y, m, d) = (1970, 1, 1)%Z)
    /\ (forall code_title article_num,
          _search_payload_code_article code_title article_num date
          = Ok (search_body
                  [champ "TEXT_NOM_CODE" code_title; champ "NUM_ARTICLE" article_num]
                  [filtre_vigueur] 10)
          <-> (y, m, d) = (1970, 1, 1)%Z).
Proof.
  intros H. pose proof (iso_date_present _ _ H) as T.
  unfold iso_date_to_millis in H. rewrite T in H. cbn [negb] in H.
  destruct (Dates.strptime_ymd _) as [[[y m] d]|e] eqn:S; [|discriminate].
  injection H as <-. exists y, m, d. split; [reflexivity|].
  pose proof (strptime_valid _ _ _ _ S) as V. split; [exact V|].
  assert (V0 : valid_date 1970 1 1) by (vm_compute; intuition discriminate).
  assert (Vlo : valid_date 1 1 1) by (vm_compute; intuition discriminate).
  assert (Vhi : valid_date 9999 12 31) by (vm_compute; intuition discriminate).
  assert (M : Dates.utc_millis (y, m, d)
              = ((Dates.ymd2ord y m d - Dates.ymd2ord 1970 1 1) * 86400000)%Z).
  { unfold Dates.utc_millis. change (Dates.ymd2ord 1970 1 1) with 719163%Z. lia. }
  assert (Z0 : Dates.utc_millis (y, m, d) = 0%Z <-> (y, m, d) = (1970, 1, 1)%Z).
  { destruct (utc_millis_order (y, m, d) (1970, 1, 1)%Z V V0) as [_ Q].
    change (Dates.utc_millis (1970, 1, 1)%Z) with 0%Z in Q. exact Q. }
  split; [exact M|]. split; [|split; [exact Z0|]].
  - assert (L : (Dates.ymd2ord 1 1 1 <= Dates.ymd2ord y m d)%Z).
    { destruct (calendar_trichotomy 1 1 1 y m d) as [Q | [Q | Q]].
      - pose proof (ymd2ord_lt _ _ _ _ _ _ Vlo V Q). lia.
      - injection Q as <- <- <-. lia.
      - unfold earlier in Q. destruct V as (? & ? & ?). lia. }
    assert (U : (Dates.ymd2ord y m d <= Dates.ymd2ord 9999 12 31)%Z).
    { destruct (calendar_trichotomy y m d 9999 12 31) as [Q | [Q | Q]].
      - pose proof (ymd2ord_lt _ _ _ _ _ _ V Vhi Q). lia.
      - injection Q as -> -> ->. lia.
      - unfold earlier in Q. destruct V as (? & ? & ?).
        pose proof (dim_bounds y m). lia. }
    change (Dates.ymd2ord 1 1 1) with 1%Z in L.
    change (Dates.ymd2ord 9999 12 31) with 3652059%Z in U. lia.
  - intros code_title article_num.
    rewrite (search_payload_filters _ _ _ (Some (Dates.utc_millis (y, m, d)))).
    2:{ rewrite T. unfold iso_date_to_millis. rewrite T. cbn [negb]. now rewrite S. }
    rewrite <- Z0. unfold filtres_of.
    destruct (Z.eqb_spec (Dates.utc_millis (y, m, d)) 0) as [Q | Q]; cbn [negb app].
    + split; auto.
    + split; [|contradiction]. intros K. exfalso.
      apply (f_equal (fun r => match r with
                               | Ok (JDict [_; (_, JDict (_ :: (_, JList f) :: _))]) =>
                                   List.length f
                               | _ => 0
                               end)) in K.
      discriminate K.
Qed.

(** The timestamps follow the calendar: of two date hints that
    [strptime] accepts, the earlier day has the smaller timestamp, and the
    timestamps are equal for the same day only. *)
Theorem timestamps_follow_calendar (s s' : string) (a b : Z * Z * Z) :
  Dates.strptime_ymd s = Ok a -> Dates.strptime_ymd s' = Ok b ->
  (earlier a b <-> (Dates.utc_millis a < Dates.utc_millis b)%Z)
  /\ (Dates.utc_millis a = Dates.utc_millis b <-> a = b).
Proof.
  intros Ha Hb. destruct a as [[y m] d], b as [[y' m'] d'].
  apply utc_millis_order; [exact (strptime_valid _ _ _ _ Ha) | exact (strptime_valid _ _ _ _ Hb)].
Qed.

End Calendar.

(** The first of January 2020, written with slashes and blanks around. *)
Lemma iso_date_millis_calendar_witness :
  exists y m d,
    Dates.strptime_ymd "2020-01-01" = Ok (y, m, d)
    /\ valid_date y m d
    /\ 1577836800000%Z = ((Dates.ymd2ord y m d - Dates.ymd2ord 1970 1 1) * 86400000)%Z.
Proof.
  destruct (iso_date_millis_calendar (Some " 2020/01/01 ") 1577836800000 eq_refl)
    as (y & m & d & S & V & M & _).
  exists y, m, d. split; [exact S|]. split; [exact V | exact M].
Defined.

(** The last day of February 2020 and the day after. *)
Lemma timestamps_follow_calendar_witness :
  (Dates.utc_millis (2020, 2, 29) < Dates.utc_millis (2020, 3, 1))%Z.
Proof.
  apply (proj1 (proj1 (timestamps_follow_calendar "2020-02-29" "2020-03-01"
                         (2020, 2, 29)%Z (2020, 3, 1)%Z eq_refl eq_refl))).
  unfold earlier. lia.
Defined.
